(** * dynamic-encoder: canonical serialisation, content hash and verified load

    A shallow embedding of the JavaScript sources

      - [generateFunctionsString] and its helper [handleFunction]
        (lib/generateFunctionsString.js), the canonical serialiser;
      - [defaultHasher] and [generateHash] (hasher.js);
      - [toDataUri] (toDataUri.js), the packager;
      - [generateEncodingUri], exported as [create];
      - [importEncodingFromUri], exported as [load].

    JavaScript strings are sequences of UTF-16 code units, an object is the
    list of its own enumerable properties in enumeration order, a function
    value is its source text together with the lexical scope it closes over.
    The services of the JavaScript platform that the sources call (dynamic
    [import], [cenc.from], the two injected externals) are collected in a
    [Platform] record; [btoa], [b4a.from] and SHA-256 are written out. *)

From Stdlib Require Import NArith ZArith List String Ascii Bool Lia.
From Stdlib Require Import Sorting.Sorted Sorting.Permutation.
Import ListNotations.

Set Implicit Arguments.
Local Open Scope N_scope.

(* ================================================================== *)
(** ** JavaScript strings *)

(** A JavaScript string: its UTF-16 code units. *)
Definition jsstring := list N.

(** A source-level ASCII literal as a JavaScript string. *)
Definition js (s : string) : jsstring :=
  map N_of_ascii (list_ascii_of_string s).

Fixpoint jseqb (a b : jsstring) : bool :=
  match a, b with
  | [], [] => true
  | x :: a', y :: b' => (x =? y) && jseqb a' b'
  | _, _ => false
  end.

(** [s.startsWith(p)] *)
Fixpoint startsWith (s p : jsstring) {struct p} : bool :=
  match p, s with
  | [], _ => true
  | c :: p', d :: s' => (c =? d) && startsWith s' p'
  | _ :: _, [] => false
  end.

(** [s.slice(s.indexOf(c))].  When [c] does not occur, [indexOf] is [-1] and
    [slice(-1)] is the last code unit of [s] (or the empty string). *)
Fixpoint sliceFrom (c : N) (s : jsstring) : option jsstring :=
  match s with
  | [] => None
  | d :: s' => if d =? c then Some s else sliceFrom c s'
  end.

Definition sliceAtIndexOf (c : N) (s : jsstring) : jsstring :=
  match sliceFrom c s with
  | Some t => t
  | None => match rev s with [] => [] | d :: _ => [d] end
  end.

(** [parts.join(sep)] *)
Fixpoint join (sep : jsstring) (parts : list jsstring) : jsstring :=
  match parts with
  | [] => []
  | [p] => p
  | p :: rest => p ++ sep ++ join sep rest
  end.

(** Truthiness of a string is non-emptiness; [filter(Boolean)] on strings. *)
Definition nonEmpty (s : jsstring) : bool :=
  match s with [] => false | _ => true end.


(* ================================================================== *)
(** ** Errors *)

Inductive error :=
| InvalidCharacterError            (* DOMException raised by btoa *)
| TypeError (msg : jsstring)
| SyntaxError (msg : jsstring)
| Error (msg : jsstring)           (* new Error(msg) *)
| Thrown (what : jsstring).        (* anything a caller-supplied hasher throws *)

Inductive result (A : Type) :=
| Ok (a : A)
| Throw (e : error).
Arguments Ok {A} a.
Arguments Throw {A} e.

Definition bind {A B} (r : result A) (k : A -> result B) : result B :=
  match r with
  | Ok a => k a
  | Throw e => Throw e
  end.

Notation "x <- r ;; k" := (bind r (fun x => k))
  (at level 61, r at next level, right associativity).

(* ================================================================== *)
(** ** Base64 and [toDataUri]  (toDataUri.js) *)

Module Base64.

(** The base64 alphabet, index to code unit. *)
Definition ch (i : N) : N :=
  if i <? 26 then 65 + i
  else if i <? 52 then 97 + (i - 26)
  else if i <? 62 then 48 + (i - 52)
  else if i =? 62 then 43
  else 47.

(** Code unit to index. *)
Definition idx (c : N) : option N :=
  if (65 <=? c) && (c <=? 90) then Some (c - 65)
  else if (97 <=? c) && (c <=? 122) then Some (c - 97 + 26)
  else if (48 <=? c) && (c <=? 57) then Some (c - 48 + 52)
  else if c =? 43 then Some 62
  else if c =? 47 then Some 63
  else None.

Definition pad : N := 61.

Fixpoint encode (l : list N) : jsstring :=
  match l with
  | [] => []
  | [a] => [ch (a / 4); ch ((a mod 4) * 16); pad; pad]
  | [a; b] => [ch (a / 4); ch ((a mod 4) * 16 + b / 16);
               ch ((b mod 16) * 4); pad]
  | a :: b :: c :: r =>
      ch (a / 4) :: ch ((a mod 4) * 16 + b / 16)
      :: ch ((b mod 16) * 4 + c / 64) :: ch (c mod 64) :: encode r
  end.

Definition isNil {A} (l : list A) : bool :=
  match l with [] => true | _ => false end.

(** Decoder for padded base64 text. *)
Fixpoint decode (l : jsstring) : option (list N) :=
  match l with
  | [] => Some []
  | c1 :: c2 :: c3 :: c4 :: r =>
      match idx c1, idx c2 with
      | Some i1, Some i2 =>
          if (c3 =? pad) && (c4 =? pad) && isNil r then
            Some [i1 * 4 + i2 / 16]
          else
            match idx c3 with
            | Some i3 =>
                if (c4 =? pad) && isNil r then
                  Some [i1 * 4 + i2 / 16; (i2 mod 16) * 16 + i3 / 4]
                else
                  match idx c4, decode r with
                  | Some i4, Some rest =>
                      Some (i1 * 4 + i2 / 16
                            :: (i2 mod 16) * 16 + i3 / 4
                            :: (i3 mod 4) * 64 + i4 :: rest)
                  | _, _ => None
                  end
            | None => None
            end
      | _, _ => None
      end
  | _ => None
  end.

End Base64.

(** Every code unit fits one byte: the strings [btoa] accepts. *)
Definition isLatin1 (s : jsstring) : bool := forallb (fun c => c <=? 255) s.

(** [btoa(s)]: base64 of the string read as one byte per code unit; a code
    unit above 0xFF raises InvalidCharacterError. *)
Definition btoa (s : jsstring) : result jsstring :=
  if isLatin1 s then Ok (Base64.encode s) else Throw InvalidCharacterError.

(** [atob(s)] on padded base64 text. *)
Definition atob (s : jsstring) : result jsstring :=
  match Base64.decode s with
  | Some l => Ok l
  | None => Throw InvalidCharacterError
  end.

Definition dataUriPrefix : jsstring := js "data:text/javascript;base64,".

(**
<<
export function toDataUri(code) {
    const base64 = btoa(code);
    return `data:text/javascript;base64,${base64}`;
}
>> *)
Definition toDataUri (code : jsstring) : result jsstring :=
  base64 <- btoa code ;;
  Ok (dataUriPrefix ++ base64).

(* ================================================================== *)
(** ** UTF-8 and SHA-256  (the byte conversion and the digest of hasher.js) *)

(** [b4a.from(string)]: the UTF-8 bytes of a string.  A surrogate pair is one
    code point; a lone surrogate is encoded as U+FFFD. *)
Fixpoint utf8 (s : jsstring) : list N :=
  match s with
  | [] => []
  | c :: r =>
      if c <? 0x80 then c :: utf8 r
      else if c <? 0x800 then 0xC0 + c / 64 :: 0x80 + c mod 64 :: utf8 r
      else if (0xD800 <=? c) && (c <? 0xDC00) then
        match r with
        | d :: r' =>
            if (0xDC00 <=? d) && (d <? 0xE000) then
              let cp := 0x10000 + (c - 0xD800) * 0x400 + (d - 0xDC00) in
              0xF0 + cp / 262144 :: 0x80 + (cp / 4096) mod 64
              :: 0x80 + (cp / 64) mod 64 :: 0x80 + cp mod 64 :: utf8 r'
            else 0xEF :: 0xBF :: 0xBD :: utf8 r
        | [] => [0xEF; 0xBF; 0xBD]
        end
      else if (0xDC00 <=? c) && (c <? 0xE000) then
        0xEF :: 0xBF :: 0xBD :: utf8 r
      else
        0xE0 + c / 4096 :: 0x80 + (c / 64) mod 64 :: 0x80 + c mod 64 :: utf8 r
  end.

Module SHA256.

Definition w32 (x : N) : N := x mod 0x100000000.
Definition add32 (x y : N) : N := w32 (x + y).
Definition not32 (x : N) : N := N.lxor x 0xFFFFFFFF.
Definition rotr (n x : N) : N :=
  N.lor (N.shiftr x n) (w32 (N.shiftl x (32 - n))).

Definition Ch (x y z : N) := N.lxor (N.land x y) (N.land (not32 x) z).
Definition Maj (x y z : N) :=
  N.lxor (N.lxor (N.land x y) (N.land x z)) (N.land y z).
Definition Sigma0 x := N.lxor (N.lxor (rotr 2 x) (rotr 13 x)) (rotr 22 x).
Definition Sigma1 x := N.lxor (N.lxor (rotr 6 x) (rotr 11 x)) (rotr 25 x).
Definition sigma0 x := N.lxor (N.lxor (rotr 7 x) (rotr 18 x)) (N.shiftr x 3).
Definition sigma1 x := N.lxor (N.lxor (rotr 17 x) (rotr 19 x)) (N.shiftr x 10).

(** The first 64 primes. *)
Definition primes : list N :=
  [2; 3; 5; 7; 11; 13; 17; 19; 23; 29; 31; 37; 41; 43; 47; 53; 59; 61; 67; 71;
   73; 79; 83; 89; 97; 101; 103; 107; 109; 113; 127; 131; 137; 139; 149; 151;
   157; 163; 167; 173; 179; 181; 191; 193; 197; 199; 211; 223; 227; 229; 233;
   239; 241; 251; 257; 263; 269; 271; 277; 281; 283; 293; 307; 311].

(** The largest [r] below [2 ^ (bit + 1)], above the bits already set in
    [r0], whose cube does not exceed [n]. *)
Fixpoint cubeRoot (bit : nat) (r0 n : N) : N :=
  let c := r0 + 2 ^ N.of_nat bit in
  let r := if c * c * c <=? n then c else r0 in
  match bit with
  | O => r
  | S bit' => cubeRoot bit' r n
  end.

(** The round constants: the first 32 bits of the fractional parts of the
    cube roots of the first 64 primes. *)
Definition K : list N :=
  Eval vm_compute in
    map (fun p => w32 (cubeRoot 40 0 (p * 2 ^ 96))) primes.

(** The initial hash value: the first 32 bits of the fractional parts of the
    square roots of the first 8 primes. *)
Definition H0 : list N :=
  Eval vm_compute in
    map (fun p => w32 (N.sqrt (p * 2 ^ 64))) (firstn 8 primes).

(** Big-endian bytes of a number, [n] bytes wide. *)
Fixpoint bytesBE (n : nat) (x : N) : list N :=
  match n with
  | O => []
  | S n' => bytesBE n' (x / 256) ++ [x mod 256]
  end.

Definition wordBE (b : list N) : N :=
  fold_left (fun acc x => acc * 256 + x) b 0.

(** Message padding: 0x80, zeros up to 56 mod 64, 64-bit bit length. *)
Definition padMessage (msg : list N) : list N :=
  let len := List.length msg in
  let zeros := ((119 - Nat.modulo len 64) mod 64)%nat in
  msg ++ [0x80] ++ repeat 0 zeros ++ bytesBE 8 (8 * N.of_nat len).

Fixpoint words (n : nat) (b : list N) : list N :=
  match n with
  | O => []
  | S n' => wordBE (firstn 4 b) :: words n' (skipn 4 b)
  end.

(** Message schedule: extend the 16 block words to 64. *)
Fixpoint schedule (n : nat) (w : list N) : list N :=
  match n with
  | O => w
  | S n' =>
      let t := List.length w in
      let at_ k := nth (t - k) w 0 in
      schedule n'
        (w ++ [add32 (add32 (sigma1 (at_ 2%nat)) (at_ 7%nat))
                     (add32 (sigma0 (at_ 15%nat)) (at_ 16%nat))])
  end.

Definition round (st : list N) (kw : N * N) : list N :=
  match st with
  | [a; b; c; d; e; f; g; h] =>
      let t1 := add32 (add32 (add32 h (Sigma1 e)) (add32 (Ch e f g) (fst kw)))
                      (snd kw) in
      let t2 := add32 (Sigma0 a) (Maj a b c) in
      [add32 t1 t2; a; b; c; add32 d t1; e; f; g]
  | _ => st
  end.

Definition compress (hs : list N) (block : list N) : list N :=
  let w := schedule 48 (words 16 block) in
  let st := fold_left round (combine K w) hs in
  map (fun p => add32 (fst p) (snd p)) (combine hs st).

Fixpoint blocks (n : nat) (hs : list N) (b : list N) : list N :=
  match n with
  | O => hs
  | S n' => blocks n' (compress hs (firstn 64 b)) (skipn 64 b)
  end.

(** [crypto.subtle.digest('SHA-256', data)] *)
Definition digest (msg : list N) : list N :=
  let p := padMessage msg in
  flat_map (bytesBE 4) (blocks (Nat.div (List.length p) 64) H0 p).

End SHA256.

Definition hexDigit (d : N) : N := if d <? 10 then 48 + d else 87 + d.

(** [b.toString(16).padStart(2, '0')] for a byte [b]. *)
Definition hexByte (b : N) : jsstring := [hexDigit (b / 16); hexDigit (b mod 16)].

Definition hasher := list N -> result jsstring.

(**
<<
export async function defaultHasher(data) {
    const hashBuffer = await crypto.subtle.digest('SHA-256', data);
    return Array.from(new Uint8Array(hashBuffer))
        .map(b => b.toString(16).padStart(2, '0')).join('');
}
>> *)
Definition defaultHasher : hasher :=
  fun data => Ok (join [] (map hexByte (SHA256.digest data))).

(* ================================================================== *)
(** ** JavaScript values *)

(** The values the sources inspect.  A function is the text its [toString]
    returns together with the bindings of the scope it was created in; an
    object is its own enumerable properties in enumeration order.  A number
    (or bigint) is given by the text [ToString] writes for it, which is all
    the sources use of it besides its truthiness: [0], [-0] and [0n] are
    written [0], and no other number is written [0] or [NaN].  Symbols are
    not modelled. *)
#[local] Set Warnings "-register-all".
Inductive value :=
| VUndefined
| VNull
| VString (s : jsstring)
| VBoolean (b : bool)
| VNumber (text : jsstring)
| VObject (props : list (jsstring * value))
| VFunction (src : jsstring) (scope : list (jsstring * value)).

Definition props := list (jsstring * value).

(** [typeof v === 'function'] *)
Definition isFunction (v : value) : bool :=
  match v with VFunction _ _ => true | _ => false end.

(** ToBoolean: [undefined], [null], the empty string, [false], zero and
    [NaN] are falsy. *)
Definition truthy (v : value) : bool :=
  match v with
  | VUndefined | VNull => false
  | VString s => nonEmpty s
  | VBoolean b => b
  | VNumber text => negb (jseqb text (js "0") || jseqb text (js "NaN"))
  | VObject _ | VFunction _ _ => true
  end.

(** ToString of a value: [v.toString()] for the truthy values it is called
    on, and template-literal interpolation.  Plain objects use the inherited
    [Object.prototype.toString]. *)
Definition toStringV (v : value) : jsstring :=
  match v with
  | VUndefined => js "undefined"
  | VNull => js "null"
  | VString s => s
  | VBoolean b => if b then js "true" else js "false"
  | VNumber text => text
  | VObject _ => js "[object Object]"
  | VFunction src _ => src
  end.

(** [Object.keys(o)] *)
Definition keys (o : props) : list jsstring := map fst o.

Fixpoint lookup (k : jsstring) (o : props) : option value :=
  match o with
  | [] => None
  | (k', v) :: o' => if jseqb k k' then Some v else lookup k o'
  end.

(** [o[k]] on an object *)
Definition get (o : props) (k : jsstring) : value :=
  match lookup k o with Some v => v | None => VUndefined end.

(** [o[k] = v]: overwrite in place or append.  (The place of integer-like
    keys in the enumeration order is not modelled; objects built this way are
    only read by key.) *)
Fixpoint setProp (k : jsstring) (v : value) (o : props) : props :=
  match o with
  | [] => [(k, v)]
  | (k', v') :: o' =>
      if jseqb k k' then (k, v) :: o' else (k', v') :: setProp k v o'
  end.

(** An object literal [{k1: v1, ..., kn: vn}]: later duplicates win. *)
Definition objectLiteral (entries : props) : props :=
  fold_left (fun o kv => setProp (fst kv) (snd kv) o) entries [].

(** Reading property [k] of an arbitrary value, as destructuring does:
    [undefined] and [null] have no properties at all, and primitives and
    functions have none of the properties the sources read. *)
Definition getProp (v : value) (k : jsstring) : result value :=
  match v with
  | VUndefined | VNull =>
      Throw (TypeError (js "Cannot destructure property of undefined or null"))
  | VObject o => Ok (get o k)
  | VString _ | VBoolean _ | VNumber _ | VFunction _ _ => Ok VUndefined
  end.

(** Own keys are pairwise distinct: the list really is an object. *)
Fixpoint distinct (l : list jsstring) : bool :=
  match l with
  | [] => true
  | k :: r => negb (existsb (jseqb k) r) && distinct r
  end.

(* ================================================================== *)
(** ** Canonical serialiser  (lib/generateFunctionsString.js) *)

Definition nl : jsstring := [10].
Definition dquote : jsstring := [34].
Definition lparen : N := 40.

(**
<<
function handleFunction(fnName, fn) {
    const fnString = fn.toString();
    if (fnString.startsWith(fnName + '(') || fnString.startsWith(fnName + ' (')) {
        return `${fnName}: function ${fnName}${fnString.slice(fnString.indexOf('('))}`;
    }
    return `${fnName}: ${fnString}`;
}
>> *)
Definition handleFunction (fnName : jsstring) (fn : value) : jsstring :=
  let fnString := toStringV fn in
  if startsWith fnString (fnName ++ js "(")
     || startsWith fnString (fnName ++ js " (")
  then fnName ++ js ": function " ++ fnName ++ sliceAtIndexOf lparen fnString
  else fnName ++ js ": " ++ fnString.

(**
<<
export function generateFunctionsString(encoder, dependencies = {}) {
    const { encode, decode, preencode } = encoder;
    const depStrings = Object.keys(dependencies)
        .filter(depName => typeof dependencies[depName] === 'function')
        .map(depName => handleFunction(depName, dependencies[depName]));
    const properties = [
        encode ? handleFunction('encode', encode) : '',
        decode ? handleFunction('decode', decode) : '',
        preencode ? handleFunction('preencode', preencode) : '',
        ...depStrings
    ].filter(Boolean);
    return properties.length > 0 ? properties.join(',\n') : '';
}
>> *)
Definition generateFunctionsString (encoder : value) (dependencies : props)
  : result jsstring :=
  encode <- getProp encoder (js "encode") ;;
  decode <- getProp encoder (js "decode") ;;
  preencode <- getProp encoder (js "preencode") ;;
  let depStrings :=
    map (fun depName => handleFunction depName (get dependencies depName))
        (filter (fun depName => isFunction (get dependencies depName))
                (keys dependencies)) in
  let properties :=
    filter nonEmpty
      ([ if truthy encode then handleFunction (js "encode") encode else [];
         if truthy decode then handleFunction (js "decode") decode else [];
         if truthy preencode then handleFunction (js "preencode") preencode
         else [] ] ++ depStrings) in
  Ok (if (0 <? List.length properties)%nat
      then join (js "," ++ nl) properties else []).

(* ================================================================== *)
(** ** Integrity hasher  (hasher.js) *)

(**
<<
export async function generateHash(encoder, dependencies = {}, hasher = defaultHasher) {
    const functionsString = generateFunctionsString(encoder, dependencies);
    const encoderBuffer = b4a.from(functionsString);
    return hasher(encoderBuffer);
}
>> *)
Definition generateHash (encoder : value) (dependencies : props)
           (hasher_ : option hasher) : result jsstring :=
  let hasher := match hasher_ with Some h => h | None => defaultHasher end in
  functionsString <- generateFunctionsString encoder dependencies ;;
  let encoderBuffer := utf8 functionsString in
  hasher encoderBuffer.

(* ================================================================== *)
(** ** [Array.prototype.sort()] on strings *)

(** [a < b] on strings: lexicographic on code units. *)
Fixpoint jsltb (a b : jsstring) : bool :=
  match a, b with
  | _, [] => false
  | [], _ :: _ => true
  | x :: a', y :: b' => (x <? y) || ((x =? y) && jsltb a' b')
  end.

Fixpoint insertKey (k : jsstring) (l : list jsstring) : list jsstring :=
  match l with
  | [] => [k]
  | x :: r => if jsltb k x then k :: l else x :: insertKey k r
  end.

(** [keys.sort()] with the default comparator. *)
Definition sortKeys (l : list jsstring) : list jsstring :=
  fold_right insertKey [] l.

(* ================================================================== *)
(** ** Creator  ([generateEncodingUri], exported as [create]) *)

Record created := { uri : jsstring; hash : jsstring }.

(** The module text template of [generateEncodingUri]. *)
Definition moduleCode (dependencyString properties : jsstring) : jsstring :=
  nl ++ js "export default function (cenc, b4a" ++ dependencyString
     ++ js ") {" ++ nl
     ++ js "    return {" ++ nl
     ++ js "        " ++ properties ++ nl
     ++ js "    };" ++ nl
     ++ js "}".

(** [encoderName || encoder.name] *)
Definition nameOf (encoderName : jsstring) (encoder : props) : value :=
  if nonEmpty encoderName then VString encoderName
  else get encoder (js "name").

(**
<<
async function generateEncodingUri(encoderName = '', encoder, dependencies = {}, hasher) {
    const dependencyKeys = Object.keys(dependencies).sort();
    const dependencyString = dependencyKeys.length ? `,${dependencyKeys.join(',')}` : '';
    const functionsString = generateFunctionsString(encoder, dependencies);
    const hash = await generateHash(encoder, dependencies, hasher);
    const nameEntry = encoderName || encoder.name
        ? `name: <dq>${encoderName || encoder.name}<dq>` : '';    // <dq> is the double quote
    const hashEntry = `hash: <dq>${hash}<dq>`;
    const properties = [functionsString, nameEntry, hashEntry].filter(Boolean).join(',\n');
    const moduleCode = `...`;
    return { uri: toDataUri(moduleCode), hash };
}
>> *)
Definition generateEncodingUri (encoderName : jsstring) (encoder : props)
           (dependencies : props) (hasher_ : option hasher) : result created :=
  let dependencyKeys := sortKeys (keys dependencies) in
  let dependencyString :=
    if (0 <? List.length dependencyKeys)%nat
    then js "," ++ join (js ",") dependencyKeys else [] in
  functionsString <- generateFunctionsString (VObject encoder) dependencies ;;
  hash <- generateHash (VObject encoder) dependencies hasher_ ;;
  let nameEntry :=
    if truthy (nameOf encoderName encoder)
    then js "name: " ++ dquote ++ toStringV (nameOf encoderName encoder) ++ dquote
    else [] in
  let hashEntry := js "hash: " ++ dquote ++ hash ++ dquote in
  let properties :=
    join (js "," ++ nl) (filter nonEmpty [functionsString; nameEntry; hashEntry]) in
  uri <- toDataUri (moduleCode dependencyString properties) ;;
  Ok {| uri := uri; hash := hash |}.

(** [export {generateEncodingUri as create}] *)
Abbreviation create := generateEncodingUri.

(* ================================================================== *)
(** ** The JavaScript platform seen by the loader *)

Definition factory := list value -> result value.

(** What the loader imports or calls and this repository does not define:
    the two externals handed to every generated module, [cenc.from] (a total
    adapter from objects to encoders), and dynamic [import] of a data URI.
    [import_ uri] is the [default] export of the evaluated module: [None]
    when it is not callable. *)
Record Platform := {
  cenc : value;
  b4a : value;
  cenc_from : value -> value;
  import_ : jsstring -> result (option factory)
}.

(** The third argument of [load], by the [typeof] classes the code tests. *)
Inductive hasherOrDepsArg :=
| Omitted                     (* absent or [undefined]: the default applies *)
| AFunction (h : hasher)      (* typeof 'function' *)
| AObject (d : props)         (* typeof 'object', not null *)
| ANull                       (* typeof 'object' *)
| APrimitive (s : jsstring).  (* any other typeof *)

(** What the loader does to the outside world, in order. *)
Inductive event :=
| EvImport (uri : jsstring)       (* import(uri) evaluated the module text *)
| EvInvoke (args : list value)    (* the exported factory was called *)
| EvGenerateHash (encoder : value) (dependencies : props).
                                  (* the digest of the loaded encoder is taken *)

(** Computations that log events and may throw. *)
Definition M (A : Type) : Type := (list event * result A)%type.

Definition ret {A} (a : A) : M A := ([], Ok a).
Definition throw {A} (e : error) : M A := ([], Throw e).
Definition emit (e : event) : M unit := ([e], Ok tt).
Definition liftR {A} (r : result A) : M A := ([], r).
Definition bindM {A B} (m : M A) (k : A -> M B) : M B :=
  match m with
  | (t, Ok a) => let (t', r) := k a in (t ++ t', r)
  | (t, Throw e) => (t, Throw e)
  end.

Notation "x <~ m ;; k" := (bindM m (fun x => k))
  (at level 61, m at next level, right associativity).

Definition hashMismatch : error :=
  Error (js "Data integrity check failed: hash mismatch.").

(** The hasher and the dependency object [load] settles on (lines 8-15);
    [None] stands for a [null] dependency object. *)
Definition resolveArgs (hasherOrDeps : hasherOrDepsArg)
           (dependencies : option props) : hasher * option props :=
  let hasherOrDeps :=
    match hasherOrDeps with Omitted => AFunction defaultHasher | x => x end in
  let dependencies :=
    match dependencies with Some d => d | None => [] end in
  match hasherOrDeps with
  | AFunction h => (h, Some dependencies)
  | AObject d => (defaultHasher, Some d)
  | ANull => (defaultHasher, None)
  | Omitted | APrimitive _ => (defaultHasher, Some dependencies)
  end.

(** [Object.keys(dependencies).sort().map(key => dependencies[key])] *)
Definition sortedValues (dependencies : props) : list value :=
  map (get dependencies) (sortKeys (keys dependencies)).

(**
<<
async function importEncodingFromUri(dataUri, expectedHash,
                                     hasherOrDeps = defaultHasher, dependencies = {}) {
    let hasher = defaultHasher;
    if (typeof hasherOrDeps === 'function') {
        hasher = hasherOrDeps;
    } else if (typeof hasherOrDeps === 'object') {
        dependencies = hasherOrDeps;
    }
    const sortedDependencies = Object.keys(dependencies).sort().map(key => dependencies[key]);
    const module = await import(dataUri);
    const loadedEncoder = module.default(cenc, b4a, ...sortedDependencies);
    const computedHash = await generateHash(loadedEncoder, dependencies, hasher);
    if (computedHash !== expectedHash) {
        throw new Error('Data integrity check failed: hash mismatch.');
    }
    return cenc.from(loadedEncoder);
}
>> *)
Definition importEncodingFromUri (P : Platform) (dataUri expectedHash : jsstring)
           (hasherOrDeps : hasherOrDepsArg) (dependencies : option props)
  : M value :=
  let (hasher, resolved) := resolveArgs hasherOrDeps dependencies in
  match resolved with
  | None =>
      throw (TypeError (js "Cannot convert undefined or null to object"))
  | Some dependencies =>
      let sortedDependencies := sortedValues dependencies in
      module <~ liftR (import_ P dataUri) ;;
      _ <~ emit (EvImport dataUri) ;;
      match module with
      | None => throw (TypeError (js "module.default is not a function"))
      | Some default =>
          let args := cenc P :: b4a P :: sortedDependencies in
          _ <~ emit (EvInvoke args) ;;
          loadedEncoder <~ liftR (default args) ;;
          _ <~ emit (EvGenerateHash loadedEncoder dependencies) ;;
          computedHash <~
            liftR (generateHash loadedEncoder dependencies (Some hasher)) ;;
          if negb (jseqb computedHash expectedHash)
          then throw hashMismatch
          else ret (cenc_from P loadedEncoder)
      end
  end.

(** [export {importEncodingFromUri as load}] *)
Abbreviation load := importEncodingFromUri.

(** The events and the outcome of a call. *)
Definition trace {A} (m : M A) : list event := fst m.
Definition outcome {A} (m : M A) : result A := snd m.

(* ================================================================== *)
(** ** What a generated module denotes *)

(** The source form that follows [name: ] in [handleFunction]'s output. *)
Definition sourceForm (fnName : jsstring) (fn : value) : jsstring :=
  let fnString := toStringV fn in
  if startsWith fnString (fnName ++ js "(")
     || startsWith fnString (fnName ++ js " (")
  then js "function " ++ fnName ++ sliceAtIndexOf lparen fnString
  else fnString.

(** The initialiser of a property in the object literal a generated module
    returns: a string literal or the text of a function expression. *)
Inductive expr :=
| EString (s : jsstring)
| EFunction (src : jsstring).

(** A module of the shape the Creator's template has: the formal parameters
    after [cenc, b4a] and the properties of the returned object literal. *)
Record moduleAst := { params : list jsstring; entries : list (jsstring * expr) }.

(** Binding formal parameters to arguments: a missing argument is
    [undefined], surplus arguments are dropped. *)
Fixpoint bindParams (names : list jsstring) (args : list value) : props :=
  match names with
  | [] => []
  | n :: names' =>
      match args with
      | [] => (n, VUndefined) :: bindParams names' []
      | a :: args' => (n, a) :: bindParams names' args'
      end
  end.

(** A function expression evaluates to a closure over the scope of the call;
    its [toString] is its source text. *)
Definition evalExpr (scope : props) (e : expr) : value :=
  match e with
  | EString s => VString s
  | EFunction src => VFunction src scope
  end.

(** Calling the default export of the module with [args]. *)
Definition instantiate (m : moduleAst) (args : list value) : value :=
  let scope := bindParams (js "cenc" :: js "b4a" :: params m) args in
  VObject (objectLiteral
             (map (fun ke => (fst ke, evalExpr scope (snd ke))) (entries m))).

(** The entries [generateFunctionsString] writes, property by property. *)
Definition functionEntries (encoder : props) (dependencies : props)
  : list (jsstring * expr) :=
  let cap (n : jsstring) :=
    if truthy (get encoder n)
    then [(n, EFunction (sourceForm n (get encoder n)))] else [] in
  cap (js "encode") ++ cap (js "decode") ++ cap (js "preencode")
  ++ map (fun k => (k, EFunction (sourceForm k (get dependencies k))))
         (filter (fun k => isFunction (get dependencies k)) (keys dependencies)).

(** The module that the text built by [create] spells out: its formal
    parameters are the sorted dependency keys, and the object literal it
    returns lists the capabilities, the callable dependencies, the name and
    the hash ([create_prints] below: the text is [printModule] of it).  It
    is the module that the text spells out when the text is well-formed
    ([RefEngine.wellFormedModule], [created_read] below): then the keys are
    identifiers, the source forms are function expressions and neither the
    name nor the hash needs escaping inside a string literal.  A name or a
    hash with a double quote in it, for one, makes the text spell out another
    module; the properties below use this definition for well-formed texts
    only. *)
Definition createdModule (encoderName : jsstring) (encoder dependencies : props)
           (hash : jsstring) : moduleAst :=
  {| params := sortKeys (keys dependencies);
     entries :=
       functionEntries encoder dependencies
       ++ (if truthy (nameOf encoderName encoder)
           then [(js "name", EString (toStringV (nameOf encoderName encoder)))]
           else [])
       ++ [(js "hash", EString hash)] |}.

(** The text of an initialiser and of a property of the object literal. *)
Definition printExpr (e : expr) : jsstring :=
  match e with
  | EString s => dquote ++ s ++ dquote
  | EFunction src => src
  end.

Definition printEntry (ke : jsstring * expr) : jsstring :=
  fst ke ++ js ": " ++ printExpr (snd ke).

(** The text of a module in the Creator's template. *)
Definition printModule (m : moduleAst) : jsstring :=
  moduleCode
    (if (0 <? List.length (params m))%nat
     then js "," ++ join (js ",") (params m) else [])
    (join (js "," ++ nl) (map printEntry (entries m))).

(** The platform evaluates the artifact [uri] as the module [m]. *)
Definition evaluatesAs (P : Platform) (uri : jsstring) (m : moduleAst) : Prop :=
  exists f, import_ P uri = Ok (Some f) /\ forall args, f args = Ok (instantiate m args).

(** The platform evaluates the packed text of the module [m] as [m]: what a
    JavaScript engine does with a well-formed module of the template. *)
Definition evaluatesTemplate (P : Platform) (m : moduleAst) : Prop :=
  forall u, toDataUri (printModule m) = Ok u -> evaluatesAs P u m.

(* ================================================================== *)
(** ** A reference engine for generated modules *)

(** A small executable stand-in for dynamic [import]: it accepts data
    URIs whose module text has the shape of the Creator's template, splits the
    returned object literal at the commas that are outside brackets and string
    literals, and evaluates string literals and function expressions.  Any
    other text is rejected with a SyntaxError. *)
Module RefEngine.

Fixpoint stripPrefix (p s : jsstring) : option jsstring :=
  match p, s with
  | [], _ => Some s
  | c :: p', d :: s' => if c =? d then stripPrefix p' s' else None
  | _ :: _, [] => None
  end.

Definition isSpace (c : N) : bool :=
  (c =? 32) || (c =? 10) || (c =? 9) || (c =? 13).

Fixpoint trimStart (s : jsstring) : jsstring :=
  match s with
  | c :: r => if isSpace c then trimStart r else s
  | [] => []
  end.

Definition trim (s : jsstring) : jsstring :=
  rev (trimStart (rev (trimStart s))).

Definition isIdentStart (c : N) : bool :=
  ((65 <=? c) && (c <=? 90)) || ((97 <=? c) && (c <=? 122))
  || (c =? 95) || (c =? 36).

Definition isIdentPart (c : N) : bool :=
  isIdentStart c || ((48 <=? c) && (c <=? 57)).

(** The words that cannot name a parameter in the strict code of a module. *)
Definition reserved : list jsstring :=
  map js ["function"; "return"; "class"; "const"; "let"; "var"; "if"; "else";
          "for"; "while"; "do"; "new"; "delete"; "typeof"; "void"; "this";
          "null"; "true"; "false"; "import"; "export"; "default"; "in";
          "switch"; "case"; "break"; "continue"; "try"; "catch";
          "finally"; "throw"; "with"; "yield"; "await"; "static"; "enum";
          "super"; "extends"; "instanceof"; "debugger"; "arguments"; "eval";
          "implements"; "interface"; "package"; "private"; "protected";
          "public"]%string.

Definition isIdentifier (s : jsstring) : bool :=
  match s with
  | c :: r => isIdentStart c && forallb isIdentPart r
              && negb (existsb (jseqb s) reserved)
  | [] => false
  end.

Fixpoint splitOn (c : N) (s : jsstring) : list jsstring :=
  match s with
  | [] => [[]]
  | d :: r =>
      if d =? c then [] :: splitOn c r
      else match splitOn c r with
           | p :: ps => (d :: p) :: ps
           | [] => [[d]]
           end
  end.

(** Split at the first occurrence of [c]. *)
Fixpoint breakAt (c : N) (s : jsstring) : option (jsstring * jsstring) :=
  match s with
  | [] => None
  | d :: r =>
      if d =? c then Some ([], r)
      else match breakAt c r with
           | Some (a, b) => Some (d :: a, b)
           | None => None
           end
  end.

Inductive mode := Code | InString (q : N) | Escaped (q : N).

Definition isQuote (c : N) : bool := (c =? 34) || (c =? 39) || (c =? 96).
Definition isOpen (c : N) : bool := (c =? 40) || (c =? 91) || (c =? 123).
Definition isClose (c : N) : bool := (c =? 41) || (c =? 93) || (c =? 125).

(** The property texts of an object literal body, up to the brace that
    closes the literal, and the text after that brace. *)
Fixpoint splitProps (s : jsstring) (depth : nat) (m : mode)
         (cur : jsstring) (acc : list jsstring)
  : option (list jsstring * jsstring) :=
  match s with
  | [] => None
  | c :: r =>
      match m with
      | Escaped q => splitProps r depth (InString q) (c :: cur) acc
      | InString q =>
          if c =? 92 then splitProps r depth (Escaped q) (c :: cur) acc
          else if c =? q then splitProps r depth Code (c :: cur) acc
          else splitProps r depth (InString q) (c :: cur) acc
      | Code =>
          if isQuote c then splitProps r depth (InString c) (c :: cur) acc
          else if isOpen c then splitProps r (S depth) Code (c :: cur) acc
          else if isClose c then
            match depth with
            | O => if c =? 125 then Some (rev (rev cur :: acc), r) else None
            | S d => splitProps r d Code (c :: cur) acc
            end
          else if (c =? 44) && Nat.eqb depth 0
               then splitProps r depth Code [] (rev cur :: acc)
          else splitProps r depth Code (c :: cur) acc
      end
  end.

(** The text after the parenthesis that closes the one just opened. *)
Fixpoint afterParens (s : jsstring) (depth : nat) : option jsstring :=
  match s with
  | [] => None
  | c :: r =>
      if c =? 40 then afterParens r (S depth)
      else if c =? 41 then
        match depth with O => Some r | S d => afterParens r d end
      else afterParens r depth
  end.

Fixpoint dropIdent (s : jsstring) : jsstring :=
  match s with
  | c :: r => if isIdentPart c then dropIdent r else s
  | [] => []
  end.

Definition lastIs (c : N) (s : jsstring) : bool :=
  match rev s with d :: _ => d =? c | [] => false end.

(** [function name? (params) { body }] *)
Definition isFunctionExpression (s : jsstring) : bool :=
  match stripPrefix (js "function") s with
  | Some r =>
      match trimStart (dropIdent (trimStart r)) with
      | c :: r' =>
          (c =? 40) &&
          match afterParens r' 0 with
          | Some body =>
              match trimStart body with
              | b :: _ => (b =? 123) && lastIs 125 s
              | [] => false
              end
          | None => false
          end
      | [] => false
      end
  | None => false
  end.

(** The text after the parameters of an arrow function, which are a
    parenthesised list or one identifier. *)
Definition afterArrowParams (s : jsstring) : option jsstring :=
  match s with
  | c :: r =>
      if c =? 40 then afterParens r 0
      else if isIdentStart c then Some (dropIdent s) else None
  | [] => None
  end.

(** The arrow comes next after the parameters. *)
Definition isArrowHead (s : jsstring) : bool :=
  match afterArrowParams s with
  | Some r => startsWith (trimStart r) (js "=>")
  | None => false
  end.

(** [(params) => body], [x => body], [async (params) => body],
    [async x => body].  A method written in shorthand, with or without
    [async], is no expression. *)
Definition isArrowFunction (s : jsstring) : bool :=
  isArrowHead s
  || match stripPrefix (js "async") s with
     | Some (c :: r) =>
         ((c =? 40) || isSpace c) && isArrowHead (trimStart (c :: r))
     | _ => false
     end.

(** A code unit that stands for itself inside a string literal in double
    quotes: not the quote, the backslash or a line break. *)
Definition plainChar (c : N) : bool :=
  negb ((c =? 34) || (c =? 92) || (c =? 10) || (c =? 13)).

Definition isStringLiteral (s : jsstring) : option jsstring :=
  match s with
  | 34 :: r =>
      match rev r with
      | 34 :: body =>
          if forallb plainChar body
          then Some (rev body) else None
      | _ => None
      end
  | _ => None
  end.

Definition syntaxError {A} : result A :=
  Throw (SyntaxError (js "Unexpected token")).

Definition parseExpr (s : jsstring) : result expr :=
  match isStringLiteral s with
  | Some body => Ok (EString body)
  | None =>
      if isFunctionExpression s || isArrowFunction s
      then Ok (EFunction s) else syntaxError
  end.

Definition parseProp (s : jsstring) : result (jsstring * expr) :=
  match breakAt 58 s with
  | Some (k, e) =>
      if isIdentifier (trim k) || existsb (jseqb (trim k)) reserved
      then e' <- parseExpr (trim e) ;; Ok (trim k, e')
      else syntaxError
  | None => syntaxError
  end.

Fixpoint mapR {A B} (f : A -> result B) (l : list A) : result (list B) :=
  match l with
  | [] => Ok []
  | x :: r => y <- f x ;; ys <- mapR f r ;; Ok (y :: ys)
  end.

Definition parseParams (s : jsstring) : result (list jsstring) :=
  match s with
  | [] => Ok []
  | 44 :: r =>
      let names := map trim (splitOn 44 r) in
      if forallb isIdentifier names
         && distinct (js "cenc" :: js "b4a" :: names)
      then Ok names else syntaxError
  | _ => syntaxError
  end.

Definition parseModule (text : jsstring) : result moduleAst :=
  match stripPrefix (nl ++ js "export default function (cenc, b4a") text with
  | Some r =>
      match breakAt 41 r with
      | Some (ps, r') =>
          names <- parseParams ps ;;
          match stripPrefix (js " {" ++ nl ++ js "    return {") r' with
          | Some body =>
              match splitProps body 0 Code [] [] with
              | Some (pieces, rest) =>
                  if jseqb rest (js ";" ++ nl ++ js "}") then
                    es <- mapR parseProp
                            (filter nonEmpty (map trim pieces)) ;;
                    Ok {| params := names; entries := es |}
                  else syntaxError
              | None => syntaxError
              end
          | None => syntaxError
          end
      | None => syntaxError
      end
  | None => syntaxError
  end.

(** The UTF-8 decoder that turns the bytes of a fetched module into text
    (the decoder of the Encoding standard): the state is the code point
    under construction, the number of continuation bytes seen and needed, and
    the range the next byte has to be in. *)
Record utf8State := {
  codePoint : N; bytesSeen : N; bytesNeeded : N; lower : N; upper : N
}.

Definition utf8Start : utf8State :=
  {| codePoint := 0; bytesSeen := 0; bytesNeeded := 0;
     lower := 0x80; upper := 0xBF |}.

(** The UTF-16 code units of a code point. *)
Definition utf16 (cp : N) : jsstring :=
  if cp <? 0x10000 then [cp]
  else [0xD800 + (cp - 0x10000) / 0x400; 0xDC00 + (cp - 0x10000) mod 0x400].

(** A byte read when no sequence is open. *)
Definition utf8Lead (b : N) : jsstring * utf8State :=
  if b <? 0x80 then ([b], utf8Start)
  else if (0xC2 <=? b) && (b <=? 0xDF) then
    ([], {| codePoint := b mod 32; bytesSeen := 0; bytesNeeded := 1;
            lower := 0x80; upper := 0xBF |})
  else if (0xE0 <=? b) && (b <=? 0xEF) then
    ([], {| codePoint := b mod 16; bytesSeen := 0; bytesNeeded := 2;
            lower := if b =? 0xE0 then 0xA0 else 0x80;
            upper := if b =? 0xED then 0x9F else 0xBF |})
  else if (0xF0 <=? b) && (b <=? 0xF4) then
    ([], {| codePoint := b mod 8; bytesSeen := 0; bytesNeeded := 3;
            lower := if b =? 0xF0 then 0x90 else 0x80;
            upper := if b =? 0xF4 then 0x8F else 0xBF |})
  else ([0xFFFD], utf8Start).

(** One byte: a byte that cannot continue the open sequence ends it with
    U+FFFD and is read again as the start of a sequence. *)
Definition utf8Step (st : utf8State) (b : N) : jsstring * utf8State :=
  if bytesNeeded st =? 0 then utf8Lead b
  else if (lower st <=? b) && (b <=? upper st) then
    let cp := codePoint st * 64 + b mod 64 in
    if bytesSeen st + 1 =? bytesNeeded st then (utf16 cp, utf8Start)
    else ([], {| codePoint := cp; bytesSeen := bytesSeen st + 1;
                 bytesNeeded := bytesNeeded st;
                 lower := 0x80; upper := 0xBF |})
  else let (out, st') := utf8Lead b in (0xFFFD :: out, st').

Fixpoint utf8DecodeFrom (st : utf8State) (bytes : list N) : jsstring :=
  match bytes with
  | [] => if bytesNeeded st =? 0 then [] else [0xFFFD]
  | b :: r => let (out, st') := utf8Step st b in out ++ utf8DecodeFrom st' r
  end.

(** Decoding, after a byte order mark has been dropped. *)
Definition utf8Decode (bytes : list N) : jsstring :=
  match stripPrefix [0xEF; 0xBB; 0xBF] bytes with
  | Some r => utf8DecodeFrom utf8Start r
  | None => utf8DecodeFrom utf8Start bytes
  end.

(** The module that a base64 data URI spells out: the payload is decoded to
    bytes, the bytes are read as UTF-8 text, and the text is parsed. *)
Definition read (uri : jsstring) : result moduleAst :=
  match stripPrefix dataUriPrefix uri with
  | Some payload =>
      match Base64.decode payload with
      | Some bytes => parseModule (utf8Decode bytes)
      | None => syntaxError
      end
  | None => Throw (TypeError (js "Invalid URL"))
  end.

(** [import(uri)]: the default export of the module that [uri] spells out. *)
Definition import (uri : jsstring) : result (option factory) :=
  m <- read uri ;;
  Ok (Some (fun args => Ok (instantiate m args))).

(** [cenc.from]: an object with [preencode] is returned as it is, any other
    is wrapped in the three methods of a codec adapter that close over it
    (their bodies are left out). *)
Definition from (enc : value) : value :=
  match getProp enc (js "preencode") with
  | Ok p =>
      if truthy p then enc
      else VObject
             [(js "preencode", VFunction (js "preencode (state, m) { }") [(js "enc", enc)]);
              (js "encode", VFunction (js "encode (state, m) { }") [(js "enc", enc)]);
              (js "decode", VFunction (js "decode (state) { }") [(js "enc", enc)])]
  | Throw _ => enc
  end.

Definition platform : Platform :=
  {| cenc := VObject [(js "from", VFunction (js "function from (enc) { }") [])];
     b4a := VObject [(js "from", VFunction (js "function from (value) { }") [])];
     cenc_from := from;
     import_ := import |}.

(** *** Modules the reference engine is proved to evaluate *)

(** The state of the scanner of [splitProps] after the text [s], or [None]
    when [s] holds a comma or a closing bracket outside all brackets and
    string literals. *)
Fixpoint scan (s : jsstring) (depth : nat) (m : mode) : option (nat * mode) :=
  match s with
  | [] => Some (depth, m)
  | c :: r =>
      match m with
      | Escaped q => scan r depth (InString q)
      | InString q =>
          if c =? 92 then scan r depth (Escaped q)
          else if c =? q then scan r depth Code
          else scan r depth (InString q)
      | Code =>
          if isQuote c then scan r depth (InString c)
          else if isOpen c then scan r (S depth) Code
          else if isClose c then
            match depth with
            | O => None
            | S d => scan r d Code
            end
          else if (c =? 44) && Nat.eqb depth 0 then None
          else scan r depth Code
      end
  end.

(** Brackets and string literals of [s] are closed within [s], and no comma
    of [s] is outside them. *)
Definition balanced (s : jsstring) : bool :=
  match scan s 0 Code with
  | Some (O, Code) => true
  | _ => false
  end.

Definition isAscii (s : jsstring) : bool := forallb (fun c => c <? 128) s.

(** Neither the first nor the last code unit of [s] is white space. *)
Definition trimmed (s : jsstring) : bool :=
  match s, rev s with
  | c :: _, d :: _ => negb (isSpace c) && negb (isSpace d)
  | _, _ => false
  end.

(** A property name written without quotes. *)
Definition isKey (k : jsstring) : bool :=
  match k with
  | c :: r => isIdentStart c && forallb isIdentPart r
  | [] => false
  end.

Definition wellFormedExpr (e : expr) : bool :=
  match e with
  | EString s =>
      isAscii s && forallb plainChar s
  | EFunction src =>
      isAscii src && balanced src && trimmed src
      && match parseExpr src with
         | Ok (EFunction src') => jseqb src' src
         | _ => false
         end
  end.

Definition wellFormedEntry (ke : jsstring * expr) : bool :=
  isKey (fst ke) && wellFormedExpr (snd ke).

(** The parameters are distinct identifiers, there is at least one property,
    every property has an unquoted name and a string literal without
    escapes or a function expression as its initialiser, and no property is
    called [__proto__] (which in an object literal sets the prototype and is
    no property). *)
Definition wellFormedModule (m : moduleAst) : bool :=
  forallb isIdentifier (params m)
  && distinct (js "cenc" :: js "b4a" :: params m)
  && negb (Base64.isNil (entries m))
  && forallb wellFormedEntry (entries m)
  && negb (existsb (jseqb (js "__proto__")) (map fst (entries m))).

(** Code units that leave the scanner where it is. *)
Definition neutral (c : N) : bool :=
  negb (isQuote c || isOpen c || isClose c || (c =? 44)).

(** The text of the formal parameters after [cenc, b4a]. *)
Definition paramText (names : list jsstring) : jsstring :=
  if (0 <? List.length names)%nat then js "," ++ join (js ",") names else [].

(** The pieces into which the printed properties of a module fall: the first
    begins with the indentation [pre], the last ends before the closing
    brace. *)
Fixpoint piecesOf (pre : jsstring) (es : list (jsstring * expr))
  : list jsstring :=
  match es with
  | [] => []
  | [e] => [pre ++ printEntry e ++ nl ++ js "    "]
  | e :: es' => (pre ++ printEntry e) :: piecesOf nl es'
  end.

End RefEngine.

(* ================================================================== *)
(** ** Vocabulary of the properties *)

(** The platform evaluates the artifact [uri] as the module its text spells
    out. *)
Definition evaluatesArtifact (P : Platform) (uri : jsstring) : Prop :=
  forall m, RefEngine.read uri = Ok m -> evaluatesAs P uri m.

(** The three capabilities of the compact-encoding contract. *)
Definition capabilityNames : list jsstring :=
  [js "encode"; js "decode"; js "preencode"].

(** The dependency part of the canonical text, as [generateFunctionsString]
    computes it. *)
Definition depStrings (dependencies : props) : list jsstring :=
  map (fun depName => handleFunction depName (get dependencies depName))
      (filter (fun depName => isFunction (get dependencies depName))
              (keys dependencies)).

(** The entries of a dependency map whose value is callable. *)
Definition callableEntries (o : props) : props :=
  filter (fun kv => isFunction (snd kv)) o.

(** Two dependency maps list the same keys in the same order, agree on which
    values are callable, and their callable values have the same source text;
    non-callable values, and the scopes of callable ones, may differ. *)
Fixpoint sameSignature (d d' : props) : bool :=
  match d, d' with
  | [], [] => true
  | (k, v) :: r, (k', v') :: r' =>
      jseqb k k'
      && match v, v' with
         | VFunction s _, VFunction s' _ => jseqb s s'
         | VFunction _ _, _ | _, VFunction _ _ => false
         | _, _ => true
         end
      && sameSignature r r'
  | _, _ => false
  end.

(** The hasher an optional [hasher] argument stands for. *)
Definition hasherOf (hasher_ : option hasher) : hasher :=
  match hasher_ with Some h => h | None => defaultHasher end.

(** [a <= b] on strings. *)
Definition jsle (a b : jsstring) : Prop := jsltb b a = false.

(** The canonical text for given capability values and dependency strings
    (the last two statements of [generateFunctionsString]). *)
Definition canonicalText (encode decode preencode : value)
           (depStrs : list jsstring) : jsstring :=
  let properties :=
    filter nonEmpty
      ([ if truthy encode then handleFunction (js "encode") encode else [];
         if truthy decode then handleFunction (js "decode") decode else [];
         if truthy preencode then handleFunction (js "preencode") preencode
         else [] ] ++ depStrs) in
  if (0 <? List.length properties)%nat
  then join (js "," ++ nl) properties else [].

(** The total length of the parts of a joined string, separators counted
    after every part. *)
Fixpoint weight (sep : jsstring) (parts : list jsstring) : nat :=
  match parts with
  | [] => O
  | p :: rest => (List.length p + List.length sep + weight sep rest)%nat
  end.


(** None of [encode], [decode], [preencode] names a callable dependency. *)
Definition noCapabilityClash (dependencies : props) : bool :=
  forallb (fun c => negb (isFunction (get dependencies c))) capabilityNames.

(** The scope of the functions of a module created with the dependency keys
    of [created] when its factory is called by [load] with the dependency map
    [loaded]. *)
Definition factoryScope (P : Platform) (created loaded : props) : props :=
  bindParams (js "cenc" :: js "b4a" :: sortKeys (keys created))
             (cenc P :: b4a P :: sortedValues loaded).

(** The object that the factory of the module created from
    [encoderName], [encoder], [dependencies] returns to [load] when the
    dependency map at load time is [loaded]. *)
Definition loadedEncoder (P : Platform) (encoderName : jsstring)
           (encoder dependencies : props) (hash : jsstring) (loaded : props)
  : value :=
  instantiate (createdModule encoderName encoder dependencies hash)
              (cenc P :: b4a P :: sortedValues loaded).

(** A lowercase hexadecimal digit, [0-9a-f]. *)
Definition isHexDigit (c : N) : bool :=
  ((48 <=? c) && (c <=? 57)) || ((97 <=? c) && (c <=? 102)).

(** The number of code units of [btoa]'s output for [n] input bytes. *)
Definition base64Length (n : nat) : nat := (4 * ((n + 2) / 3))%nat.

(** Two objects agree on the capabilities: each of [encode], [decode] and
    [preencode] is truthy in both or in neither, and a truthy one has the same
    text under [toString] in both.  Every other property, and the scope a
    function closes over, may differ. *)
Definition sameCapabilities (o o' : props) : bool :=
  forallb (fun c =>
             Bool.eqb (truthy (get o c)) (truthy (get o' c))
             && (negb (truthy (get o c))
                 || jseqb (toStringV (get o c)) (toStringV (get o' c))))
          capabilityNames.

(** The pieces of the module text of [generateEncodingUri], under the names
    of its local constants. *)
Definition dependencyString (dependencies : props) : jsstring :=
  if (0 <? List.length (sortKeys (keys dependencies)))%nat
  then js "," ++ join (js ",") (sortKeys (keys dependencies)) else [].

Definition functionsString (encoder dependencies : props) : jsstring :=
  canonicalText (get encoder (js "encode")) (get encoder (js "decode"))
                (get encoder (js "preencode")) (depStrings dependencies).

Definition nameEntry (encoderName : jsstring) (encoder : props) : jsstring :=
  if truthy (nameOf encoderName encoder)
  then js "name: " ++ dquote ++ toStringV (nameOf encoderName encoder) ++ dquote
  else [].

Definition hashEntry (hs : jsstring) : jsstring :=
  js "hash: " ++ dquote ++ hs ++ dquote.

(** The module text that [generateEncodingUri] hands to [toDataUri] when the
    hasher has returned [hs]. *)
Definition moduleText (encoderName : jsstring) (encoder dependencies : props)
           (hs : jsstring) : jsstring :=
  moduleCode (dependencyString dependencies)
    (join (js "," ++ nl)
       (filter nonEmpty [functionsString encoder dependencies;
                         nameEntry encoderName encoder; hashEntry hs])).

(** Everything that goes into the module text fits [btoa]: the dependency
    keys, the canonical text of the functions, the name and the hash. *)
Definition packable (encoderName : jsstring) (encoder dependencies : props)
           (hs : jsstring) : bool :=
  forallb isLatin1 (keys dependencies)
  && isLatin1 (functionsString encoder dependencies)
  && isLatin1 (toStringV (nameOf encoderName encoder))
  && isLatin1 hs.

(* ================================================================== *)
(** ** Encoders and dependencies of the test suite *)

(** The fixtures keep the shape of the functions in the tests; bodies are
    written on one line, without comments, and string literals inside them
    use single quotes. *)
Module Fixtures.

(** [customEncoder1], the JSON encoder. *)
Definition jsonEncoder : props :=
  [(js "encode",
    VFunction (js "encode(state, value) { state.buffer = Buffer.from(JSON.stringify(value)); }") []);
   (js "decode",
    VFunction (js "decode(state) { return JSON.parse(state.buffer.toString()); }") []);
   (js "preencode",
    VFunction (js "preencode(state, value) { state.length = Buffer.byteLength(JSON.stringify(value)); }") [])].

(** The encoder with a shorthand method and an arrow function. *)
Definition shorthandEncoder : props :=
  [(js "encode",
    VFunction (js "encode(state, value) { state.buffer = Buffer.from(value); }") []);
   (js "decode",
    VFunction (js "(state) => { return state.buffer.toString(); }") [])].

(** The encoder whose functions use the dependency [dep]. *)
Definition depEncoder : props :=
  [(js "encode",
    VFunction (js "encode(state, value) { state.buffer = b4a.from(dep.process(value)); }") []);
   (js "decode",
    VFunction (js "decode(state) { return state.buffer.toString(); }") []);
   (js "preencode",
    VFunction (js "preencode(state, value) { state.length = b4a.byteLength(dep.process(value)); }") [])].

(** [{ hello() { return 'world'; } }] *)
Definition helloDeps : props :=
  [(js "hello", VFunction (js "hello() { return 'world'; }") [])].

(** [{ zDep() {...}, aDep() {...}, mDep() {...} }] *)
Definition zamDeps : props :=
  [(js "zDep", VFunction (js "zDep() { return 'zDepValue'; }") []);
   (js "aDep", VFunction (js "aDep() { return 'aDepValue'; }") []);
   (js "mDep", VFunction (js "mDep() { return 'mDepValue'; }") [])].

(** The same three dependencies written in alphabetical order. *)
Definition amzDeps : props :=
  [(js "aDep", VFunction (js "aDep() { return 'aDepValue'; }") []);
   (js "mDep", VFunction (js "mDep() { return 'mDepValue'; }") []);
   (js "zDep", VFunction (js "zDep() { return 'zDepValue'; }") [])].

(** [{ dep: { process(value) { return `slow:${value}`; } } }] and its
    faster replacement: the value of [dep] is an object. *)
Definition slowDeps : props :=
  [(js "dep",
    VObject [(js "process",
              VFunction (js "process(value) { return `slow:${value}`; }") [])])].
Definition fastDeps : props :=
  [(js "dep",
    VObject [(js "process",
              VFunction (js "process(value) { return `fast:${value}`; }") [])])].


Definition dashDeps : props := [(js "my-dep", VString (js "value"))].

(** [const customHasher = async (data) => 'fake-hash'] *)
Definition customHasher : hasher := fun _ => Ok (js "fake-hash").

(** The artifact and hash of a successful [create], or the empty artifact. *)
Definition artifact (r : result created) : created :=
  match r with Ok c => c | Throw _ => {| uri := []; hash := [] |} end.

(** [create('jsonEncoder', cenc.json-like encoder, { hello })] *)
Definition helloCreated : created :=
  Eval vm_compute in artifact (create (js "jsonEncoder") jsonEncoder helloDeps None).

(** [create('customEncoder', depEncoder, { dep: slow })] *)
Definition slowCreated : created :=
  Eval vm_compute in artifact (create (js "customEncoder") depEncoder slowDeps None).


(** [create('emptyEncoder', {})] *)
Definition emptyCreated : created :=
  Eval vm_compute in artifact (create (js "emptyEncoder") [] [] None).

(** [create('sortedEncoder', jsonEncoder, { zDep, aDep, mDep })] *)
Definition zamCreated : created :=
  Eval vm_compute in artifact (create (js "sortedEncoder") jsonEncoder zamDeps None).

Definition dashCreated : created :=
  Eval vm_compute in artifact (create (js "emptyEncoder") [] dashDeps None).

Definition evilName : jsstring :=
  js "a" ++ dquote ++ js ",evil:" ++ dquote ++ js "b".

Definition evilCreated : created :=
  Eval vm_compute in artifact (create evilName [] [] None).

(** [create('jsonEncoder', jsonEncoder, { hello }, customHasher)] *)
Definition fakeCreated : created :=
  Eval vm_compute in
    artifact (create (js "jsonEncoder") jsonEncoder helloDeps (Some customHasher)).

End Fixtures.

(* ================================================================== *)
(** * Properties *)

Unset Implicit Arguments.

Ltac Zify.zify_post_hook ::= Z.to_euclidean_division_equations.

(** ** Strings *)

Lemma jseqb_refl (a : jsstring) : jseqb a a = true.
Proof.
  induction a as [|x a IH]; simpl; [reflexivity|].
  now rewrite N.eqb_refl, IH.
Qed.

Lemma jseqb_eq (a b : jsstring) : jseqb a b = true <-> a = b.
Proof.
  split; [|intros ->; apply jseqb_refl].
  revert b; induction a as [|x a IH]; intros [|y b]; simpl; try discriminate; auto.
  intros H. apply andb_true_iff in H as [Hx Hab].
  apply N.eqb_eq in Hx. apply IH in Hab. now subst.
Qed.

Lemma jseqb_neq (a b : jsstring) : jseqb a b = false <-> a <> b.
Proof.
  rewrite <- jseqb_eq. destruct (jseqb a b); split; congruence.
Qed.

Lemma jseqb_sym (a b : jsstring) : jseqb a b = jseqb b a.
Proof.
  destruct (jseqb a b) eqn:E.
  - apply jseqb_eq in E. subst. symmetry. apply jseqb_refl.
  - symmetry. apply jseqb_neq. apply jseqb_neq in E. congruence.
Qed.

Lemma startsWith_app (p s : jsstring) : startsWith (p ++ s) p = true.
Proof.
  induction p as [|c p IH]; simpl; [reflexivity|].
  now rewrite N.eqb_refl, IH.
Qed.

Lemma startsWith_prefix (s p : jsstring) :
  startsWith s p = true -> exists r, s = p ++ r.
Proof.
  revert s; induction p as [|c p IH]; intros s H; simpl in *.
  - now exists s.
  - destruct s as [|d s]; [discriminate|].
    apply andb_true_iff in H as [Hc Hs]. apply N.eqb_eq in Hc. subst d.
    destruct (IH _ Hs) as [r ->]. now exists r.
Qed.

(** ** Base64 *)

Lemma list_ind3 (A : Type) (P : list A -> Prop) :
  P [] -> (forall a, P [a]) -> (forall a b, P [a; b]) ->
  (forall a b c r, P r -> P (a :: b :: c :: r)) ->
  forall l, P l.
Proof.
  intros H0 H1 H2 H3. fix IH 1.
  intros [|a [|b [|c r]]];
    [exact H0 | apply H1 | apply H2 | apply H3; apply IH].
Qed.

Module Base64Facts.
Import Base64.

Lemma idx_ch i : i < 64 -> idx (ch i) = Some i.
Proof.
  intros Hi. unfold ch.
  destruct (N.ltb_spec i 26);
    [|destruct (N.ltb_spec i 52);
      [|destruct (N.ltb_spec i 62); [|destruct (N.eqb_spec i 62)]]];
  unfold idx;
  repeat match goal with
  | |- context [?a <=? ?b] => destruct (N.leb_spec a b); try lia
  | |- context [?a =? ?b] => destruct (N.eqb_spec a b); try lia
  | |- _ => progress (cbn [andb orb])
  end; f_equal; lia.
Qed.

Lemma ch_not_pad i : i < 64 -> (ch i =? pad) = false.
Proof.
  intros Hi. unfold ch, pad. apply N.eqb_neq.
  destruct (N.ltb_spec i 26);
    [|destruct (N.ltb_spec i 52);
      [|destruct (N.ltb_spec i 62); [|destruct (N.eqb_spec i 62)]]]; lia.
Qed.

Lemma decode_group c1 c2 c3 c4 r :
  decode (c1 :: c2 :: c3 :: c4 :: r) =
  match idx c1, idx c2 with
  | Some i1, Some i2 =>
      if (c3 =? pad) && (c4 =? pad) && isNil r then Some [i1 * 4 + i2 / 16]
      else
        match idx c3 with
        | Some i3 =>
            if (c4 =? pad) && isNil r then
              Some [i1 * 4 + i2 / 16; (i2 mod 16) * 16 + i3 / 4]
            else
              match idx c4, decode r with
              | Some i4, Some rest =>
                  Some (i1 * 4 + i2 / 16 :: (i2 mod 16) * 16 + i3 / 4
                        :: (i3 mod 4) * 64 + i4 :: rest)
              | _, _ => None
              end
        | None => None
        end
  | _, _ => None
  end.
Proof. reflexivity. Qed.

(** Decoding undoes encoding on byte sequences. *)
Lemma decode_encode (l : list N) :
  Forall (fun c => c < 256) l -> decode (encode l) = Some l.
Proof.
  induction l as [|a|a b|a b c r IH] using list_ind3; intros Hl.
  - reflexivity.
  - inversion_clear Hl as [|? ? Ha _].
    cbn [encode]. rewrite decode_group.
    rewrite !idx_ch by lia. rewrite N.eqb_refl. cbn [andb isNil].
    f_equal. f_equal. lia.
  - inversion_clear Hl as [|? ? Ha Hl']. inversion_clear Hl' as [|? ? Hb _].
    cbn [encode]. rewrite decode_group.
    rewrite !idx_ch by lia. rewrite ch_not_pad by lia.
    rewrite N.eqb_refl. cbn [andb isNil].
    f_equal. f_equal; [lia|]. f_equal. lia.
  - inversion_clear Hl as [|? ? Ha Hl']. inversion_clear Hl' as [|? ? Hb Hl].
    inversion_clear Hl as [|? ? Hc Hr].
    cbn [encode]. rewrite decode_group.
    rewrite !idx_ch by lia. rewrite !ch_not_pad by lia. cbn [andb].
    rewrite IH by assumption.
    f_equal. f_equal; [lia|]. f_equal; [lia|]. f_equal. lia.
Qed.

End Base64Facts.

Lemma isLatin1_bytes (s : jsstring) :
  isLatin1 s = true -> Forall (fun c => c < 256) s.
Proof.
  unfold isLatin1. rewrite forallb_forall, Forall_forall.
  intros H c Hc. specialize (H c Hc). apply N.leb_le in H. lia.
Qed.

Lemma btoa_Ok (s : jsstring) :
  isLatin1 s = true -> btoa s = Ok (Base64.encode s).
Proof. intros H. unfold btoa. now rewrite H. Qed.

Lemma toDataUri_Ok (code : jsstring) :
  isLatin1 code = true ->
  toDataUri code = Ok (dataUriPrefix ++ Base64.encode code).
Proof. intros H. unfold toDataUri. now rewrite btoa_Ok. Qed.

Lemma toDataUri_inv (code u : jsstring) :
  toDataUri code = Ok u ->
  isLatin1 code = true /\ u = dataUriPrefix ++ Base64.encode code.
Proof.
  unfold toDataUri, btoa. destruct (isLatin1 code); simpl; [|discriminate].
  intros [= <-]. auto.
Qed.

(** C9 (as amended): for every module text whose code units all fit one byte,
    [toDataUri] returns the prefix [data:text/javascript;base64,] followed by
    the base64 text of the module, and base64-decoding that payload gives the
    module text back; for every other text [toDataUri] raises the
    InvalidCharacterError of [btoa] and there is no artifact. *)
Theorem toDataUri_roundtrip (x : jsstring) :
  toDataUri x = (if isLatin1 x then Ok (dataUriPrefix ++ Base64.encode x)
                 else Throw InvalidCharacterError)
  /\ (isLatin1 x = true -> atob (Base64.encode x) = Ok x).
Proof.
  split.
  - unfold toDataUri, btoa. now destruct (isLatin1 x).
  - intros H. unfold atob.
    now rewrite Base64Facts.decode_encode by now apply isLatin1_bytes.
Qed.

Lemma toDataUri_roundtrip_witness :
  atob (Base64.encode (js "export default 1")) = Ok (js "export default 1").
Proof.
  apply (proj2 (toDataUri_roundtrip (js "export default 1"))). reflexivity.
Defined.

(** C9 (as stated) fails: a module text holding the euro sign U+20AC, which is
    outside Latin-1, cannot be packed at all. *)
Lemma toDataUri_rejects_non_latin1 :
  toDataUri (js "export default '" ++ [8364] ++ js "'") = Throw InvalidCharacterError.
Proof. reflexivity. Qed.

(** ** [handleFunction] *)

Lemma sliceFrom_first (c : N) (p r : jsstring) :
  existsb (N.eqb c) p = false -> sliceFrom c (p ++ c :: r) = Some (c :: r).
Proof.
  induction p as [|d p IH]; simpl; intros H.
  - now rewrite N.eqb_refl.
  - apply orb_false_iff in H as [Hd Hp].
    rewrite N.eqb_sym, Hd. auto.
Qed.

Lemma sliceAtIndexOf_first (c : N) (p r : jsstring) :
  existsb (N.eqb c) p = false -> sliceAtIndexOf c (p ++ c :: r) = c :: r.
Proof. intros H. unfold sliceAtIndexOf. now rewrite sliceFrom_first. Qed.

(** The first occurrence of a code unit splits a string in one way only. *)
Lemma first_occurrence_unique (c : N) (a b x y : jsstring) :
  existsb (N.eqb c) a = false -> existsb (N.eqb c) b = false ->
  a ++ c :: x = b ++ c :: y -> a = b.
Proof.
  revert b; induction a as [|d a IH]; intros [|e b]; simpl; intros Ha Hb E.
  - reflexivity.
  - injection E as <- _. now rewrite N.eqb_refl in Hb.
  - injection E as -> _. now rewrite N.eqb_refl in Ha.
  - apply orb_false_iff in Ha as [_ Ha]. apply orb_false_iff in Hb as [_ Hb].
    injection E as <- E. f_equal. now apply IH.
Qed.

Lemma existsb_app_false (c : N) (a b : jsstring) :
  existsb (N.eqb c) a = false -> existsb (N.eqb c) b = false ->
  existsb (N.eqb c) (a ++ b) = false.
Proof. intros Ha Hb. now rewrite existsb_app, Ha, Hb. Qed.

Lemma startsWith_false_length (c : N) (a b x : jsstring) (s : jsstring) :
  existsb (N.eqb c) a = false -> existsb (N.eqb c) b = false ->
  List.length a <> List.length b ->
  s = b ++ c :: x ->
  startsWith s (a ++ [c]) = false.
Proof.
  intros Ha Hb Hlen ->. destruct (startsWith _ _) eqn:E; [|reflexivity].
  apply startsWith_prefix in E as [r E]. rewrite <- app_assoc in E. simpl in E.
  symmetry in E. apply first_occurrence_unique in E; auto. now subst.
Qed.

Section HandleFunction.
Variable name : jsstring.
Hypothesis noParen : existsb (N.eqb lparen) name = false.

Lemma handleFunction_shorthand (rest : jsstring) (sc : props) :
  handleFunction name (VFunction (name ++ js "(" ++ rest) sc)
  = name ++ js ": function " ++ name ++ js "(" ++ rest.
Proof.
  unfold handleFunction. cbn [toStringV].
  rewrite (app_assoc name (js "(") rest), startsWith_app. cbn [orb].
  rewrite <- app_assoc.
  change (js "(" ++ rest) with (lparen :: rest).
  now rewrite (sliceAtIndexOf_first lparen name rest noParen).
Qed.

Lemma handleFunction_shorthand_space (rest : jsstring) (sc : props) :
  handleFunction name (VFunction (name ++ js " (" ++ rest) sc)
  = name ++ js ": function " ++ name ++ js "(" ++ rest.
Proof.
  unfold handleFunction. cbn [toStringV].
  rewrite (app_assoc name (js " (") rest), startsWith_app, orb_true_r.
  rewrite <- app_assoc.
  change (name ++ js " (" ++ rest) with (name ++ [32] ++ lparen :: rest).
  rewrite (app_assoc name [32] (lparen :: rest)).
  rewrite (sliceAtIndexOf_first lparen (name ++ [32]) rest); [reflexivity|].
  now apply existsb_app_false.
Qed.

(** The text of a named function expression is not taken for a method. *)
Lemma handleFunction_named (rest : jsstring) (sc : props) :
  handleFunction name (VFunction (js "function " ++ name ++ js "(" ++ rest) sc)
  = name ++ js ": function " ++ name ++ js "(" ++ rest.
Proof.
  unfold handleFunction. cbn [toStringV].
  assert (E : js "function " ++ name ++ js "(" ++ rest
              = (js "function " ++ name) ++ lparen :: rest)
    by now rewrite <- app_assoc.
  assert (Hf : existsb (N.eqb lparen) (js "function " ++ name) = false)
    by now apply existsb_app_false.
  assert (H1 : startsWith (js "function " ++ name ++ js "(" ++ rest)
                          (name ++ js "(") = false).
  { apply (@startsWith_false_length lparen name (js "function " ++ name) rest);
      auto. rewrite length_app. simpl. lia. }
  assert (H2 : startsWith (js "function " ++ name ++ js "(" ++ rest)
                          (name ++ js " (") = false).
  { change (name ++ js " (") with (name ++ [32] ++ [lparen]).
    rewrite (app_assoc name [32] [lparen]).
    apply (@startsWith_false_length lparen (name ++ [32])
             (js "function " ++ name) rest); auto.
    - now apply existsb_app_false.
    - rewrite !length_app. simpl. lia. }
  now rewrite H1, H2.
Qed.

End HandleFunction.

Lemma handleFunction_verbatim (name : jsstring) (fn : value) :
  startsWith (toStringV fn) (name ++ js "(") = false ->
  startsWith (toStringV fn) (name ++ js " (") = false ->
  handleFunction name fn = name ++ js ": " ++ toStringV fn.
Proof. intros H1 H2. unfold handleFunction. now rewrite H1, H2. Qed.

Lemma handleFunction_sourceForm (name : jsstring) (fn : value) :
  handleFunction name fn = name ++ js ": " ++ sourceForm name fn.
Proof.
  unfold handleFunction, sourceForm.
  destruct (startsWith _ _ || startsWith _ _); reflexivity.
Qed.

(** The forms of [handleFunction].  A source text that begins with the
    property name followed by an opening parenthesis, with or without a space
    between them, is emitted as [name: function name] followed by the text
    from that parenthesis on, which is what a named function expression of
    that name yields; every other source text is emitted verbatim after
    [name: ].  The second case covers every source that begins with
    [function], [async] or a parenthesis when the name is [encode], [decode]
    or [preencode], and every source that begins with a parenthesis under any
    non-empty name that has no parenthesis in it. *)
Theorem handleFunction_forms (name : jsstring) :
  (existsb (N.eqb lparen) name = false ->
   forall rest sc sc',
     handleFunction name (VFunction (name ++ js "(" ++ rest) sc)
       = name ++ js ": function " ++ name ++ js "(" ++ rest
     /\ handleFunction name (VFunction (name ++ js " (" ++ rest) sc)
       = name ++ js ": function " ++ name ++ js "(" ++ rest
     /\ handleFunction name
          (VFunction (js "function " ++ name ++ js "(" ++ rest) sc')
       = name ++ js ": function " ++ name ++ js "(" ++ rest)
  /\ (forall fn,
        startsWith (toStringV fn) (name ++ js "(") = false ->
        startsWith (toStringV fn) (name ++ js " (") = false ->
        handleFunction name fn = name ++ js ": " ++ toStringV fn)
  /\ (In name capabilityNames ->
      forall src sc,
        startsWith src (js "function") = true
        \/ startsWith src (js "async") = true
        \/ startsWith src (js "(") = true ->
        handleFunction name (VFunction src sc) = name ++ js ": " ++ src)
  /\ (name <> [] -> existsb (N.eqb lparen) name = false ->
      forall src sc,
        startsWith src (js "(") = true ->
        handleFunction name (VFunction src sc) = name ++ js ": " ++ src).
Proof.
  split; [|split; [|split]].
  - intros Hn rest sc sc'. split; [|split].
    + now apply handleFunction_shorthand.
    + now apply handleFunction_shorthand_space.
    + now apply handleFunction_named.
  - apply handleFunction_verbatim.
  - intros Hin src sc Hsrc.
    apply handleFunction_verbatim; cbn [toStringV];
      destruct Hsrc as [H|[H|H]]; apply startsWith_prefix in H as [r ->];
      simpl in Hin; destruct Hin as [<-|[<-|[<-|[]]]]; reflexivity.
  - intros Hne Hn src sc H. apply startsWith_prefix in H as [r ->].
    destruct name as [|c n]; [congruence|].
    cbn [existsb] in Hn. apply orb_false_iff in Hn as [Hc _].
    apply N.eqb_neq in Hc.
    apply handleFunction_verbatim; cbn [toStringV];
      change (js "(" ++ r) with (lparen :: r); cbn [app startsWith];
      apply andb_false_intro1, N.eqb_neq; congruence.
Qed.

Lemma handleFunction_forms_witness :
  handleFunction (js "encode") (VFunction (js "encode(state, value) { }") [])
  = js "encode: function encode(state, value) { }"
  /\ handleFunction (js "hello") (VFunction (js "function (x) { }") [])
     = js "hello: function (x) { }"
  /\ handleFunction (js "decode") (VFunction (js "(state) => state.buffer") [])
     = js "decode: (state) => state.buffer"
  /\ handleFunction (js "hello") (VFunction (js "(x) => x") [])
     = js "hello: (x) => x".
Proof.
  split; [|split; [|split]].
  - apply (proj1 (handleFunction_forms (js "encode")) eq_refl
             (js "state, value) { }") [] []).
  - apply (proj1 (proj2 (handleFunction_forms (js "hello")))
             (VFunction (js "function (x) { }") [])); reflexivity.
  - apply (proj1 (proj2 (proj2 (handleFunction_forms (js "decode")))));
      [simpl; auto | right; right; reflexivity].
  - apply (proj2 (proj2 (proj2 (handleFunction_forms (js "hello")))));
      [discriminate | reflexivity | reflexivity].
Defined.

(** C5: the detection of shorthand methods misfires.  An async arrow
    function supplied as the dependency [async] begins with its own name
    followed by [ (]; it is an arrow function, which the comments of
    [handleFunction] say is returned as it is, and yet it is rewritten as if
    it were a shorthand method, into a text that is no JavaScript
    expression. *)
Lemma handleFunction_rewrites_arrow :
  handleFunction (js "async") (VFunction (js "async (x) => x") [])
  = js "async: function async(x) => x"
  /\ handleFunction (js "async") (VFunction (js "async (x) => x") [])
     <> js "async: " ++ js "async (x) => x".
Proof. split; [reflexivity|]. intros H. vm_compute in H. discriminate. Qed.

(** ** Sorting of keys *)

Lemma jsltb_irrefl (a : jsstring) : jsltb a a = false.
Proof.
  induction a as [|x a IH]; simpl; [reflexivity|].
  now rewrite N.ltb_irrefl, N.eqb_refl, IH.
Qed.

Lemma jsltb_trans (a b c : jsstring) :
  jsltb a b = true -> jsltb b c = true -> jsltb a c = true.
Proof.
  revert b c; induction a as [|x a IH]; intros [|y b] [|z c]; simpl;
    try discriminate; auto.
  intros H1 H2.
  apply orb_true_iff in H1 as [H1|H1]; apply orb_true_iff in H2 as [H2|H2];
    apply orb_true_iff;
    repeat match goal with
    | H : _ && _ = true |- _ => apply andb_true_iff in H as [? ?]
    | H : (_ <? _) = true |- _ => apply N.ltb_lt in H
    | H : (_ =? _) = true |- _ => apply N.eqb_eq in H
    end; subst.
  - left. apply N.ltb_lt. lia.
  - left. now apply N.ltb_lt.
  - left. now apply N.ltb_lt.
  - right. rewrite N.eqb_refl. simpl. eauto.
Qed.

Lemma jsltb_asym (a b : jsstring) : jsltb a b = true -> jsltb b a = false.
Proof.
  intros H. destruct (jsltb b a) eqn:E; [|reflexivity].
  pose proof (jsltb_trans _ _ _ H E) as F. now rewrite jsltb_irrefl in F.
Qed.

Lemma jsltb_total (a b : jsstring) :
  jsltb a b = false -> jsltb b a = false -> a = b.
Proof.
  revert b; induction a as [|x a IH]; intros [|y b]; simpl;
    try discriminate; auto.
  intros H1 H2.
  apply orb_false_iff in H1 as [H1 H1']. apply orb_false_iff in H2 as [H2 H2'].
  apply N.ltb_ge in H1, H2. assert (x = y) by lia. subst y.
  rewrite N.eqb_refl in H1', H2'. simpl in *. f_equal. auto.
Qed.

Lemma insertKey_comm (a b : jsstring) (l : list jsstring) :
  insertKey a (insertKey b l) = insertKey b (insertKey a l).
Proof.
  induction l as [|x r IH]; simpl.
  - destruct (jsltb a b) eqn:Eab, (jsltb b a) eqn:Eba; try reflexivity.
    + apply jsltb_asym in Eab. congruence.
    + now rewrite (jsltb_total _ _ Eab Eba).
  - destruct (jsltb b x) eqn:Ebx, (jsltb a x) eqn:Eax; simpl;
      rewrite ?Ebx, ?Eax.
    + destruct (jsltb a b) eqn:Eab, (jsltb b a) eqn:Eba; try reflexivity.
      * apply jsltb_asym in Eab. congruence.
      * now rewrite (jsltb_total _ _ Eab Eba).
    + destruct (jsltb a b) eqn:Eab; [|reflexivity].
      rewrite (jsltb_trans _ _ _ Eab Ebx) in Eax. discriminate.
    + destruct (jsltb b a) eqn:Eba; [|reflexivity].
      rewrite (jsltb_trans _ _ _ Eba Eax) in Ebx. discriminate.
    + now rewrite IH.
Qed.

(** The order of insertion does not matter to [sort()]. *)
Lemma sortKeys_perm (l l' : list jsstring) :
  Permutation l l' -> sortKeys l = sortKeys l'.
Proof.
  induction 1; simpl; try congruence.
  apply insertKey_comm.
Qed.

Lemma insertKey_Permutation (k : jsstring) (l : list jsstring) :
  Permutation (insertKey k l) (k :: l).
Proof.
  induction l as [|x r IH]; simpl; [reflexivity|].
  destruct (jsltb k x); [reflexivity|].
  rewrite IH. apply perm_swap.
Qed.

Lemma sortKeys_Permutation (l : list jsstring) : Permutation (sortKeys l) l.
Proof.
  induction l as [|k l IH]; simpl; [reflexivity|].
  rewrite insertKey_Permutation. now constructor.
Qed.

Lemma insertKey_Sorted (k : jsstring) (l : list jsstring) :
  Sorted jsle l -> Sorted jsle (insertKey k l).
Proof.
  induction 1 as [|x r Hr IH Hd]; simpl.
  - repeat constructor.
  - destruct (jsltb k x) eqn:E.
    + constructor; [now constructor|]. constructor. now apply jsltb_asym.
    + constructor; [exact IH|].
      destruct r as [|y r]; simpl.
      * constructor. exact E.
      * destruct (jsltb k y); constructor; [exact E|].
        now inversion Hd.
Qed.

Lemma sortKeys_Sorted (l : list jsstring) : Sorted jsle (sortKeys l).
Proof.
  induction l; simpl; [constructor|]. now apply insertKey_Sorted.
Qed.

(** ** Objects and dependency maps *)

Lemma existsb_jseqb_false (k : jsstring) (l : list jsstring) :
  existsb (jseqb k) l = false <-> ~ In k l.
Proof.
  induction l as [|x l IH]; simpl; [tauto|].
  rewrite orb_false_iff, IH, jseqb_neq. intuition congruence.
Qed.

Lemma distinct_NoDup (l : list jsstring) : distinct l = true <-> NoDup l.
Proof.
  induction l as [|x l IH]; simpl.
  - split; [constructor|reflexivity].
  - rewrite andb_true_iff, negb_true_iff, existsb_jseqb_false, IH.
    split; [intros []; now constructor|now inversion 1].
Qed.

Lemma lookup_None (k : jsstring) (o : props) :
  lookup k o = None <-> ~ In k (keys o).
Proof.
  induction o as [|[k' v] o IH]; simpl; [tauto|].
  destruct (jseqb k k') eqn:E.
  - apply jseqb_eq in E. subst. split; [discriminate|tauto].
  - apply jseqb_neq in E. rewrite IH. intuition congruence.
Qed.

Lemma lookup_In (k : jsstring) (v : value) (o : props) :
  distinct (keys o) = true -> (lookup k o = Some v <-> In (k, v) o).
Proof.
  induction o as [|[k' v'] o IH]; simpl; intros Hd.
  - split; [discriminate|tauto].
  - apply andb_true_iff in Hd as [Hk Hd]. apply negb_true_iff in Hk.
    apply existsb_jseqb_false in Hk.
    destruct (jseqb k k') eqn:E.
    + apply jseqb_eq in E. subst k'. split.
      * intros [= ->]. now left.
      * intros [[= ->]|Hin]; [reflexivity|].
        exfalso. apply Hk. now apply (in_map fst) in Hin.
    + apply jseqb_neq in E. rewrite (IH Hd).
      split; [tauto|]. intros [[= -> ->]|Hin]; [congruence|exact Hin].
Qed.

(** Two objects with the same properties in different orders answer every
    property read alike. *)
Lemma get_Permutation (o o' : props) (k : jsstring) :
  distinct (keys o) = true -> Permutation o o' -> get o k = get o' k.
Proof.
  intros Hd Hp. unfold get.
  assert (Hd' : distinct (keys o') = true).
  { apply distinct_NoDup. apply distinct_NoDup in Hd.
    unfold keys. now rewrite <- Hp. }
  destruct (lookup k o) as [v|] eqn:E.
  - apply lookup_In in E; [|exact Hd].
    rewrite Hp in E. apply lookup_In in E; [|exact Hd']. now rewrite E.
  - destruct (lookup k o') as [v|] eqn:E'; [|reflexivity].
    apply lookup_In in E'; [|exact Hd'].
    rewrite <- Hp in E'. apply lookup_In in E'; [|exact Hd]. congruence.
Qed.

Lemma sortedValues_Permutation (o o' : props) :
  distinct (keys o) = true -> Permutation o o' ->
  sortKeys (keys o) = sortKeys (keys o') /\ sortedValues o = sortedValues o'.
Proof.
  intros Hd Hp.
  assert (E : sortKeys (keys o) = sortKeys (keys o')).
  { apply sortKeys_perm. unfold keys. now apply Permutation_map. }
  split; [exact E|]. unfold sortedValues. rewrite <- E.
  apply map_ext. intros k. now apply get_Permutation.
Qed.

(** ** The serialiser *)

Lemma generateFunctionsString_eq (enc : value) (d : props) :
  generateFunctionsString enc d =
  (encode <- getProp enc (js "encode") ;;
   decode <- getProp enc (js "decode") ;;
   preencode <- getProp enc (js "preencode") ;;
   Ok (canonicalText encode decode preencode (depStrings d))).
Proof. reflexivity. Qed.

Lemma generateFunctionsString_object (o d : props) :
  generateFunctionsString (VObject o) d =
  Ok (canonicalText (get o (js "encode")) (get o (js "decode"))
                    (get o (js "preencode")) (depStrings d)).
Proof. reflexivity. Qed.

Lemma generateFunctionsString_depStrings (enc : value) (d d' : props) :
  depStrings d = depStrings d' ->
  generateFunctionsString enc d = generateFunctionsString enc d'.
Proof. intros E. rewrite !generateFunctionsString_eq. now rewrite E. Qed.

Lemma handleFunction_ext (k : jsstring) (v v' : value) :
  toStringV v = toStringV v' -> handleFunction k v = handleFunction k v'.
Proof. intros E. unfold handleFunction. now rewrite E. Qed.

Lemma sameSignature_get (d d' : props) :
  sameSignature d d' = true ->
  keys d = keys d'
  /\ forall k, isFunction (get d k) = isFunction (get d' k)
               /\ (isFunction (get d k) = true ->
                   toStringV (get d k) = toStringV (get d' k)).
Proof.
  revert d'; induction d as [|[k v] d IH]; intros [|[k' v'] d']; simpl;
    try discriminate.
  - intros _. split; [reflexivity|]. intros k. now split.
  - intros H. apply andb_true_iff in H as [H Hr].
    apply andb_true_iff in H as [Hk Hv]. apply jseqb_eq in Hk. subst k'.
    destruct (IH _ Hr) as [Ek Eg]. split; [now rewrite Ek|].
    intros q. unfold get in *. simpl. destruct (jseqb q k); [|apply Eg].
    destruct v, v'; try discriminate; simpl;
      try (split; [reflexivity|discriminate]).
    apply jseqb_eq in Hv. now subst.
Qed.

Lemma depStrings_sameSignature (d d' : props) :
  sameSignature d d' = true -> depStrings d = depStrings d'.
Proof.
  intros H. destruct (sameSignature_get _ _ H) as [Ek Eg].
  unfold depStrings. rewrite <- Ek.
  rewrite (filter_ext _ (fun k => isFunction (get d' k)))
    by (intros k; apply Eg).
  apply map_ext_in. intros k Hk. apply filter_In in Hk as [_ Hk].
  apply handleFunction_ext. apply Eg. now rewrite (proj1 (Eg k)).
Qed.

Lemma generateHash_sameSignature (enc : value) (d d' : props) (h : option hasher) :
  sameSignature d d' = true -> generateHash enc d h = generateHash enc d' h.
Proof.
  intros H. unfold generateHash.
  now rewrite (generateFunctionsString_depStrings enc _ _
                 (depStrings_sameSignature _ _ H)).
Qed.

Lemma get_here (k : jsstring) (v : value) (o : props) :
  get ((k, v) :: o) k = v.
Proof. unfold get. simpl. now rewrite jseqb_refl. Qed.

Lemma get_later (k k' : jsstring) (v : value) (o : props) :
  k <> k' -> get ((k', v) :: o) k = get o k.
Proof. intros H. unfold get. simpl. apply jseqb_neq in H. now rewrite H. Qed.

(** With distinct keys, the dependency strings are those of the callable
    entries, in enumeration order. *)
Lemma depStrings_callableEntries (d : props) :
  distinct (keys d) = true ->
  depStrings d
  = map (fun kv => handleFunction (fst kv) (snd kv)) (callableEntries d).
Proof.
  unfold depStrings, callableEntries.
  induction d as [|[k v] d IH]; simpl; intros Hd; [reflexivity|].
  apply andb_true_iff in Hd as [Hk Hd]. apply negb_true_iff in Hk.
  rewrite existsb_jseqb_false in Hk.
  rewrite get_here.
  assert (E : forall q, In q (keys d) -> get ((k, v) :: d) q = get d q).
  { intros q Hq. apply get_later. congruence. }
  rewrite (filter_ext_in _ (fun q => isFunction (get d q)))
    by (intros q Hq; now rewrite E).
  assert (E' : map (fun q => handleFunction q (get ((k, v) :: d) q))
                   (filter (fun q => isFunction (get d q)) (keys d))
               = map (fun q => handleFunction q (get d q))
                   (filter (fun q => isFunction (get d q)) (keys d))).
  { apply map_ext_in. intros q Hq. apply filter_In in Hq as [Hq _].
    now rewrite E. }
  destruct (isFunction v); simpl; rewrite ?get_here, E', IH; auto.
Qed.

Lemma distinct_callableEntries (d : props) :
  distinct (keys d) = true -> distinct (keys (callableEntries d)) = true.
Proof.
  rewrite !distinct_NoDup. unfold keys, callableEntries.
  induction d as [|[k v] d IH]; simpl; intros Hd; [constructor|].
  inversion_clear Hd as [|? ? Hk Hd'].
  destruct (isFunction v); simpl; auto.
  constructor; auto. intros Hin. apply Hk.
  apply in_map_iff in Hin as [[k' v'] [E Hin]]. simpl in E. subst k'.
  apply filter_In in Hin as [Hin _]. now apply (in_map fst) in Hin.
Qed.

Lemma callableEntries_idem (d : props) :
  callableEntries (callableEntries d) = callableEntries d.
Proof.
  unfold callableEntries. induction d as [|[k v] d IH]; simpl; [reflexivity|].
  destruct (isFunction v) eqn:E; simpl; rewrite ?E, IH; reflexivity.
Qed.

Lemma canonicalText_join (e d p : value) (ds : list jsstring) :
  canonicalText e d p ds
  = join (js "," ++ nl)
      (filter nonEmpty
         ([ if truthy e then handleFunction (js "encode") e else [];
            if truthy d then handleFunction (js "decode") d else [];
            if truthy p then handleFunction (js "preencode") p else [] ] ++ ds)).
Proof.
  unfold canonicalText. destruct (filter nonEmpty _); reflexivity.
Qed.

Lemma handleFunction_nonEmpty (k : jsstring) (v : value) :
  nonEmpty (handleFunction k v) = true.
Proof. rewrite handleFunction_sourceForm. now destruct k. Qed.

(** ** Runs of [load] *)

(** A call that gets as far as the comparison of the two hashes. *)
Lemma load_run (P : Platform) (dataUri expectedHash : jsstring)
      (x : hasherOrDepsArg) (deps4 : option props)
      (h : hasher) (deps : props) (f : factory) (enc : value)
      (computed : jsstring) :
  resolveArgs x deps4 = (h, Some deps) ->
  import_ P dataUri = Ok (Some f) ->
  f (cenc P :: b4a P :: sortedValues deps) = Ok enc ->
  generateHash enc deps (Some h) = Ok computed ->
  load P dataUri expectedHash x deps4
  = ([EvImport dataUri;
      EvInvoke (cenc P :: b4a P :: sortedValues deps);
      EvGenerateHash enc deps],
     if jseqb computed expectedHash then Ok (cenc_from P enc)
     else Throw hashMismatch).
Proof.
  intros Hr Hi Hf Hh. unfold load. rewrite Hr, Hi. simpl.
  rewrite Hf. simpl. rewrite Hh. simpl.
  now destruct (jseqb computed expectedHash).
Qed.

(** A call whose import succeeds calls the factory with the two externals
    and the dependency values in key order. *)
Lemma load_invokes (P : Platform) (dataUri expectedHash : jsstring)
      (x : hasherOrDepsArg) (deps4 : option props)
      (h : hasher) (deps : props) (f : factory) :
  resolveArgs x deps4 = (h, Some deps) ->
  import_ P dataUri = Ok (Some f) ->
  exists t r,
    load P dataUri expectedHash x deps4
    = (EvImport dataUri :: EvInvoke (cenc P :: b4a P :: sortedValues deps) :: t,
       r).
Proof.
  intros Hr Hi. unfold load. rewrite Hr, Hi. simpl.
  destruct (f _) as [enc|e]; simpl; [|eauto].
  destruct (generateHash _ _ _) as [c|e]; simpl; [|eauto].
  destruct (negb _); simpl; eauto.
Qed.


(** ** Test vectors and the test suite on the reference engine *)

Import Fixtures.

Example sha256_empty :
  defaultHasher (utf8 [])
  = Ok (js "e3b0c44298fc1c149afbf4c8996fb92427ae41e4649b934ca495991b7852b855").
Proof. vm_compute. reflexivity. Qed.

Example sha256_abc :
  defaultHasher (utf8 (js "abc"))
  = Ok (js "ba7816bf8f01cfea414140de5dae2223b00361a396177a9cb410ff61f20015ad").
Proof. vm_compute. reflexivity. Qed.

Example sha256_two_blocks :
  defaultHasher
    (utf8 (js "abcdbcdecdefdefgefghfghighijhijkijkljklmklmnlmnomnopnopq"))
  = Ok (js "248d6a61d20638b8e5c026930c3e6039a33ce45964ff2167f6ecedd419db06c1").
Proof. vm_compute. reflexivity. Qed.

Example utf8_euro_and_pair :
  utf8 [233; 8364; 55357; 56832] = [195; 169; 226; 130; 172; 240; 159; 152; 128].
Proof. reflexivity. Qed.

Example btoa_padding :
  btoa (js "Man is") = Ok (js "TWFuIGlz")
  /\ btoa (js "Ma") = Ok (js "TWE=") /\ btoa (js "M") = Ok (js "TQ==").
Proof. repeat split. Qed.

(** Reading bytes as UTF-8: well-formed sequences, a byte that cannot go on
    a sequence, an overlong form, a sequence cut short, a byte order mark. *)
Example utf8Decode_cases :
  RefEngine.utf8Decode [195; 169; 226; 130; 172; 240; 159; 152; 128]
  = [233; 8364; 55357; 56832]
  /\ RefEngine.utf8Decode [99; 97; 102; 233; 39] = [99; 97; 102; 65533; 39]
  /\ RefEngine.utf8Decode [192; 128] = [65533; 65533]
  /\ RefEngine.utf8Decode [240; 159; 152] = [65533]
  /\ RefEngine.utf8Decode [239; 187; 191; 97] = [97].
Proof. repeat split. Qed.

(** A capability that is zero, [false] or [NaN] is skipped like an absent
    one; any other number is written with its text. *)
Example falsy_capabilities :
  generateFunctionsString
    (VObject [(js "encode", VNumber (js "0")); (js "decode", VBoolean false);
              (js "preencode", VNumber (js "NaN"))]) [] = Ok []
  /\ generateFunctionsString (VObject [(js "encode", VNumber (js "1"))]) []
     = Ok (js "encode: 1").
Proof. split; reflexivity. Qed.

(** What the reference engine takes for a function: arrow functions, also
    with [async]; a method in shorthand is not an expression. *)
Example parseExpr_cases :
  RefEngine.parseExpr (js "(x) => x") = Ok (EFunction (js "(x) => x"))
  /\ RefEngine.parseExpr (js "async (x) => x")
     = Ok (EFunction (js "async (x) => x"))
  /\ RefEngine.parseExpr (js "x => x") = Ok (EFunction (js "x => x"))
  /\ RefEngine.parseExpr (js "async encode(x) { return y => y }")
     = RefEngine.syntaxError
  /\ RefEngine.parseExpr (js "encode(x) { return y => y }")
     = RefEngine.syntaxError.
Proof. repeat split. Qed.

Example create_jsonEncoder_hello :
  create (js "jsonEncoder") jsonEncoder helloDeps None = Ok helloCreated.
Proof. vm_compute. reflexivity. Qed.

Example load_jsonEncoder_hello :
  exists o,
    outcome (load RefEngine.platform (uri helloCreated) (hash helloCreated)
                  (AObject helloDeps) None) = Ok (VObject o)
    /\ toStringV (get o (js "hello")) = js "function hello() { return 'world'; }".
Proof. eexists. split; vm_compute; reflexivity. Qed.

Example load_mismatched_hash :
  outcome (load RefEngine.platform (uri helloCreated) (js "invalid-hash")
                (AObject helloDeps) None) = Throw hashMismatch.
Proof. vm_compute. reflexivity. Qed.

Example load_sorted_dependencies :
  exists o,
    outcome (load RefEngine.platform (uri zamCreated) (hash zamCreated)
                  (AObject zamDeps) None) = Ok (VObject o)
    /\ map (fun k => toStringV (get o k)) [js "aDep"; js "mDep"; js "zDep"]
       = [js "function aDep() { return 'aDepValue'; }";
          js "function mDep() { return 'mDepValue'; }";
          js "function zDep() { return 'zDepValue'; }"].
Proof. eexists. split; vm_compute; reflexivity. Qed.

Example load_shorthand_and_arrow :
  exists c o,
    create (js "shorthandEncoder") shorthandEncoder [] None = Ok c
    /\ outcome (load RefEngine.platform (uri c) (hash c) (AObject []) None)
       = Ok (VObject o)
    /\ truthy (get o (js "encode")) = true
    /\ truthy (get o (js "decode")) = true.
Proof.
  do 2 eexists. split; [vm_compute; reflexivity|].
  split; [vm_compute; reflexivity|]. split; vm_compute; reflexivity.
Qed.

Example load_empty_encoder :
  exists o,
    outcome (load RefEngine.platform (uri emptyCreated) (hash emptyCreated)
                  Omitted None) = Ok o
    /\ truthy o = true.
Proof. eexists. split; vm_compute; reflexivity. Qed.

Example load_invalid_data_uri :
  exists msg,
    outcome (load RefEngine.platform (js "data:text/javascript;base64,invalidUri")
                  (js "invalidHash") Omitted None) = Throw (SyntaxError msg).
Proof. eexists. vm_compute. reflexivity. Qed.

(** ** The claims about the loader *)



(** C6: the canonical text holds the callable dependency entries only, so
    that the hash is the same for any two dependency maps that differ in
    non-callable values; and a call of [load] whose import succeeds passes
    the value of every key, callable or not, to the factory after the two
    externals, in the sorted order of the keys. *)
Theorem noncallable_excluded_but_injected (P : Platform) (enc : value)
        (deps : props) :
  (distinct (keys deps) = true ->
   depStrings deps
     = map (fun kv => handleFunction (fst kv) (snd kv)) (callableEntries deps)
   /\ generateFunctionsString enc deps
     = generateFunctionsString enc (callableEntries deps)
   /\ forall h, generateHash enc deps h = generateHash enc (callableEntries deps) h)
  /\ (forall deps' h,
         sameSignature deps deps' = true ->
         generateHash enc deps h = generateHash enc deps' h)
  /\ (forall dataUri expectedHash x deps4 h f,
         resolveArgs x deps4 = (h, Some deps) ->
         import_ P dataUri = Ok (Some f) ->
         Sorted jsle (sortKeys (keys deps))
         /\ Permutation (sortKeys (keys deps)) (keys deps)
         /\ In (EvInvoke (cenc P :: b4a P
                          :: map (get deps) (sortKeys (keys deps))))
               (trace (load P dataUri expectedHash x deps4))).
Proof.
  split; [|split].
  - intros Hd.
    assert (E : depStrings deps = depStrings (callableEntries deps)).
    { rewrite (depStrings_callableEntries _ Hd).
      rewrite (depStrings_callableEntries _ (distinct_callableEntries _ Hd)).
      now rewrite callableEntries_idem. }
    split; [now apply depStrings_callableEntries|].
    split; [now apply generateFunctionsString_depStrings|].
    intros h. unfold generateHash.
    now rewrite (generateFunctionsString_depStrings enc _ _ E).
  - intros deps' h H. now apply generateHash_sameSignature.
  - intros dataUri expectedHash x deps4 h f Hr Hi.
    split; [apply sortKeys_Sorted|]. split; [apply sortKeys_Permutation|].
    destruct (load_invokes P dataUri expectedHash x deps4 _ _ _ Hr Hi) as (t & r & E).
    rewrite E. unfold trace; cbn [fst]. right. left. reflexivity.
Qed.

Lemma noncallable_excluded_but_injected_witness :
  generateFunctionsString (VObject jsonEncoder) (helloDeps ++ dashDeps)
  = generateFunctionsString (VObject jsonEncoder)
                            (callableEntries (helloDeps ++ dashDeps))
  /\ generateHash (VObject depEncoder) slowDeps None
     = generateHash (VObject depEncoder) fastDeps None
  /\ In (EvInvoke [cenc RefEngine.platform; b4a RefEngine.platform;
                   get fastDeps (js "dep")])
        (trace (load RefEngine.platform (uri slowCreated) (hash slowCreated)
                     (AObject fastDeps) None)).
Proof.
  split; [|split].
  - apply (proj1 (noncallable_excluded_but_injected RefEngine.platform
                    (VObject jsonEncoder) (helloDeps ++ dashDeps)) eq_refl).
  - apply (proj1 (proj2 (noncallable_excluded_but_injected
                           RefEngine.platform (VObject depEncoder) slowDeps))).
    reflexivity.
  - refine (proj2 (proj2 (proj2 (proj2 (noncallable_excluded_but_injected
                           RefEngine.platform VUndefined fastDeps))
                     (uri slowCreated) (hash slowCreated) (AObject fastDeps)
                     None defaultHasher _ eq_refl _))).
    vm_compute. reflexivity.
Defined.

(** A call whose import and factory call succeed, by the hasher and the
    dependency map that [load] settles on: the hasher is applied to the UTF-8
    bytes of the canonical text of the loaded object under that map. *)
Lemma load_text (P : Platform) (dataUri expectedHash : jsstring)
      (x : hasherOrDepsArg) (deps4 : option props)
      (h : hasher) (deps : props) (f : factory) (enc : value)
      (text : jsstring) :
  resolveArgs x deps4 = (h, Some deps) ->
  import_ P dataUri = Ok (Some f) ->
  f (cenc P :: b4a P :: sortedValues deps) = Ok enc ->
  generateFunctionsString enc deps = Ok text ->
  load P dataUri expectedHash x deps4
  = ([EvImport dataUri;
      EvInvoke (cenc P :: b4a P :: sortedValues deps);
      EvGenerateHash enc deps],
     match h (utf8 text) with
     | Ok computed =>
         if jseqb computed expectedHash then Ok (cenc_from P enc)
         else Throw hashMismatch
     | Throw e => Throw e
     end).
Proof.
  intros Hr Hi Hf Ht. unfold load. rewrite Hr, Hi. simpl. rewrite Hf. simpl.
  unfold generateHash. rewrite Ht. cbn [bind].
  destruct (h (utf8 text)) as [computed|e]; simpl; [|reflexivity].
  now destruct (jseqb computed expectedHash).
Qed.

(** C7: in a call [load(artifact, expectedHash, X, D)] a callable [X] is the
    hasher and [D], the empty map when it is absent, is the dependency map;
    an object [X] is the dependency map, whatever [D] is, and the default
    hasher is used.  Both are stated of what [load] does when the import
    succeeds: the values the factory is called with, the map the hash of the
    loaded object is taken with, and the hasher whose result is compared with
    the expected hash.  An absent third argument stands for the default
    hasher. *)
Theorem load_third_parameter (P : Platform) (dataUri expectedHash : jsstring)
        (deps4 : option props) (f : factory) :
  import_ P dataUri = Ok (Some f) ->
  (forall (X : hasher) (enc : value) (text : jsstring),
      let D := match deps4 with Some d => d | None => [] end in
      f (cenc P :: b4a P :: sortedValues D) = Ok enc ->
      generateFunctionsString enc D = Ok text ->
      load P dataUri expectedHash (AFunction X) deps4
      = ([EvImport dataUri;
          EvInvoke (cenc P :: b4a P :: sortedValues D);
          EvGenerateHash enc D],
         match X (utf8 text) with
         | Ok computed =>
             if jseqb computed expectedHash then Ok (cenc_from P enc)
             else Throw hashMismatch
         | Throw e => Throw e
         end))
  /\ (forall (X : props) (enc : value) (text : jsstring),
         f (cenc P :: b4a P :: sortedValues X) = Ok enc ->
         generateFunctionsString enc X = Ok text ->
         load P dataUri expectedHash (AObject X) deps4
         = ([EvImport dataUri;
             EvInvoke (cenc P :: b4a P :: sortedValues X);
             EvGenerateHash enc X],
            match defaultHasher (utf8 text) with
            | Ok computed =>
                if jseqb computed expectedHash then Ok (cenc_from P enc)
                else Throw hashMismatch
            | Throw e => Throw e
            end))
  /\ load P dataUri expectedHash Omitted deps4
     = load P dataUri expectedHash (AFunction defaultHasher) deps4.
Proof.
  intros Hi. split; [|split].
  - intros X enc text D Hf Ht.
    exact (load_text P dataUri expectedHash (AFunction X) deps4 X D f enc text
             eq_refl Hi Hf Ht).
  - intros X enc text Hf Ht.
    exact (load_text P dataUri expectedHash (AObject X) deps4 defaultHasher X
             f enc text eq_refl Hi Hf Ht).
  - reflexivity.
Qed.

(** The artifact created with the hasher of the tests, which answers
    [fake-hash] to everything: loaded with that hasher as third argument it is
    accepted, the dependency map being the fourth argument; loaded with the
    dependency map as third argument it is checked with the default hasher
    and rejected. *)
Lemma load_third_parameter_witness :
  load RefEngine.platform (uri fakeCreated) (js "fake-hash")
       (AFunction customHasher) (Some helloDeps)
  = ([EvImport (uri fakeCreated);
      EvInvoke (cenc RefEngine.platform :: b4a RefEngine.platform
                :: sortedValues helloDeps);
      EvGenerateHash
        (loadedEncoder RefEngine.platform (js "jsonEncoder") jsonEncoder
                       helloDeps (js "fake-hash") helloDeps) helloDeps],
     Ok (cenc_from RefEngine.platform
           (loadedEncoder RefEngine.platform (js "jsonEncoder") jsonEncoder
                          helloDeps (js "fake-hash") helloDeps)))
  /\ outcome (load RefEngine.platform (uri fakeCreated) (js "fake-hash")
                   (AObject helloDeps) None)
     = Throw hashMismatch.
Proof.
  assert (Hi : import_ RefEngine.platform (uri fakeCreated)
               = Ok (Some (fun args =>
                             Ok (instantiate
                                   (createdModule (js "jsonEncoder") jsonEncoder
                                                  helloDeps (js "fake-hash"))
                                   args))))
    by (vm_compute; reflexivity).
  destruct (load_third_parameter RefEngine.platform (uri fakeCreated)
              (js "fake-hash") (Some helloDeps) _ Hi) as (Hfun & _ & _).
  destruct (load_third_parameter RefEngine.platform (uri fakeCreated)
              (js "fake-hash") None _ Hi) as (_ & Hobj & _).
  split.
  - refine (Hfun customHasher _ (functionsString jsonEncoder helloDeps) eq_refl _).
    vm_compute. reflexivity.
  - rewrite (Hobj helloDeps _ (functionsString jsonEncoder helloDeps) eq_refl);
      [vm_compute; reflexivity|].
    vm_compute. reflexivity.
Defined.

(** A third argument that is neither callable nor an object, such as a
    string, is outside what the parameter is documented to take; it is
    ignored, and the fourth argument is the dependency map. *)
Lemma load_ignores_primitive_third_argument :
  resolveArgs (APrimitive (js "hello")) (Some helloDeps)
  = (defaultHasher, Some helloDeps)
  /\ trace (load RefEngine.platform (uri helloCreated) (hash helloCreated)
                 (APrimitive (js "hello")) (Some helloDeps))
     = [EvImport (uri helloCreated);
        EvInvoke [cenc RefEngine.platform; b4a RefEngine.platform;
                  get helloDeps (js "hello")];
        EvGenerateHash
          (instantiate (createdModule (js "jsonEncoder") jsonEncoder helloDeps
                                      (hash helloCreated))
                       [cenc RefEngine.platform; b4a RefEngine.platform;
                        get helloDeps (js "hello")])
          helloDeps].
Proof. split; [reflexivity|]. vm_compute. reflexivity. Qed.

(** C10: in every call of [load] that gets to compare the hashes, the module
    text has been evaluated by [import] and its factory has been called before
    the hash of the result is taken, whether or not the expected hash matches:
    a mismatch ends in the [hash mismatch] error after both events, and the
    events of a call do not depend on the expected hash at all.  In any call,
    taking the hash is preceded by the import and the call of the factory. *)
Theorem load_evaluates_before_verifying (P : Platform)
        (dataUri expectedHash : jsstring) (x : hasherOrDepsArg)
        (deps4 : option props) :
  (forall h deps f enc computed,
      resolveArgs x deps4 = (h, Some deps) ->
      import_ P dataUri = Ok (Some f) ->
      f (cenc P :: b4a P :: sortedValues deps) = Ok enc ->
      generateHash enc deps (Some h) = Ok computed ->
      trace (load P dataUri expectedHash x deps4)
      = [EvImport dataUri;
         EvInvoke (cenc P :: b4a P :: sortedValues deps);
         EvGenerateHash enc deps]
      /\ (computed <> expectedHash ->
          outcome (load P dataUri expectedHash x deps4) = Throw hashMismatch))
  /\ (forall expectedHash',
         trace (load P dataUri expectedHash' x deps4)
         = trace (load P dataUri expectedHash x deps4))
  /\ (forall enc deps,
         In (EvGenerateHash enc deps) (trace (load P dataUri expectedHash x deps4)) ->
         exists args,
           trace (load P dataUri expectedHash x deps4)
           = [EvImport dataUri; EvInvoke args; EvGenerateHash enc deps]).
Proof.
  split; [|split].
  - intros h deps f enc computed Hr Hi Hf Hh.
    rewrite (load_run P dataUri expectedHash x deps4 _ _ _ _ _ Hr Hi Hf Hh).
    split; [reflexivity|]. intros Hne. apply jseqb_neq in Hne.
    unfold outcome; cbn [snd]. now rewrite Hne.
  - intros e'. unfold load, trace.
    destruct (resolveArgs x deps4) as [h [deps|]]; [|reflexivity].
    destruct (import_ P dataUri) as [[f|]|e]; simpl; try reflexivity.
    destruct (f _) as [enc|e]; simpl; [|reflexivity].
    destruct (generateHash _ _ _) as [c|e]; simpl; [|reflexivity].
    now destruct (jseqb c e'), (jseqb c expectedHash).
  - intros enc deps. unfold load, trace.
    destruct (resolveArgs x deps4) as [h [d|]]; [|intros []].
    destruct (import_ P dataUri) as [[f|]|e]; simpl;
      try (intros [H|[]]; discriminate); try (intros []).
    destruct (f _) as [enc'|e]; simpl;
      [|intros [H|[H|[]]]; discriminate].
    destruct (generateHash _ _ _) as [c|e]; simpl.
    + destruct (negb _); simpl;
        intros [H|[H|[H|[]]]]; try discriminate;
        injection H as <- <-; eauto.
    + intros [H|[H|[H|[]]]]; try discriminate.
      injection H as <- <-; eauto.
Qed.

Lemma load_evaluates_before_verifying_witness :
  trace (load RefEngine.platform (uri helloCreated) (js "invalid-hash")
              (AObject helloDeps) None)
  = [EvImport (uri helloCreated);
     EvInvoke (cenc RefEngine.platform :: b4a RefEngine.platform
               :: sortedValues helloDeps);
     EvGenerateHash
       (loadedEncoder RefEngine.platform (js "jsonEncoder") jsonEncoder
                      helloDeps (hash helloCreated) helloDeps)
       helloDeps]
  /\ outcome (load RefEngine.platform (uri helloCreated) (js "invalid-hash")
                   (AObject helloDeps) None) = Throw hashMismatch
  /\ exists args,
      trace (load RefEngine.platform (uri helloCreated) (js "invalid-hash")
                  (AObject helloDeps) None)
      = [EvImport (uri helloCreated); EvInvoke args;
         EvGenerateHash
           (loadedEncoder RefEngine.platform (js "jsonEncoder") jsonEncoder
                          helloDeps (hash helloCreated) helloDeps)
           helloDeps].
Proof.
  destruct (proj1 (load_evaluates_before_verifying RefEngine.platform
                     (uri helloCreated) (js "invalid-hash") (AObject helloDeps)
                     None)
              defaultHasher helloDeps
              (fun args => Ok (instantiate
                                 (createdModule (js "jsonEncoder") jsonEncoder
                                                helloDeps (hash helloCreated))
                                 args))
              (loadedEncoder RefEngine.platform (js "jsonEncoder") jsonEncoder
                             helloDeps (hash helloCreated) helloDeps)
              (hash helloCreated))
    as [Ht Ho].
  - reflexivity.
  - vm_compute. reflexivity.
  - reflexivity.
  - vm_compute. reflexivity.
  - split; [exact Ht|]. split; [apply Ho; vm_compute; discriminate|].
    apply (proj2 (proj2 (load_evaluates_before_verifying RefEngine.platform
                           (uri helloCreated) (js "invalid-hash")
                           (AObject helloDeps) None))).
    rewrite Ht. right. right. left. reflexivity.
Defined.

(** ** Object literals and the scope of a factory call *)

Lemma lookup_app (k : jsstring) (a b : props) :
  lookup k (a ++ b)
  = match lookup k a with Some v => Some v | None => lookup k b end.
Proof.
  induction a as [|[k' v] a IH]; simpl; [reflexivity|].
  now destruct (jseqb k k').
Qed.

Lemma lookup_setProp (k q : jsstring) (v : value) (o : props) :
  lookup k (setProp q v o) = if jseqb k q then Some v else lookup k o.
Proof.
  induction o as [|[k' v'] o IH]; simpl.
  - reflexivity.
  - destruct (jseqb q k') eqn:E; simpl.
    + apply jseqb_eq in E. subst k'. now destruct (jseqb k q).
    + rewrite IH. destruct (jseqb k k') eqn:E'; [|reflexivity].
      apply jseqb_eq in E'. subst k'. rewrite jseqb_sym in E. now rewrite E.
Qed.

Lemma lookup_fold_setProp (k : jsstring) (es o : props) :
  lookup k (fold_left (fun o kv => setProp (fst kv) (snd kv) o) es o)
  = match lookup k (rev es) with Some v => Some v | None => lookup k o end.
Proof.
  revert o; induction es as [|[q v] es IH]; intros o; simpl; [reflexivity|].
  rewrite IH, lookup_app, lookup_setProp. simpl.
  destruct (lookup k (rev es)); [reflexivity|]. now destruct (jseqb k q).
Qed.

(** Reading a property of an object literal finds its last initialiser. *)
Lemma lookup_objectLiteral (k : jsstring) (es : props) :
  lookup k (objectLiteral es) = lookup k (rev es).
Proof.
  unfold objectLiteral. rewrite lookup_fold_setProp. simpl.
  now destruct (lookup k (rev es)).
Qed.

Lemma lookup_rev_None (k : jsstring) (es : props) :
  ~ In k (keys es) -> lookup k (rev es) = None.
Proof.
  intros H. apply lookup_None. unfold keys. rewrite map_rev, <- in_rev. exact H.
Qed.


Lemma keys_objectLiteral (k : jsstring) (es : props) :
  In k (keys (objectLiteral es)) -> In k (keys es).
Proof.
  intros H. destruct (lookup k (objectLiteral es)) as [v|] eqn:E.
  - rewrite lookup_objectLiteral in E.
    destruct (in_dec (list_eq_dec N.eq_dec) k (keys es)) as [Hin|Hn]; [exact Hin|].
    now rewrite (lookup_rev_None _ _ Hn) in E.
  - apply lookup_None in E. contradiction.
Qed.


(** ** [create] *)

Lemma create_inv (encoderName : jsstring) (encoder dependencies : props)
      (h : option hasher) (c : created) :
  create encoderName encoder dependencies h = Ok c ->
  generateHash (VObject encoder) dependencies h = Ok (hash c)
  /\ exists text, isLatin1 text = true
                  /\ uri c = dataUriPrefix ++ Base64.encode text.
Proof.
  unfold create. rewrite generateFunctionsString_object. cbn [bind].
  destruct (generateHash _ _ _) as [hs|e]; cbn [bind]; [|discriminate].
  destruct (toDataUri _) as [u|e] eqn:Eu; cbn [bind]; [|discriminate].
  intros [= <-]. cbn [hash uri]. split; [reflexivity|].
  apply toDataUri_inv in Eu as [Hl ->]. eauto.
Qed.

Lemma sameSignature_refl (d : props) : sameSignature d d = true.
Proof.
  induction d as [|[k v] d IH]; simpl; [reflexivity|].
  rewrite jseqb_refl, IH. destruct v; simpl; rewrite ?jseqb_refl; reflexivity.
Qed.

(** ** The object a created module returns *)

(** Serialising a capability that was read back from its own source form
    gives the same source form. *)
Lemma sourceForm_idem (c : jsstring) (v : value) (sc : props) :
  In c capabilityNames ->
  sourceForm c (VFunction (sourceForm c v) sc) = sourceForm c v.
Proof.
  intros Hin.
  assert (H : startsWith (sourceForm c v) (c ++ js "(")
              || startsWith (sourceForm c v) (c ++ js " (") = false).
  { unfold sourceForm.
    destruct (startsWith (toStringV v) (c ++ js "(")
              || startsWith (toStringV v) (c ++ js " (")) eqn:E; [|exact E].
    simpl in Hin. destruct Hin as [<-|[<-|[<-|[]]]]; reflexivity. }
  unfold sourceForm at 1. cbn [toStringV]. now rewrite H.
Qed.

Lemma handleFunction_idem (c : jsstring) (v : value) (sc : props) :
  In c capabilityNames ->
  handleFunction c (VFunction (sourceForm c v) sc) = handleFunction c v.
Proof.
  intros Hin. rewrite !handleFunction_sourceForm. now rewrite sourceForm_idem.
Qed.

Section CreatedObject.
Variables (P : Platform) (encoderName : jsstring) (encoder dependencies : props)
          (hs : jsstring) (loaded : props).

Let scope := factoryScope P dependencies loaded.
Let ev := fun ke : jsstring * expr => (fst ke, evalExpr scope (snd ke)).

Lemma loadedEncoder_eq :
  loadedEncoder P encoderName encoder dependencies hs loaded
  = VObject (objectLiteral
               (map ev (entries (createdModule encoderName encoder
                                               dependencies hs)))).
Proof. reflexivity. Qed.

Lemma dependency_entries_keys :
  keys (map ev (map (fun k => (k, EFunction (sourceForm k (get dependencies k))))
                    (filter (fun k => isFunction (get dependencies k))
                            (keys dependencies))))
  = filter (fun k => isFunction (get dependencies k)) (keys dependencies).
Proof. unfold keys. rewrite !map_map. simpl. apply map_id. Qed.

Lemma not_dependency_entry (c : jsstring) :
  isFunction (get dependencies c) = false ->
  lookup c (rev (map ev
     (map (fun k => (k, EFunction (sourceForm k (get dependencies k))))
          (filter (fun k => isFunction (get dependencies k))
                  (keys dependencies))))) = None.
Proof.
  intros H. apply lookup_rev_None. rewrite dependency_entries_keys.
  intros Hin. apply filter_In in Hin as [_ Hin]. congruence.
Qed.

Lemma noCapabilityClash_get (c : jsstring) :
  noCapabilityClash dependencies = true -> In c capabilityNames ->
  isFunction (get dependencies c) = false.
Proof.
  unfold noCapabilityClash. rewrite forallb_forall. intros H Hin.
  apply negb_true_iff. now apply H.
Qed.

(** The capabilities of the returned object are those of the definition, in
    canonical source form, closed over the scope of the factory call. *)
Lemma created_capability (c : jsstring) :
  noCapabilityClash dependencies = true -> In c capabilityNames ->
  getProp (loadedEncoder P encoderName encoder dependencies hs loaded) c
  = Ok (if truthy (get encoder c)
        then VFunction (sourceForm c (get encoder c)) scope
        else VUndefined).
Proof.
  intros Hclash Hin. rewrite loadedEncoder_eq. cbn [getProp]. f_equal.
  unfold get at 1. rewrite lookup_objectLiteral.
  unfold createdModule, functionEntries. cbn [entries].
  rewrite !map_app, !rev_app_distr, !lookup_app.
  rewrite (not_dependency_entry c (noCapabilityClash_get c Hclash Hin)).
  simpl in Hin; destruct Hin as [<-|[<-|[<-|[]]]]; cbv beta;
    generalize (sourceForm (js "encode") (get encoder (js "encode")));
    generalize (sourceForm (js "decode") (get encoder (js "decode")));
    generalize (sourceForm (js "preencode") (get encoder (js "preencode")));
    intros sp sd se;
    destruct (truthy (nameOf encoderName encoder));
    destruct (truthy (get encoder (js "encode")));
    destruct (truthy (get encoder (js "decode")));
    destruct (truthy (get encoder (js "preencode")));
    reflexivity.
Qed.


(** The properties of the returned object have the names of the entries. *)
Lemma created_keys (k : jsstring) (o : props) :
  loadedEncoder P encoderName encoder dependencies hs loaded = VObject o ->
  In k (keys o) ->
  In k (map fst (entries (createdModule encoderName encoder dependencies hs))).
Proof.
  rewrite loadedEncoder_eq. intros [= <-] Hin.
  apply keys_objectLiteral in Hin. unfold keys in *.
  rewrite map_map in Hin. exact Hin.
Qed.


(** The canonical text of the returned object with the dependency map of the
    load is the canonical text of the definition at creation. *)
Lemma created_text :
  noCapabilityClash dependencies = true ->
  sameSignature dependencies loaded = true ->
  generateFunctionsString
    (loadedEncoder P encoderName encoder dependencies hs loaded) loaded
  = generateFunctionsString (VObject encoder) dependencies.
Proof.
  intros Hclash Hsig.
  rewrite generateFunctionsString_eq.
  rewrite !created_capability by (simpl; auto).
  cbn [bind]. rewrite generateFunctionsString_object. f_equal.
  rewrite <- (depStrings_sameSignature _ _ Hsig).
  unfold canonicalText.
  assert (E : forall c, In c capabilityNames ->
     (if truthy (if truthy (get encoder c)
                 then VFunction (sourceForm c (get encoder c)) scope
                 else VUndefined)
      then handleFunction c (if truthy (get encoder c)
                             then VFunction (sourceForm c (get encoder c)) scope
                             else VUndefined)
      else [])
     = (if truthy (get encoder c) then handleFunction c (get encoder c) else [])).
  { intros c Hc. destruct (truthy (get encoder c)); [|reflexivity].
    cbn [truthy]. now apply handleFunction_idem. }
  rewrite !E by (simpl; auto). reflexivity.
Qed.

End CreatedObject.

(** ** The text of a created module *)

Lemma join_nonEmpty (sep : jsstring) (l : list jsstring) :
  l <> [] -> forallb nonEmpty l = true -> nonEmpty (join sep l) = true.
Proof.
  destruct l as [|p [|q r]]; [congruence| |]; simpl; intros _ H.
  - now rewrite andb_true_r in H.
  - apply andb_true_iff in H as [Hp _]. now destruct p.
Qed.

Lemma join_cons_join (sep : jsstring) (l r : list jsstring) :
  l <> [] -> r <> [] -> join sep (join sep l :: r) = join sep (l ++ r).
Proof.
  intros Hl Hr. destruct r as [|q r]; [congruence|]. clear Hr.
  induction l as [|p l IH]; [congruence|]. clear Hl.
  destruct l as [|p' l].
  - reflexivity.
  - change (join sep (p :: p' :: l)) with (p ++ sep ++ join sep (p' :: l)).
    change ((p :: p' :: l) ++ q :: r) with (p :: ((p' :: l) ++ q :: r)).
    change (join sep (p :: (p' :: l) ++ q :: r))
      with (p ++ sep ++ join sep ((p' :: l) ++ q :: r)).
    rewrite <- IH by discriminate.
    change (join sep (join sep (p' :: l) :: q :: r))
      with (join sep (p' :: l) ++ sep ++ join sep (q :: r)).
    change (join sep ((p ++ sep ++ join sep (p' :: l)) :: q :: r))
      with ((p ++ sep ++ join sep (p' :: l)) ++ sep ++ join sep (q :: r)).
    now rewrite <- !app_assoc.
Qed.

Lemma filter_nonEmpty_id (l : list jsstring) :
  forallb nonEmpty l = true -> filter nonEmpty l = l.
Proof.
  induction l as [|p l IH]; simpl; [reflexivity|].
  intros H. apply andb_true_iff in H as [Hp Hl]. now rewrite Hp, IH.
Qed.

Lemma depStrings_nonEmpty (d : props) : forallb nonEmpty (depStrings d) = true.
Proof.
  unfold depStrings. apply forallb_forall. intros s Hs.
  apply in_map_iff in Hs as [k [<- _]]. apply handleFunction_nonEmpty.
Qed.

(** The properties [generateFunctionsString] joins are the printed function
    entries of the module. *)
Lemma printEntry_functionEntries (encoder dependencies : props) :
  map printEntry (functionEntries encoder dependencies)
  = filter nonEmpty
      ([ if truthy (get encoder (js "encode"))
         then handleFunction (js "encode") (get encoder (js "encode")) else [];
         if truthy (get encoder (js "decode"))
         then handleFunction (js "decode") (get encoder (js "decode")) else [];
         if truthy (get encoder (js "preencode"))
         then handleFunction (js "preencode") (get encoder (js "preencode"))
         else [] ] ++ depStrings dependencies).
Proof.
  unfold functionEntries. cbv beta.
  change ([?a; ?b; ?c] ++ ?r) with ([a] ++ [b] ++ [c] ++ r).
  rewrite !filter_app, !map_app.
  rewrite (filter_nonEmpty_id _ (depStrings_nonEmpty dependencies)).
  f_equal; [|f_equal; [|f_equal]].
  - destruct (truthy _); cbn [map filter]; [|reflexivity].
    rewrite handleFunction_nonEmpty. unfold printEntry. cbn [fst snd printExpr].
    now rewrite handleFunction_sourceForm.
  - destruct (truthy _); cbn [map filter]; [|reflexivity].
    rewrite handleFunction_nonEmpty. unfold printEntry. cbn [fst snd printExpr].
    now rewrite handleFunction_sourceForm.
  - destruct (truthy _); cbn [map filter]; [|reflexivity].
    rewrite handleFunction_nonEmpty. unfold printEntry. cbn [fst snd printExpr].
    now rewrite handleFunction_sourceForm.
  - unfold depStrings. rewrite map_map. apply map_ext. intros k.
    unfold printEntry. cbn [fst snd printExpr].
    now rewrite handleFunction_sourceForm.
Qed.

Lemma functionEntries_nonEmpty (encoder dependencies : props) :
  forallb nonEmpty (map printEntry (functionEntries encoder dependencies)) = true.
Proof.
  apply forallb_forall. intros s Hs.
  apply in_map_iff in Hs as [[k e] [<- _]]. unfold printEntry. cbn [fst].
  now destruct k.
Qed.

(** The text that [create] packs is the module [createdModule] printed in the
    template. *)
Lemma create_prints (encoderName : jsstring) (encoder dependencies : props)
      (h : option hasher) (c : created) :
  create encoderName encoder dependencies h = Ok c ->
  toDataUri (printModule (createdModule encoderName encoder dependencies (hash c)))
  = Ok (uri c).
Proof.
  unfold generateEncodingUri. rewrite generateFunctionsString_object. cbn [bind].
  destruct (generateHash _ _ _) as [hs|e]; cbn [bind]; [|discriminate].
  destruct (toDataUri _) as [u|e] eqn:Eu; cbn [bind]; [|discriminate].
  intros [= <-]. cbn [hash uri]. rewrite <- Eu. f_equal.
  unfold printModule, createdModule. cbn [params entries]. f_equal.
  rewrite canonicalText_join, <- printEntry_functionEntries.
  rewrite !map_app.
  set (L := map printEntry (functionEntries encoder dependencies)).
  assert (HL : forallb nonEmpty L = true) by apply functionEntries_nonEmpty.
  set (hashEntry := js "hash: " ++ dquote ++ hs ++ dquote).
  assert (Eh : map printEntry [(js "hash", EString hs)] = [hashEntry])
    by reflexivity.
  rewrite Eh.
  set (nameEntry := js "name: " ++ dquote
                    ++ toStringV (nameOf encoderName encoder) ++ dquote).
  assert (En : map printEntry
                 (if truthy (nameOf encoderName encoder)
                  then [(js "name",
                         EString (toStringV (nameOf encoderName encoder)))]
                  else [])
               = filter nonEmpty
                   [if truthy (nameOf encoderName encoder)
                    then nameEntry else []]).
  { destruct (truthy _); reflexivity. }
  rewrite En.
  change [join (js "," ++ nl) L;
          if truthy (nameOf encoderName encoder) then nameEntry else [];
          hashEntry]
    with ([join (js "," ++ nl) L]
          ++ [if truthy (nameOf encoderName encoder) then nameEntry else []]
          ++ [hashEntry]).
  rewrite !filter_app.
  change (filter nonEmpty [hashEntry]) with [hashEntry].
  set (N := filter nonEmpty
              [if truthy (nameOf encoderName encoder) then nameEntry else []]).
  destruct L as [|p L'] eqn:EL.
  - reflexivity.
  - assert (Hne : nonEmpty (join (js "," ++ nl) (p :: L')) = true)
      by (apply join_nonEmpty; [discriminate|exact HL]).
    cbn [filter]. rewrite Hne. cbn [app].
    symmetry. apply (join_cons_join (js "," ++ nl) (p :: L') (N ++ [hashEntry]));
      [discriminate | destruct N; discriminate].
Qed.

(** ** Loading what was created *)

(** A created artifact whose module the platform evaluates as printed loads
    under any dependency map of the same signature. *)
Lemma load_created (P : Platform) (encoderName : jsstring)
      (encoder dependencies loaded : props) (h : option hasher) (c : created)
      (x : hasherOrDepsArg) (deps4 : option props) :
  create encoderName encoder dependencies h = Ok c ->
  noCapabilityClash dependencies = true ->
  sameSignature dependencies loaded = true ->
  evaluatesTemplate P (createdModule encoderName encoder dependencies (hash c)) ->
  resolveArgs x deps4 = (hasherOf h, Some loaded) ->
  load P (uri c) (hash c) x deps4
  = ([EvImport (uri c);
      EvInvoke (cenc P :: b4a P :: sortedValues loaded);
      EvGenerateHash
        (loadedEncoder P encoderName encoder dependencies (hash c) loaded) loaded],
     Ok (cenc_from P
           (loadedEncoder P encoderName encoder dependencies (hash c) loaded))).
Proof.
  intros Hc Hclash Hsig He Hr.
  destruct (He _ (create_prints _ _ _ _ _ Hc)) as [f [Hi Hf]].
  destruct (create_inv _ _ _ _ _ Hc) as [Hh _].
  assert (Hh' : generateHash
                  (loadedEncoder P encoderName encoder dependencies (hash c) loaded)
                  loaded (Some (hasherOf h)) = Ok (hash c)).
  { unfold generateHash in *. now rewrite created_text. }
  rewrite (load_run P (uri c) (hash c) x deps4 _ _ _ _ _ Hr Hi (Hf _) Hh').
  now rewrite jseqb_refl.
Qed.

Lemma evaluatesAs_reference (u : jsstring) (m : moduleAst) :
  RefEngine.import u = Ok (Some (fun args => Ok (instantiate m args))) ->
  evaluatesAs RefEngine.platform u m.
Proof. intros H. eexists. split; [exact H|reflexivity]. Qed.

(** ** The reference engine on modules of the template *)

Module RefEngineFacts.
Import RefEngine.

Lemma stripPrefix_app (p s : jsstring) : stripPrefix p (p ++ s) = Some s.
Proof.
  induction p as [|c p IH]; simpl; [reflexivity|]. now rewrite N.eqb_refl.
Qed.

Lemma breakAt_app (c : N) (a r : jsstring) :
  existsb (N.eqb c) a = false -> breakAt c (a ++ c :: r) = Some (a, r).
Proof.
  induction a as [|d a IH]; cbn [existsb app breakAt]; intros H.
  - now rewrite N.eqb_refl.
  - apply orb_false_iff in H as [Hd Ha]. rewrite N.eqb_sym, Hd.
    now rewrite (IH Ha).
Qed.

(** An identifier character is none of the characters the engine acts on. *)
Lemma identPart_plain (c : N) :
  isIdentPart c = true ->
  isSpace c = false /\ isQuote c = false /\ isOpen c = false
  /\ isClose c = false /\ (c =? 44) = false /\ (c =? 58) = false
  /\ (c =? 41) = false /\ (c <? 128) = true.
Proof.
  unfold isIdentPart, isIdentStart, isSpace, isQuote, isOpen, isClose.
  intros H.
  repeat match type of H with
         | _ || _ = true => apply orb_true_iff in H; destruct H as [H|H]
         | _ && _ = true => apply andb_true_iff in H; destruct H as [H ?]
         end;
    repeat match goal with
           | H : (_ <=? _) = true |- _ => apply N.leb_le in H
           | H : (_ =? _) = true |- _ => apply N.eqb_eq in H
           end;
    repeat split;
    repeat match goal with
           | |- _ || _ = false => apply orb_false_iff; split
           | |- (_ =? _) = false => apply N.eqb_neq
           | |- (_ <? _) = true => apply N.ltb_lt
           end; lia.
Qed.

Lemma identStart_part (c : N) : isIdentStart c = true -> isIdentPart c = true.
Proof. intros H. unfold isIdentPart. now rewrite H. Qed.

Lemma isKey_parts (k : jsstring) :
  isKey k = true -> forallb isIdentPart k = true /\ k <> [].
Proof.
  destruct k as [|c r]; [discriminate|]. simpl. intros H.
  apply andb_true_iff in H as [Hc Hr]. split; [|discriminate].
  now rewrite (identStart_part _ Hc).
Qed.

Lemma isIdentifier_isKey (k : jsstring) : isIdentifier k = true -> isKey k = true.
Proof.
  destruct k as [|c r]; [discriminate|]. unfold isIdentifier, isKey.
  intros H. apply andb_true_iff in H as [H _]. exact H.
Qed.

Lemma scan_app (s t : jsstring) (d : nat) (m : mode) :
  scan (s ++ t) d m
  = match scan s d m with
    | Some (d', m') => scan t d' m'
    | None => None
    end.
Proof.
  revert d m; induction s as [|c s IH]; intros d m; cbn [app scan];
    [reflexivity|].
  destruct m; try apply IH.
  - destruct (isQuote c); [apply IH|].
    destruct (isOpen c); [apply IH|].
    destruct (isClose c); [destruct d; [reflexivity|apply IH]|].
    destruct ((c =? 44) && Nat.eqb d 0); [reflexivity|apply IH].
  - destruct (c =? 92); [apply IH|]. destruct (c =? q); apply IH.
Qed.

(** [splitProps] runs through a text as [scan] does. *)
Lemma splitProps_scan (s rest : jsstring) (d : nat) (m : mode)
      (cur : jsstring) (acc : list jsstring) (d' : nat) (m' : mode) :
  scan s d m = Some (d', m') ->
  splitProps (s ++ rest) d m cur acc = splitProps rest d' m' (rev s ++ cur) acc.
Proof.
  revert d m cur; induction s as [|c s IH]; intros d m cur; cbn [app scan].
  - now intros [= -> ->].
  - cbn [splitProps rev]. rewrite <- app_assoc. cbn [app].
    destruct m.
    + destruct (isQuote c); [apply IH|].
      destruct (isOpen c); [apply IH|].
      destruct (isClose c); [destruct d; [discriminate|apply IH]|].
      destruct ((c =? 44) && Nat.eqb d 0); [discriminate|apply IH].
    + destruct (c =? 92); [apply IH|]. destruct (c =? q); apply IH.
    + apply IH.
Qed.

Lemma scan_neutral (s : jsstring) (d : nat) :
  forallb neutral s = true -> scan s d Code = Some (d, Code).
Proof.
  induction s as [|c s IH]; cbn [forallb scan]; [reflexivity|].
  intros H. apply andb_true_iff in H as [Hc Hs]. unfold neutral in Hc.
  apply negb_true_iff in Hc.
  apply orb_false_iff in Hc as [Hc H44]. apply orb_false_iff in Hc as [Hc Hcl].
  apply orb_false_iff in Hc as [Hq Ho].
  rewrite Hq, Ho, Hcl, H44. cbn [andb]. auto.
Qed.

Lemma identPart_neutral (s : jsstring) :
  forallb isIdentPart s = true -> forallb neutral s = true.
Proof.
  rewrite !forallb_forall. intros H c Hc.
  destruct (identPart_plain c (H c Hc)) as (_ & Hq & Ho & Hcl & H44 & _).
  unfold neutral. now rewrite Hq, Ho, Hcl, H44.
Qed.

Lemma scan_string_body (s : jsstring) (d : nat) :
  forallb plainChar s = true ->
  scan (s ++ [34]) d (InString 34) = Some (d, Code).
Proof.
  induction s as [|c s IH]; cbn [forallb app scan]; [reflexivity|].
  intros H. apply andb_true_iff in H as [Hc Hs].
  unfold plainChar in Hc. apply negb_true_iff in Hc.
  apply orb_false_iff in Hc as [Hc _]. apply orb_false_iff in Hc as [Hc _].
  apply orb_false_iff in Hc as [H34 H92].
  rewrite H92, H34. auto.
Qed.

Lemma scan_printExpr (e : expr) :
  wellFormedExpr e = true -> scan (printExpr e) 0 Code = Some (O, Code).
Proof.
  destruct e as [s|src]; cbn [wellFormedExpr printExpr]; intros H.
  - apply andb_true_iff in H as [_ H].
    change (dquote ++ s ++ dquote) with (34 :: (s ++ [34])).
    cbn [scan]. change (isQuote 34) with true. cbv iota.
    now apply scan_string_body.
  - apply andb_true_iff in H as [H _]. apply andb_true_iff in H as [H _].
    apply andb_true_iff in H as [_ H]. unfold balanced in H.
    destruct (scan src 0 Code) as [[[|d] [| |]]|]; try discriminate. reflexivity.
Qed.

Lemma scan_printEntry (ke : jsstring * expr) :
  wellFormedEntry ke = true -> scan (printEntry ke) 0 Code = Some (O, Code).
Proof.
  destruct ke as [k e]. unfold wellFormedEntry, printEntry. cbn [fst snd].
  intros H. apply andb_true_iff in H as [Hk He].
  destruct (isKey_parts k Hk) as [Hp _].
  rewrite scan_app, (scan_neutral k 0 (identPart_neutral k Hp)).
  rewrite scan_app. change (scan (js ": ") 0 Code) with (Some (O, Code)).
  now apply scan_printExpr.
Qed.

(** The pieces [splitProps] cuts the printed properties into. *)
Lemma splitProps_entries (es : list (jsstring * expr)) :
  es <> [] -> forallb wellFormedEntry es = true ->
  forall cur acc tail,
    splitProps (join (js "," ++ nl) (map printEntry es)
                ++ nl ++ js "    }" ++ tail) 0 Code cur acc
    = Some (rev acc ++ piecesOf (rev cur) es, tail).
Proof.
  induction es as [|e es IH]; [congruence|]. intros _ Hwf cur acc tail.
  cbn [forallb] in Hwf. apply andb_true_iff in Hwf as [He Hes].
  destruct es as [|e' es'].
  - cbn [map join piecesOf].
    rewrite (splitProps_scan _ _ _ _ _ _ _ _ (scan_printEntry e He)).
    change (nl ++ js "    }" ++ tail)
      with (10 :: 32 :: 32 :: 32 :: 32 :: 125 :: tail).
    cbn [splitProps isQuote isOpen isClose N.eqb Pos.eqb orb andb Nat.eqb].
    f_equal. f_equal. cbn [rev]. rewrite rev_app_distr, rev_involutive.
    cbn [rev app]. rewrite <- !app_assoc. reflexivity.
  - change (map printEntry (e :: e' :: es'))
      with (printEntry e :: map printEntry (e' :: es')).
    change (join (js "," ++ nl) (printEntry e :: map printEntry (e' :: es')))
      with (printEntry e ++ (js "," ++ nl)
            ++ join (js "," ++ nl) (map printEntry (e' :: es'))).
    rewrite <- !app_assoc.
    rewrite (splitProps_scan _ _ _ _ _ _ _ _ (scan_printEntry e He)).
    change (js "," ++ nl ++ ?x) with (44 :: 10 :: x).
    cbn [splitProps isQuote isOpen isClose N.eqb Pos.eqb orb andb Nat.eqb].
    rewrite (IH ltac:(discriminate) Hes [10] _ tail).
    f_equal. f_equal. cbn [rev app]. rewrite rev_app_distr, rev_involutive.
    cbn [piecesOf]. rewrite <- !app_assoc. reflexivity.
Qed.

(** *** Trimming *)

Lemma trimStart_spaces (ws s : jsstring) :
  forallb isSpace ws = true -> trimStart (ws ++ s) = trimStart s.
Proof.
  induction ws as [|c ws IH]; cbn [forallb app trimStart]; [reflexivity|].
  intros H. apply andb_true_iff in H as [Hc Hws]. rewrite Hc. auto.
Qed.

Lemma trimStart_head (c : N) (s : jsstring) :
  isSpace c = false -> trimStart (c :: s) = c :: s.
Proof. intros H. cbn [trimStart]. now rewrite H. Qed.

Lemma forallb_rev (A : Type) (f : A -> bool) (l : list A) :
  forallb f (rev l) = forallb f l.
Proof.
  induction l as [|x l IH]; [reflexivity|].
  cbn [rev forallb]. rewrite forallb_app, IH. cbn [forallb].
  rewrite andb_true_r. apply andb_comm.
Qed.

Lemma trim_spaces (ws s ws' : jsstring) :
  forallb isSpace ws = true -> forallb isSpace ws' = true ->
  trimmed s = true -> trim (ws ++ s ++ ws') = s.
Proof.
  intros Hws Hws' Hs. unfold trim, trimmed in *.
  destruct s as [|c s]; [discriminate|].
  destruct (rev (c :: s)) as [|d r] eqn:E; [discriminate|].
  apply andb_true_iff in Hs as [Hc Hd].
  apply negb_true_iff in Hc, Hd.
  rewrite (trimStart_spaces _ _ Hws).
  change ((c :: s) ++ ws') with (c :: (s ++ ws')).
  rewrite (trimStart_head _ _ Hc).
  change (c :: s ++ ws') with ((c :: s) ++ ws').
  rewrite rev_app_distr, trimStart_spaces by now rewrite forallb_rev.
  rewrite E, (trimStart_head _ _ Hd), <- E. apply rev_involutive.
Qed.

Lemma trimmed_ends (c d : N) (s : jsstring) :
  isSpace c = false -> isSpace d = false -> trimmed (c :: s ++ [d]) = true.
Proof.
  intros Hc Hd. unfold trimmed.
  change (c :: s ++ [d]) with ((c :: s) ++ [d]). rewrite rev_app_distr.
  cbn [rev app]. now rewrite Hc, Hd.
Qed.

Lemma trimmed_app (a b : jsstring) :
  (exists c a', a = c :: a' /\ isSpace c = false) ->
  trimmed b = true -> trimmed (a ++ b) = true.
Proof.
  intros (c & a' & -> & Hc) Hb. unfold trimmed in *.
  cbn [app]. change (c :: a' ++ b) with ((c :: a') ++ b).
  rewrite rev_app_distr.
  destruct b as [|x b]; [discriminate|].
  destruct (rev (x :: b)) as [|d r]; [discriminate|].
  apply andb_true_iff in Hb as [_ Hd]. cbn [app]. now rewrite Hc, Hd.
Qed.

Lemma trimmed_key (k : jsstring) : isKey k = true -> trimmed k = true.
Proof.
  intros Hk. destruct (isKey_parts k Hk) as [Hp Hne].
  unfold trimmed. destruct k as [|c r]; [congruence|].
  destruct (rev (c :: r)) as [|d r'] eqn:E.
  - apply (f_equal (@List.length N)) in E. rewrite length_rev in E. discriminate.
  - rewrite forallb_forall in Hp.
    assert (Hc : In c (c :: r)) by now left.
    assert (Hd : In d (c :: r)) by (apply in_rev; rewrite E; now left).
    destruct (identPart_plain c (Hp c Hc)) as [-> _].
    now destruct (identPart_plain d (Hp d Hd)) as [-> _].
Qed.

Lemma trimmed_printExpr (e : expr) :
  wellFormedExpr e = true -> trimmed (printExpr e) = true.
Proof.
  destruct e as [s|src]; cbn [wellFormedExpr printExpr]; intros H.
  - change (dquote ++ s ++ dquote) with (34 :: s ++ [34]).
    now apply trimmed_ends.
  - apply andb_true_iff in H as [H _]. now apply andb_true_iff in H as [_ H].
Qed.

Lemma trimmed_printEntry (ke : jsstring * expr) :
  wellFormedEntry ke = true -> trimmed (printEntry ke) = true.
Proof.
  destruct ke as [k e]. unfold wellFormedEntry, printEntry. cbn [fst snd].
  intros H. apply andb_true_iff in H as [Hk He].
  apply trimmed_app.
  - destruct k as [|c r]; [discriminate|]. exists c, r. split; [reflexivity|].
    cbn [isKey] in Hk. apply andb_true_iff in Hk as [Hc _].
    now destruct (identPart_plain c (identStart_part c Hc)) as [-> _].
  - change (js ": " ++ printExpr e) with ([58; 32] ++ printExpr e).
    apply trimmed_app; [|now apply trimmed_printExpr].
    exists 58, [32]. now split.
Qed.

Lemma trim_pieces (pre : jsstring) (es : list (jsstring * expr)) :
  forallb isSpace pre = true -> forallb wellFormedEntry es = true ->
  map trim (piecesOf pre es) = map printEntry es.
Proof.
  revert pre; induction es as [|e es IH]; intros pre Hpre Hwf; [reflexivity|].
  cbn [forallb] in Hwf. apply andb_true_iff in Hwf as [He Hes].
  destruct es as [|e' es'].
  - cbn [piecesOf map]. f_equal.
    apply trim_spaces; [exact Hpre | reflexivity | now apply trimmed_printEntry].
  - change (piecesOf pre (e :: e' :: es'))
      with ((pre ++ printEntry e) :: piecesOf nl (e' :: es')).
    cbn [map]. f_equal.
    + rewrite <- (app_nil_r (printEntry e)) at 1.
      apply trim_spaces; [exact Hpre | reflexivity | now apply trimmed_printEntry].
    + now apply IH.
Qed.

(** *** Properties and parameters *)

Lemma existsb_identPart (c : N) (k : jsstring) :
  isIdentPart c = false -> forallb isIdentPart k = true ->
  existsb (N.eqb c) k = false.
Proof.
  intros Hc Hk. induction k as [|d k IH]; [reflexivity|].
  cbn [forallb existsb] in *. apply andb_true_iff in Hk as [Hd Hk].
  rewrite (IH Hk), orb_false_r. apply N.eqb_neq. intros ->. congruence.
Qed.

Lemma parseExpr_print (e : expr) :
  wellFormedExpr e = true -> parseExpr (printExpr e) = Ok e.
Proof.
  destruct e as [s|src]; cbn [wellFormedExpr printExpr]; intros H.
  - apply andb_true_iff in H as [_ H].
    unfold parseExpr, isStringLiteral.
    change (dquote ++ s ++ dquote) with (34 :: (s ++ [34])). cbv iota.
    rewrite rev_app_distr. cbn [rev app].
    rewrite forallb_rev, H, rev_involutive. reflexivity.
  - apply andb_true_iff in H as [_ H].
    destruct (parseExpr src) as [[s'|src']|]; try discriminate.
    apply jseqb_eq in H. now subst.
Qed.

Lemma parseProp_print (ke : jsstring * expr) :
  wellFormedEntry ke = true -> parseProp (printEntry ke) = Ok ke.
Proof.
  destruct ke as [k e]. unfold wellFormedEntry, printEntry. cbn [fst snd].
  intros H. apply andb_true_iff in H as [Hk He].
  destruct (isKey_parts k Hk) as [Hp _].
  unfold parseProp.
  change (k ++ js ": " ++ printExpr e) with (k ++ 58 :: ([32] ++ printExpr e)).
  rewrite (breakAt_app 58 k _ (existsb_identPart 58 k eq_refl Hp)).
  assert (Ek : trim k = k).
  { rewrite <- (app_nil_r k) at 1.
    apply (trim_spaces [] k []); auto using trimmed_key. }
  assert (Ee : trim ([32] ++ printExpr e) = printExpr e).
  { rewrite <- (app_nil_r (printExpr e)) at 1.
    apply (trim_spaces [32] (printExpr e) []); auto using trimmed_printExpr. }
  rewrite Ek, Ee, (parseExpr_print e He). cbn [bind].
  assert (Hid : isIdentifier k || existsb (jseqb k) reserved = true).
  { unfold isIdentifier. destruct k as [|c r]; [discriminate|].
    cbn [isKey] in Hk. rewrite Hk. cbn [andb].
    now destruct (existsb (jseqb (c :: r)) reserved). }
  now rewrite Hid.
Qed.

Lemma mapR_parseProp (es : list (jsstring * expr)) :
  forallb wellFormedEntry es = true ->
  mapR parseProp (map printEntry es) = Ok es.
Proof.
  induction es as [|e es IH]; cbn [forallb map mapR]; [reflexivity|].
  intros H. apply andb_true_iff in H as [He Hes].
  now rewrite (parseProp_print e He), (IH Hes).
Qed.

Lemma splitOn_plain (c : N) (a : jsstring) :
  existsb (N.eqb c) a = false -> splitOn c a = [a].
Proof.
  induction a as [|d a IH]; cbn [existsb splitOn]; [reflexivity|].
  intros H. apply orb_false_iff in H as [Hd Ha].
  rewrite N.eqb_sym, Hd, (IH Ha). reflexivity.
Qed.

Lemma splitOn_app (c : N) (a r : jsstring) :
  existsb (N.eqb c) a = false -> splitOn c (a ++ c :: r) = a :: splitOn c r.
Proof.
  induction a as [|d a IH]; cbn [existsb app splitOn]; intros H.
  - now rewrite N.eqb_refl.
  - apply orb_false_iff in H as [Hd Ha].
    rewrite N.eqb_sym, Hd, (IH Ha). reflexivity.
Qed.

Lemma splitOn_join (names : list jsstring) :
  names <> [] -> forallb (forallb isIdentPart) names = true ->
  splitOn 44 (join (js ",") names) = names.
Proof.
  induction names as [|n ns IH]; [congruence|]. intros _ H.
  cbn [forallb] in H. apply andb_true_iff in H as [Hn Hns].
  destruct ns as [|n' ns'].
  - cbn [join]. apply splitOn_plain. now apply existsb_identPart.
  - change (join (js ",") (n :: n' :: ns'))
      with (n ++ 44 :: join (js ",") (n' :: ns')).
    rewrite splitOn_app by now apply existsb_identPart.
    now rewrite IH by (auto; discriminate).
Qed.

Lemma isIdentifier_parts (names : list jsstring) :
  forallb isIdentifier names = true ->
  forallb (forallb isIdentPart) names = true /\ map trim names = names.
Proof.
  induction names as [|n ns IH]; cbn [forallb map]; [auto|].
  intros H. apply andb_true_iff in H as [Hn Hns].
  destruct (IH Hns) as [-> ->].
  pose proof (isIdentifier_isKey n Hn) as Hk.
  destruct (isKey_parts n Hk) as [-> _]. split; [reflexivity|]. f_equal.
  rewrite <- (app_nil_r n) at 1.
  apply (trim_spaces [] n []); auto using trimmed_key.
Qed.

Lemma parseParams_print (names : list jsstring) :
  forallb isIdentifier names = true ->
  distinct (js "cenc" :: js "b4a" :: names) = true ->
  parseParams (paramText names) = Ok names.
Proof.
  intros Hid Hd. destruct (isIdentifier_parts names Hid) as [Hp Ht].
  destruct names as [|n ns]; [reflexivity|].
  unfold paramText. cbn [List.length Nat.ltb Nat.leb].
  change (js "," ++ ?x) with (44 :: x). cbn [parseParams].
  rewrite (splitOn_join (n :: ns) ltac:(discriminate) Hp), Ht, Hid, Hd.
  reflexivity.
Qed.

Lemma existsb_join (c : N) (sep : jsstring) (l : list jsstring) :
  existsb (N.eqb c) sep = false ->
  forallb (fun s => negb (existsb (N.eqb c) s)) l = true ->
  existsb (N.eqb c) (join sep l) = false.
Proof.
  intros Hsep. induction l as [|p l IH]; [reflexivity|].
  cbn [forallb]. intros H. apply andb_true_iff in H as [Hp Hl].
  apply negb_true_iff in Hp. destruct l as [|q l]; [exact Hp|].
  change (join sep (p :: q :: l)) with (p ++ sep ++ join sep (q :: l)).
  now rewrite !existsb_app, Hp, Hsep, (IH Hl).
Qed.

Lemma paramText_no_paren (names : list jsstring) :
  forallb isIdentifier names = true ->
  existsb (N.eqb 41) (paramText names) = false.
Proof.
  intros Hid. destruct (isIdentifier_parts names Hid) as [Hp _].
  unfold paramText. destruct (0 <? List.length names)%nat; [|reflexivity].
  change (js "," ++ ?x) with (44 :: x). cbn [existsb].
  change (41 =? 44) with false. cbn [orb].
  apply existsb_join; [reflexivity|].
  apply forallb_forall. intros n Hn. rewrite forallb_forall in Hp.
  apply negb_true_iff. apply existsb_identPart; [reflexivity|auto].
Qed.

(** *** The whole module *)

Lemma isAscii_app (a b : jsstring) :
  isAscii (a ++ b) = isAscii a && isAscii b.
Proof. apply forallb_app. Qed.

Lemma isAscii_join (sep : jsstring) (l : list jsstring) :
  isAscii sep = true -> forallb isAscii l = true -> isAscii (join sep l) = true.
Proof.
  intros Hsep. induction l as [|p l IH]; [reflexivity|].
  cbn [forallb]. intros H. apply andb_true_iff in H as [Hp Hl].
  destruct l as [|q l]; [exact Hp|].
  change (join sep (p :: q :: l)) with (p ++ sep ++ join sep (q :: l)).
  now rewrite !isAscii_app, Hp, Hsep, (IH Hl).
Qed.

Lemma isAscii_identPart (k : jsstring) :
  forallb isIdentPart k = true -> isAscii k = true.
Proof.
  unfold isAscii. rewrite !forallb_forall. intros H c Hc.
  now destruct (identPart_plain c (H c Hc)) as (_ & _ & _ & _ & _ & _ & _ & ->).
Qed.

Lemma isAscii_printEntry (ke : jsstring * expr) :
  wellFormedEntry ke = true -> isAscii (printEntry ke) = true.
Proof.
  destruct ke as [k e]. unfold wellFormedEntry, printEntry. cbn [fst snd].
  intros H. apply andb_true_iff in H as [Hk He].
  destruct (isKey_parts k Hk) as [Hp _].
  rewrite !isAscii_app, (isAscii_identPart k Hp). cbn [andb].
  change (isAscii (js ": ")) with true. cbn [andb].
  destruct e as [s|src]; cbn [wellFormedExpr printExpr] in *.
  - apply andb_true_iff in He as [Hs _].
    now rewrite !isAscii_app, Hs.
  - apply andb_true_iff in He as [He _]. apply andb_true_iff in He as [He _].
    now apply andb_true_iff in He as [He _].
Qed.

Lemma isAscii_paramText (names : list jsstring) :
  forallb isIdentifier names = true -> isAscii (paramText names) = true.
Proof.
  intros Hid. destruct (isIdentifier_parts names Hid) as [Hp _].
  unfold paramText. destruct (0 <? List.length names)%nat; [|reflexivity].
  rewrite isAscii_app. change (isAscii (js ",")) with true. cbn [andb].
  apply isAscii_join; [reflexivity|].
  apply forallb_forall. intros n Hn. rewrite forallb_forall in Hp.
  apply isAscii_identPart. auto.
Qed.

Lemma wellFormedModule_inv (m : moduleAst) :
  wellFormedModule m = true ->
  forallb isIdentifier (params m) = true
  /\ distinct (js "cenc" :: js "b4a" :: params m) = true
  /\ entries m <> []
  /\ forallb wellFormedEntry (entries m) = true.
Proof.
  unfold wellFormedModule. intros H.
  apply andb_true_iff in H as [H _].
  apply andb_true_iff in H as [H He]. apply andb_true_iff in H as [H Hn].
  apply andb_true_iff in H as [Hp Hd].
  repeat split; auto. intros E. now rewrite E in Hn.
Qed.

Lemma isAscii_printModule (m : moduleAst) :
  wellFormedModule m = true -> isAscii (printModule m) = true.
Proof.
  intros H. destruct (wellFormedModule_inv m H) as (Hp & _ & _ & He).
  unfold printModule, moduleCode. rewrite !isAscii_app.
  fold (paramText (params m)). rewrite (isAscii_paramText _ Hp).
  rewrite isAscii_join; [reflexivity | reflexivity |].
  apply forallb_forall. intros s Hs.
  apply in_map_iff in Hs as [ke [<- Hke]].
  rewrite forallb_forall in He. now apply isAscii_printEntry, He.
Qed.

Lemma filter_nonEmpty_printed (es : list (jsstring * expr)) :
  forallb wellFormedEntry es = true ->
  filter nonEmpty (map printEntry es) = map printEntry es.
Proof.
  induction es as [|[k e] es IH]; cbn [forallb map filter]; [reflexivity|].
  intros H. apply andb_true_iff in H as [He Hes]. rewrite (IH Hes).
  unfold wellFormedEntry in He. cbn [fst] in He.
  apply andb_true_iff in He as [Hk _].
  destruct k as [|c r]; [discriminate|]. reflexivity.
Qed.

(** The engine reads a printed well-formed module back. *)
Lemma utf8DecodeFrom_ascii (s : jsstring) :
  isAscii s = true -> utf8DecodeFrom utf8Start s = s.
Proof.
  induction s as [|c s IH]; [reflexivity|].
  unfold isAscii. cbn [forallb]. intros H. apply andb_true_iff in H as [Hc Hs].
  cbn [utf8DecodeFrom]. unfold utf8Step, utf8Lead. cbn [bytesNeeded utf8Start].
  cbn [N.eqb]. rewrite Hc. cbn [app]. f_equal. now apply IH.
Qed.

(** ASCII bytes decode to themselves. *)
Lemma utf8Decode_ascii (s : jsstring) : isAscii s = true -> utf8Decode s = s.
Proof.
  intros H. unfold utf8Decode.
  destruct s as [|c s]; [reflexivity|].
  assert (Hc : c < 128).
  { unfold isAscii in H. cbn [forallb] in H.
    apply andb_true_iff in H as [Hc _]. now apply N.ltb_lt. }
  cbn [stripPrefix].
  destruct (N.eqb_spec 0xEF c) as [E|_]; [lia|].
  now apply utf8DecodeFrom_ascii.
Qed.

Theorem parseModule_printModule (m : moduleAst) :
  wellFormedModule m = true -> parseModule (printModule m) = Ok m.
Proof.
  intros H. destruct (wellFormedModule_inv m H) as (Hp & Hd & Hne & He).
  unfold parseModule, printModule, moduleCode.
  fold (paramText (params m)).
  rewrite (app_assoc nl (js "export default function (cenc, b4a") _).
  rewrite stripPrefix_app.
  change (js ") {" ++ ?x) with (41 :: (js " {" ++ x)).
  rewrite (breakAt_app 41 _ _ (paramText_no_paren _ Hp)).
  rewrite (parseParams_print _ Hp Hd). cbn [bind].
  change (js " {" ++ nl ++ js "    return {" ++ ?x)
    with ((js " {" ++ nl ++ js "    return {") ++ x).
  rewrite stripPrefix_app.
  change (nl ++ js "        " ++ ?x)
    with ([10; 32; 32; 32; 32; 32; 32; 32; 32] ++ x).
  rewrite (splitProps_scan [10; 32; 32; 32; 32; 32; 32; 32; 32] _ 0 Code [] []
             O Code eq_refl).
  change (js "    };" ++ nl ++ js "}")
    with (js "    }" ++ (js ";" ++ nl ++ js "}")).
  rewrite (splitProps_entries (entries m) Hne He).
  cbn [rev app]. rewrite jseqb_refl.
  rewrite (trim_pieces [10; 32; 32; 32; 32; 32; 32; 32; 32] _ eq_refl He).
  rewrite (filter_nonEmpty_printed _ He).
  rewrite (mapR_parseProp _ He). cbn [bind]. now destruct m.
Qed.

End RefEngineFacts.

(** The reference engine evaluates every well-formed module of the template
    as that module. *)
Theorem reference_evaluatesTemplate (m : moduleAst) :
  RefEngine.wellFormedModule m = true ->
  evaluatesTemplate RefEngine.platform m.
Proof.
  intros H u Hu. apply toDataUri_inv in Hu as [Hl ->].
  apply evaluatesAs_reference. unfold RefEngine.import, RefEngine.read.
  rewrite RefEngineFacts.stripPrefix_app.
  rewrite (Base64Facts.decode_encode _ (isLatin1_bytes _ Hl)).
  rewrite (RefEngineFacts.utf8Decode_ascii _
             (RefEngineFacts.isAscii_printModule m H)).
  now rewrite (RefEngineFacts.parseModule_printModule m H).
Qed.

(** On the reference engine, what [create] returns loads whenever the
    created module is well-formed, under any dependency map of the same
    signature. *)
Corollary reference_roundtrip (encoderName : jsstring)
          (encoder dependencies loaded : props) (h : option hasher)
          (c : created) (x : hasherOrDepsArg) (deps4 : option props) :
  create encoderName encoder dependencies h = Ok c ->
  noCapabilityClash dependencies = true ->
  sameSignature dependencies loaded = true ->
  RefEngine.wellFormedModule
    (createdModule encoderName encoder dependencies (hash c)) = true ->
  resolveArgs x deps4 = (hasherOf h, Some loaded) ->
  outcome (load RefEngine.platform (uri c) (hash c) x deps4)
  = Ok (RefEngine.from
          (loadedEncoder RefEngine.platform encoderName encoder dependencies
                         (hash c) loaded)).
Proof.
  intros Hc Hclash Hsig Hwf Hr.
  now rewrite (load_created RefEngine.platform encoderName encoder dependencies
                 loaded h c x deps4 Hc Hclash Hsig
                 (reference_evaluatesTemplate _ Hwf) Hr).
Qed.

(** The reference engine evaluates every artifact as the module it spells
    out. *)
Lemma reference_evaluatesArtifact (u : jsstring) :
  evaluatesArtifact RefEngine.platform u.
Proof.
  intros m H. exists (fun args => Ok (instantiate m args)).
  split; [|reflexivity].
  cbn [import_ RefEngine.platform]. unfold RefEngine.import. now rewrite H.
Qed.

(** A created artifact whose text is well-formed spells out
    [createdModule]. *)
Lemma created_read (encoderName : jsstring) (encoder dependencies : props)
      (h : option hasher) (c : created) :
  create encoderName encoder dependencies h = Ok c ->
  RefEngine.wellFormedModule
    (createdModule encoderName encoder dependencies (hash c)) = true ->
  RefEngine.read (uri c)
  = Ok (createdModule encoderName encoder dependencies (hash c)).
Proof.
  intros Hc Hwf. pose proof (create_prints _ _ _ _ _ Hc) as Hp.
  apply toDataUri_inv in Hp as [Hl Hu]. rewrite Hu. unfold RefEngine.read.
  rewrite RefEngineFacts.stripPrefix_app.
  rewrite (Base64Facts.decode_encode _ (isLatin1_bytes _ Hl)).
  rewrite (RefEngineFacts.utf8Decode_ascii _
             (RefEngineFacts.isAscii_printModule _ Hwf)).
  now apply RefEngineFacts.parseModule_printModule.
Qed.

(** A platform that evaluates a well-formed created artifact as the module
    it spells out evaluates it as [createdModule]. *)
Lemma created_evaluates (P : Platform) (encoderName : jsstring)
      (encoder dependencies : props) (h : option hasher) (c : created) :
  create encoderName encoder dependencies h = Ok c ->
  RefEngine.wellFormedModule
    (createdModule encoderName encoder dependencies (hash c)) = true ->
  evaluatesArtifact P (uri c) ->
  evaluatesTemplate P (createdModule encoderName encoder dependencies (hash c)).
Proof.
  intros Hc Hwf He u Hu. rewrite (create_prints _ _ _ _ _ Hc) in Hu.
  injection Hu as <-. apply He. now apply (created_read _ _ _ h).
Qed.









(** ** Empty encoders *)

Lemma no_callable_get (d : props) (k : jsstring) :
  forallb (fun kv => negb (isFunction (snd kv))) d = true ->
  isFunction (get d k) = false.
Proof.
  intros H. unfold get. induction d as [|[q v] d IH]; simpl in *; [reflexivity|].
  apply andb_true_iff in H as [Hv Hd]. apply negb_true_iff in Hv.
  destruct (jseqb k q); auto.
Qed.

Lemma no_callable_filter (d : props) :
  forallb (fun kv => negb (isFunction (snd kv))) d = true ->
  filter (fun k => isFunction (get d k)) (keys d) = [].
Proof.
  intros H. generalize (keys d). intros ks.
  induction ks as [|k ks IH]; simpl; [reflexivity|].
  now rewrite (no_callable_get d k H).
Qed.

Lemma no_capability_get (encoder : props) (k : jsstring) :
  forallb (fun c => negb (truthy (get encoder c))) capabilityNames = true ->
  In k capabilityNames -> truthy (get encoder k) = false.
Proof.
  rewrite forallb_forall. intros H Hk. apply negb_true_iff. now apply H.
Qed.

(** C8 (as amended): for a definition without capabilities and a dependency
    map without callable values the canonical text is the empty string and
    the hash is that of no bytes; when [create] returns a module text that is
    well-formed (plain ASCII, the keys distinct identifiers, the name and the
    hash free of double quotes, backslashes and line breaks) and the platform
    evaluates the artifact as the module it spells out, [load] with the same
    hasher and dependency map returns, and the object it hands to the adapter
    has no property other than [name] and [hash]. *)
Theorem empty_encoder (P : Platform) (encoderName : jsstring)
        (encoder dependencies : props) (h : option hasher) :
  forallb (fun c => negb (truthy (get encoder c))) capabilityNames = true ->
  forallb (fun kv => negb (isFunction (snd kv))) dependencies = true ->
  generateFunctionsString (VObject encoder) dependencies = Ok []
  /\ generateHash (VObject encoder) dependencies h = hasherOf h []
  /\ forall c x deps4,
      create encoderName encoder dependencies h = Ok c ->
      RefEngine.wellFormedModule
        (createdModule encoderName encoder dependencies (hash c)) = true ->
      evaluatesArtifact P (uri c) ->
      resolveArgs x deps4 = (hasherOf h, Some dependencies) ->
      hasherOf h [] = Ok (hash c)
      /\ exists o,
          loadedEncoder P encoderName encoder dependencies (hash c) dependencies
          = VObject o
          /\ outcome (load P (uri c) (hash c) x deps4)
             = Ok (cenc_from P (VObject o))
          /\ (forall k, In k (keys o) -> k = js "name" \/ k = js "hash")
          /\ get o (js "hash") = VString (hash c).
Proof.
  intros Hcaps Hdeps.
  assert (Et : generateFunctionsString (VObject encoder) dependencies = Ok []).
  { rewrite generateFunctionsString_object. unfold canonicalText, depStrings.
    rewrite (no_callable_filter _ Hdeps).
    rewrite !(no_capability_get encoder _ Hcaps) by (simpl; auto).
    reflexivity. }
  assert (Eh : generateHash (VObject encoder) dependencies h = hasherOf h []).
  { unfold generateHash. rewrite Et. reflexivity. }
  split; [exact Et|]. split; [exact Eh|].
  intros c x deps4 Hc Hwf Ha Hr.
  pose proof (created_evaluates P _ _ _ _ _ Hc Hwf Ha) as He.
  assert (Hclash : noCapabilityClash dependencies = true).
  { unfold noCapabilityClash. apply forallb_forall. intros k _.
    now rewrite (no_callable_get dependencies k Hdeps). }
  destruct (create_inv _ _ _ _ _ Hc) as [Hh _].
  split; [now rewrite <- Eh|].
  eexists. split; [apply loadedEncoder_eq|].
  rewrite <- loadedEncoder_eq.
  rewrite (load_created P encoderName encoder dependencies dependencies h c x
             deps4 Hc Hclash (sameSignature_refl _) He Hr).
  split; [reflexivity|].
  assert (Ee : entries (createdModule encoderName encoder dependencies (hash c))
               = (if truthy (nameOf encoderName encoder)
                  then [(js "name",
                         EString (toStringV (nameOf encoderName encoder)))]
                  else [])
                 ++ [(js "hash", EString (hash c))]).
  { unfold createdModule, functionEntries. cbn [entries].
    rewrite (no_callable_filter _ Hdeps).
    rewrite !(no_capability_get encoder _ Hcaps) by (simpl; auto).
    reflexivity. }
  split.
  - intros k Hk.
    apply (created_keys P encoderName encoder dependencies (hash c)
             dependencies k _ (loadedEncoder_eq _ _ _ _ _ _)) in Hk.
    rewrite Ee in Hk. destruct (truthy _); simpl in Hk; intuition.
  - unfold get. rewrite lookup_objectLiteral, Ee.
    destruct (truthy _); reflexivity.
Qed.

Lemma empty_encoder_witness :
  hasherOf None [] = Ok (hash emptyCreated)
  /\ exists o,
      loadedEncoder RefEngine.platform (js "emptyEncoder") [] []
                    (hash emptyCreated) [] = VObject o
      /\ outcome (load RefEngine.platform (uri emptyCreated) (hash emptyCreated)
                       Omitted None)
         = Ok (cenc_from RefEngine.platform (VObject o))
      /\ (forall k, In k (keys o) -> k = js "name" \/ k = js "hash")
      /\ get o (js "hash") = VString (hash emptyCreated).
Proof.
  refine (proj2 (proj2 (empty_encoder RefEngine.platform (js "emptyEncoder")
                          [] [] None eq_refl eq_refl))
            emptyCreated Omitted None _ _ _ _).
  - vm_compute. reflexivity.
  - vm_compute. reflexivity.
  - apply reference_evaluatesArtifact.
  - reflexivity.
Defined.

(** C8 (as stated) fails: an empty definition with the non-callable
    dependency [my-dep] is created, but its module declares a parameter that
    is no identifier and [load] ends in a SyntaxError; an empty definition
    named with the euro sign is not even created; and under a name with a
    double quote in it the module that the text spells out returns an object
    with a further property, [evil], which [load] accepts. *)
Lemma empty_encoder_fails :
  (create (js "emptyEncoder") [] dashDeps None = Ok dashCreated
   /\ exists msg,
       outcome (load RefEngine.platform (uri dashCreated) (hash dashCreated)
                     (AObject dashDeps) None) = Throw (SyntaxError msg))
  /\ create [8364] [] [] None = Throw InvalidCharacterError
  /\ (create evilName [] [] None = Ok evilCreated
      /\ exists o,
          load RefEngine.platform (uri evilCreated) (hash evilCreated)
               Omitted None
          = ([EvImport (uri evilCreated);
              EvInvoke [cenc RefEngine.platform; b4a RefEngine.platform];
              EvGenerateHash (VObject o) []],
             Ok (cenc_from RefEngine.platform (VObject o)))
          /\ get o (js "evil") = VString (js "b")).
Proof.
  split; [split|split; [|split]].
  - vm_compute. reflexivity.
  - eexists. vm_compute. reflexivity.
  - vm_compute. reflexivity.
  - vm_compute. reflexivity.
  - exists [(js "name", VString (js "a")); (js "evil", VString (js "b"));
            (js "hash", VString (hash evilCreated))].
    split; [vm_compute; reflexivity|]. reflexivity.
Qed.

(** ** The order and the presence of dependencies *)

Lemma join_length (sep : jsstring) (parts : list jsstring) :
  parts <> [] ->
  (List.length (join sep parts) + List.length sep = weight sep parts)%nat.
Proof.
  induction parts as [|p rest IH]; [congruence|]. intros _.
  destruct rest as [|q rest].
  - simpl. lia.
  - change (join sep (p :: q :: rest)) with (p ++ sep ++ join sep (q :: rest)).
    cbn [weight] in *. rewrite !length_app.
    assert (H : q :: rest <> []) by discriminate. specialize (IH H). lia.
Qed.

Lemma weight_app (sep : jsstring) (a b : list jsstring) :
  weight sep (a ++ b) = (weight sep a + weight sep b)%nat.
Proof. induction a as [|p a IH]; simpl; lia. Qed.

(** A joined string gets longer when a non-empty part is put in. *)
Lemma join_longer (sep s : jsstring) (a b : list jsstring) :
  s <> [] ->
  (List.length (join sep (a ++ b)) < List.length (join sep (a ++ s :: b)))%nat.
Proof.
  intros Hs.
  assert (H1 : a ++ s :: b <> []) by (destruct a; discriminate).
  pose proof (join_length sep _ H1) as E1.
  rewrite weight_app in E1. cbn [weight] in E1.
  destruct (a ++ b) as [|p r] eqn:E.
  - apply app_eq_nil in E as [-> ->]. simpl.
    destruct s; [congruence|simpl; lia].
  - assert (H0 : p :: r <> []) by discriminate.
    pose proof (join_length sep _ H0) as E0.
    rewrite <- E, weight_app in E0. rewrite <- E.
    destruct s; [congruence|]. simpl in E1. lia.
Qed.

Lemma callableEntries_app (a b : props) :
  callableEntries (a ++ b) = callableEntries a ++ callableEntries b.
Proof. apply filter_app. Qed.

Lemma distinct_remove (a b : props) (k : jsstring) (v : value) :
  distinct (keys (a ++ (k, v) :: b)) = true -> distinct (keys (a ++ b)) = true.
Proof.
  rewrite !distinct_NoDup. unfold keys. rewrite !map_app. simpl.
  apply NoDup_remove_1.
Qed.

(** Putting a callable dependency in makes the canonical text longer;
    putting a non-callable one in leaves it as it is. *)
Lemma generateFunctionsString_insert (enc : value) (a b : props)
      (k : jsstring) (v : value) :
  distinct (keys (a ++ (k, v) :: b)) = true ->
  (isFunction v = false ->
   generateFunctionsString enc (a ++ (k, v) :: b)
   = generateFunctionsString enc (a ++ b))
  /\ (isFunction v = true ->
      forall t t',
        generateFunctionsString enc (a ++ (k, v) :: b) = Ok t ->
        generateFunctionsString enc (a ++ b) = Ok t' ->
        (List.length t' < List.length t)%nat).
Proof.
  intros Hd. pose proof (distinct_remove _ _ _ _ Hd) as Hd'.
  rewrite !generateFunctionsString_eq.
  rewrite (depStrings_callableEntries _ Hd), (depStrings_callableEntries _ Hd').
  rewrite !callableEntries_app.
  assert (Ec : callableEntries ((k, v) :: b)
               = (if isFunction v then [(k, v)] else []) ++ callableEntries b).
  { unfold callableEntries. cbn [filter snd]. now destruct (isFunction v). }
  rewrite Ec.
  split; intros Hv; rewrite Hv; cbn [app].
  - reflexivity.
  - intros t t'.
    destruct (getProp enc (js "encode")) as [e|?]; cbn [bind]; [|discriminate].
    destruct (getProp enc (js "decode")) as [d|?]; cbn [bind]; [|discriminate].
    destruct (getProp enc (js "preencode")) as [p|?]; cbn [bind]; [|discriminate].
    intros [= <-] [= <-]. rewrite !canonicalText_join.
    rewrite !map_app. cbn [map fst snd].
    rewrite !app_assoc, !filter_app. cbn [filter].
    rewrite handleFunction_nonEmpty.
    apply join_longer. intros E. pose proof (handleFunction_nonEmpty k v) as H.
    now rewrite E in H.
Qed.

(** C3 (as amended): for two dependency maps that hold the same key-value
    pairs in different orders, the sorted keys, and with them the formal
    parameters of the module and the arguments of the factory call, are the
    same; the canonical text and the hash are the same whenever the callable
    entries come in the same order in both.  Taking an entry with a
    non-callable value out of a map changes neither the canonical text nor
    the hash, and taking an entry with a callable value out makes the
    canonical text shorter. *)
Theorem dependency_order (enc : value) (deps deps' : props) :
  distinct (keys deps) = true ->
  Permutation deps deps' ->
  sortKeys (keys deps) = sortKeys (keys deps')
  /\ sortedValues deps = sortedValues deps'
  /\ (callableEntries deps = callableEntries deps' ->
      generateFunctionsString enc deps = generateFunctionsString enc deps'
      /\ forall h, generateHash enc deps h = generateHash enc deps' h)
  /\ (forall a b k v,
         deps = a ++ (k, v) :: b ->
         (isFunction v = false ->
          generateFunctionsString enc deps = generateFunctionsString enc (a ++ b)
          /\ forall h, generateHash enc deps h = generateHash enc (a ++ b) h)
         /\ (isFunction v = true ->
             forall t t',
               generateFunctionsString enc deps = Ok t ->
               generateFunctionsString enc (a ++ b) = Ok t' ->
               (List.length t' < List.length t)%nat)).
Proof.
  intros Hd Hp.
  destruct (sortedValues_Permutation _ _ Hd Hp) as [Ek Ev].
  split; [exact Ek|]. split; [exact Ev|]. split.
  - intros Ec.
    assert (Hd' : distinct (keys deps') = true).
    { apply distinct_NoDup. apply distinct_NoDup in Hd.
      unfold keys. now rewrite <- Hp. }
    assert (E : depStrings deps = depStrings deps').
    { rewrite (depStrings_callableEntries _ Hd),
        (depStrings_callableEntries _ Hd'). now rewrite Ec. }
    split; [now apply generateFunctionsString_depStrings|].
    intros h. unfold generateHash.
    now rewrite (generateFunctionsString_depStrings enc _ _ E).
  - intros a b k v ->.
    destruct (generateFunctionsString_insert enc a b k v Hd) as [Hn Hc].
    split; [|exact Hc].
    intros Hv. split; [now apply Hn|].
    intros h. unfold generateHash. now rewrite (Hn Hv).
Qed.

Lemma zam_amz_Permutation : Permutation zamDeps amzDeps.
Proof.
  unfold zamDeps, amzDeps.
  eapply perm_trans; [apply perm_swap|]. apply perm_skip. apply perm_swap.
Qed.

Lemma dependency_order_witness :
  sortKeys (keys zamDeps) = sortKeys (keys amzDeps)
  /\ sortedValues zamDeps = sortedValues amzDeps
  /\ generateFunctionsString (VObject jsonEncoder) (helloDeps ++ dashDeps)
     = generateFunctionsString (VObject jsonEncoder) (dashDeps ++ helloDeps)
  /\ generateFunctionsString (VObject depEncoder) slowDeps
     = generateFunctionsString (VObject depEncoder) []
  /\ (forall t t',
         generateFunctionsString (VObject jsonEncoder) helloDeps = Ok t ->
         generateFunctionsString (VObject jsonEncoder) [] = Ok t' ->
         (List.length t' < List.length t)%nat).
Proof.
  destruct (dependency_order (VObject depEncoder) zamDeps amzDeps eq_refl
              zam_amz_Permutation) as (Ek & Ev & _ & _).
  split; [exact Ek|]. split; [exact Ev|]. split; [|split].
  - apply (proj1 (proj2 (proj2 (dependency_order (VObject jsonEncoder)
                                   (helloDeps ++ dashDeps) (dashDeps ++ helloDeps)
                                   eq_refl (Permutation_app_comm _ _))))
             eq_refl).
  - apply (proj2 (proj2 (proj2 (dependency_order (VObject depEncoder) slowDeps
                                   slowDeps eq_refl (Permutation_refl _))))
             [] [] (js "dep") (get slowDeps (js "dep")) eq_refl); reflexivity.
  - apply (proj2 (proj2 (proj2 (dependency_order (VObject jsonEncoder) helloDeps
                                   helloDeps eq_refl (Permutation_refl _))))
             [] [] (js "hello") (get helloDeps (js "hello")) eq_refl); reflexivity.
Defined.

(** C3 (as stated) fails.  The dependencies of the test suite written in
    another order give another canonical text and another hash, and an
    artifact created with one order does not load with the other.  And a key
    with a non-callable value can be added without any change of the hash. *)
Lemma dependency_order_changes_hash :
  Permutation zamDeps amzDeps
  /\ generateFunctionsString (VObject jsonEncoder) zamDeps
     <> generateFunctionsString (VObject jsonEncoder) amzDeps
  /\ generateHash (VObject jsonEncoder) zamDeps None
     <> generateHash (VObject jsonEncoder) amzDeps None
  /\ create (js "sortedEncoder") jsonEncoder zamDeps None = Ok zamCreated
  /\ outcome (load RefEngine.platform (uri zamCreated) (hash zamCreated)
                   (AObject amzDeps) None) = Throw hashMismatch
  /\ generateHash (VObject jsonEncoder) (helloDeps ++ dashDeps) None
     = generateHash (VObject jsonEncoder) helloDeps None.
Proof.
  split; [exact zam_amz_Permutation|].
  split; [intros H; vm_compute in H; discriminate|].
  split; [intros H; vm_compute in H; discriminate|].
  split; [vm_compute; reflexivity|].
  split; vm_compute; reflexivity.
Qed.

(* ================================================================== *)
(** * Further properties of the sources *)

(** ** [defaultHasher] *)

Module SHA256Facts.
Import SHA256.

Lemma round_length (st : list N) (kw : N * N) :
  List.length st = 8%nat -> List.length (round st kw) = 8%nat.
Proof.
  intros H.
  destruct st as [|a [|b [|c [|d [|e [|f [|g [|h [|i r]]]]]]]]];
    try discriminate H; reflexivity.
Qed.

Lemma rounds_length (kws : list (N * N)) (st : list N) :
  List.length st = 8%nat -> List.length (fold_left round kws st) = 8%nat.
Proof.
  revert st. induction kws as [|kw kws IH]; intros st H; simpl; [exact H|].
  apply IH, round_length, H.
Qed.

Lemma compress_length (hs block : list N) :
  List.length hs = 8%nat -> List.length (compress hs block) = 8%nat.
Proof.
  intros H. unfold compress. rewrite length_map, length_combine.
  rewrite (rounds_length _ _ H), H. reflexivity.
Qed.

Lemma blocks_length (n : nat) (hs b : list N) :
  List.length hs = 8%nat -> List.length (blocks n hs b) = 8%nat.
Proof.
  revert hs b. induction n as [|n IH]; intros hs b H; simpl; [exact H|].
  apply IH, compress_length, H.
Qed.

Lemma bytesBE_length (n : nat) (x : N) : List.length (bytesBE n x) = n.
Proof.
  revert x. induction n as [|n IH]; intros x; simpl; [reflexivity|].
  rewrite length_app, IH. simpl. lia.
Qed.

Lemma bytesBE_bytes (n : nat) (x : N) :
  forallb (fun b => b <? 256) (bytesBE n x) = true.
Proof.
  revert x. induction n as [|n IH]; intros x; simpl; [reflexivity|].
  rewrite forallb_app, IH. simpl. rewrite andb_true_r.
  apply N.ltb_lt. apply N.mod_lt. discriminate.
Qed.

Lemma flat_map_length_const (A B : Type) (f : A -> list B) (k : nat)
      (l : list A) :
  (forall a, List.length (f a) = k) ->
  List.length (flat_map f l) = (List.length l * k)%nat.
Proof.
  intros H. induction l as [|a l IH]; simpl; [reflexivity|].
  now rewrite length_app, H, IH.
Qed.

(** A SHA-256 digest is 32 bytes. *)
Lemma digest_length (msg : list N) : List.length (digest msg) = 32%nat.
Proof.
  unfold digest.
  rewrite (flat_map_length_const _ _ (bytesBE 4) 4 _ (bytesBE_length 4)).
  now rewrite blocks_length.
Qed.

Lemma digest_bytes (msg : list N) :
  forallb (fun b => b <? 256) (digest msg) = true.
Proof.
  unfold digest. generalize (blocks (Nat.div (List.length (padMessage msg)) 64)
                                    H0 (padMessage msg)).
  intros l. induction l as [|x l IH]; cbn [flat_map]; [reflexivity|].
  now rewrite forallb_app, bytesBE_bytes, IH.
Qed.

End SHA256Facts.

Lemma hexDigit_hex (d : N) : d < 16 -> isHexDigit (hexDigit d) = true.
Proof.
  intros H. unfold hexDigit, isHexDigit.
  destruct (d <? 10) eqn:E.
  - apply N.ltb_lt in E. apply orb_true_iff. left.
    apply andb_true_iff. split; apply N.leb_le; lia.
  - apply N.ltb_ge in E. apply orb_true_iff. right.
    apply andb_true_iff. split; apply N.leb_le; lia.
Qed.

Lemma hexBytes_length (l : list N) :
  List.length (join [] (map hexByte l)) = (2 * List.length l)%nat.
Proof.
  induction l as [|b [|b' l] IH]; [reflexivity|reflexivity|].
  change (map hexByte (b :: b' :: l)) with (hexByte b :: map hexByte (b' :: l)).
  change (join [] (hexByte b :: map hexByte (b' :: l)))
    with (hexByte b ++ [] ++ join [] (map hexByte (b' :: l))).
  rewrite !length_app, IH. simpl. lia.
Qed.

Lemma hexBytes_hex (l : list N) :
  forallb (fun b => b <? 256) l = true ->
  forallb isHexDigit (join [] (map hexByte l)) = true.
Proof.
  induction l as [|b [|b' l] IH]; intros H; [reflexivity| |].
  - simpl in H. rewrite andb_true_r in H. apply N.ltb_lt in H.
    cbn [map join hexByte forallb].
    rewrite !hexDigit_hex; [reflexivity| |].
    + apply N.mod_lt. discriminate.
    + apply N.Div0.div_lt_upper_bound. lia.
  - change (map hexByte (b :: b' :: l)) with (hexByte b :: map hexByte (b' :: l)).
    change (join [] (hexByte b :: map hexByte (b' :: l)))
      with (hexByte b ++ [] ++ join [] (map hexByte (b' :: l))).
    cbn [forallb] in H. apply andb_true_iff in H as [Hb H].
    apply N.ltb_lt in Hb.
    rewrite !forallb_app, (IH H). cbn [hexByte forallb].
    rewrite !hexDigit_hex; [reflexivity| |].
    + apply N.mod_lt. discriminate.
    + apply N.Div0.div_lt_upper_bound. lia.
Qed.

Lemma isHexDigit_latin1 (s : jsstring) :
  forallb isHexDigit s = true -> isLatin1 s = true.
Proof.
  unfold isLatin1. rewrite !forallb_forall. intros H c Hc.
  specialize (H c Hc). unfold isHexDigit in H.
  apply N.leb_le.
  apply orb_true_iff in H as [H|H]; apply andb_true_iff in H as [_ H];
    apply N.leb_le in H; lia.
Qed.

(** X1: whatever bytes it is given, [defaultHasher] does not throw and
    returns a string of exactly 64 code units, each a lowercase hexadecimal
    digit: every byte of the 32-byte digest is written with two digits,
    [padStart] supplying the leading zero. *)
Theorem defaultHasher_hex64 (data : list N) :
  exists s,
    defaultHasher data = Ok s
    /\ List.length s = 64%nat
    /\ forallb isHexDigit s = true.
Proof.
  eexists. split; [reflexivity|]. split.
  - now rewrite hexBytes_length, SHA256Facts.digest_length.
  - apply hexBytes_hex, SHA256Facts.digest_bytes.
Qed.

(** ** [toDataUri] *)

Lemma encode_injective (a b : jsstring) :
  isLatin1 a = true -> isLatin1 b = true ->
  Base64.encode a = Base64.encode b -> a = b.
Proof.
  intros Ha Hb E.
  pose proof (Base64Facts.decode_encode a (isLatin1_bytes a Ha)) as Da.
  pose proof (Base64Facts.decode_encode b (isLatin1_bytes b Hb)) as Db.
  rewrite E in Da. congruence.
Qed.


Lemma ch_ascii (i : N) : Base64.ch i < 128.
Proof.
  unfold Base64.ch.
  destruct (i <? 26) eqn:E1; [apply N.ltb_lt in E1; lia|].
  destruct (i <? 52) eqn:E2; [apply N.ltb_lt in E2; lia|].
  destruct (i <? 62) eqn:E3; [apply N.ltb_lt in E3; lia|].
  destruct (i =? 62); lia.
Qed.

Lemma encode_ascii (l : list N) :
  forallb (fun c => c <? 128) (Base64.encode l) = true.
Proof.
  assert (C : forall i, (Base64.ch i <? 128) = true)
    by (intros i; apply N.ltb_lt, ch_ascii).
  induction l as [|a|a b|a b c r IH] using list_ind3;
    cbn [Base64.encode forallb]; rewrite ?C, ?IH; reflexivity.
Qed.

Lemma encode_length (l : list N) :
  List.length (Base64.encode l) = base64Length (List.length l).
Proof.
  unfold base64Length.
  induction l as [|a|a b|a b c r IH] using list_ind3;
    [reflexivity|reflexivity|reflexivity|].
  cbn [Base64.encode List.length]. rewrite IH.
  replace (S (S (S (List.length r))) + 2)%nat
    with (1 * 3 + (List.length r + 2))%nat by lia.
  rewrite Nat.div_add_l by discriminate. lia.
Qed.

(** X2: [toDataUri] is injective: two module texts with the same data URI
    are the same text, so that an artifact determines the module it packs. *)
Theorem toDataUri_injective (x y u : jsstring) :
  toDataUri x = Ok u -> toDataUri y = Ok u -> x = y.
Proof.
  intros Hx Hy. destruct (toDataUri_inv _ _ Hx) as [Lx Ex].
  destruct (toDataUri_inv _ _ Hy) as [Ly Ey]. subst u.
  apply app_inv_head in Ey. now apply encode_injective.
Qed.

Lemma toDataUri_injective_witness :
  toDataUri (js "export default 1") = Ok (js "data:text/javascript;base64,ZXhwb3J0IGRlZmF1bHQgMQ==")
  /\ js "export default 1" = js "export default 1".
Proof.
  split; [reflexivity|].
  apply (toDataUri_injective (js "export default 1") (js "export default 1")
           (js "data:text/javascript;base64,ZXhwb3J0IGRlZmF1bHQgMQ=="));
    reflexivity.
Defined.

(** X3: every data URI that [toDataUri] returns is plain ASCII, begins with
    [data:text/javascript;base64,] and has 28 code units of prefix followed by
    four code units for every three (or final one or two) code units of the
    module text. *)
Theorem toDataUri_shape (code u : jsstring) :
  toDataUri code = Ok u ->
  startsWith u dataUriPrefix = true
  /\ forallb (fun c => c <? 128) u = true
  /\ List.length u = (28 + base64Length (List.length code))%nat.
Proof.
  intros H. apply toDataUri_inv in H as [_ ->]. split; [|split].
  - apply startsWith_app.
  - rewrite forallb_app, encode_ascii. reflexivity.
  - rewrite length_app, encode_length. reflexivity.
Qed.

Lemma toDataUri_shape_witness :
  startsWith (js "data:text/javascript;base64,ZXhwb3J0IGRlZmF1bHQgMQ==")
             dataUriPrefix = true
  /\ forallb (fun c => c <? 128)
             (js "data:text/javascript;base64,ZXhwb3J0IGRlZmF1bHQgMQ==") = true
  /\ List.length (js "data:text/javascript;base64,ZXhwb3J0IGRlZmF1bHQgMQ==")
     = (28 + base64Length (List.length (js "export default 1")))%nat.
Proof.
  apply (toDataUri_shape (js "export default 1")
           (js "data:text/javascript;base64,ZXhwb3J0IGRlZmF1bHQgMQ==")).
  reflexivity.
Defined.

(** ** [generateFunctionsString] and [generateHash] *)

Lemma Ok_inj (A : Type) (a b : A) : Ok a = Ok b -> a = b.
Proof. now intros [= ->]. Qed.

Lemma depStrings_nil (d : props) :
  depStrings d = [] <->
  forall k, In k (keys d) -> isFunction (get d k) = false.
Proof.
  unfold depStrings. split.
  - intros H k Hk. destruct (isFunction (get d k)) eqn:E; [|reflexivity].
    apply map_eq_nil in H.
    assert (Hin : In k (filter (fun q => isFunction (get d q)) (keys d)))
      by (apply filter_In; auto).
    rewrite H in Hin. destruct Hin.
  - intros H. replace (filter _ (keys d)) with (@nil jsstring); [reflexivity|].
    symmetry. induction (keys d) as [|k l IH]; [reflexivity|].
    simpl. rewrite (H k) by (now left). apply IH. intros q Hq. apply H. now right.
Qed.

Lemma capability_entry_nil (c : jsstring) (v : value) :
  (if truthy v then handleFunction c v else []) = [] <-> truthy v = false.
Proof.
  destruct (truthy v); split; intros H; try reflexivity; try discriminate.
  pose proof (handleFunction_nonEmpty c v) as N. rewrite H in N. discriminate.
Qed.

Lemma join_nil (sep : jsstring) (l : list jsstring) :
  forallb nonEmpty l = true -> join sep l = [] -> l = [].
Proof.
  intros Hl Hj. destruct l as [|p l]; [reflexivity|].
  pose proof (join_nonEmpty sep (p :: l)) as N.
  rewrite Hj in N. discriminate N; [discriminate|exact Hl].
Qed.

Lemma forallb_filter_id (A : Type) (f : A -> bool) (l : list A) :
  forallb f (filter f l) = true.
Proof.
  apply forallb_forall. intros x Hx. now apply filter_In in Hx.
Qed.

Lemma filter_nonEmpty_nil (l : list jsstring) :
  filter nonEmpty l = [] <-> forall s, In s l -> s = [].
Proof.
  induction l as [|p l IH]; simpl.
  - split; [intros _ s []|reflexivity].
  - destruct p as [|c p]; simpl.
    + rewrite IH. split; intros H s; [intros [<-|Hs]; auto|intros Hs; auto].
    + split; [discriminate|]. intros H. specialize (H (c :: p) (or_introl eq_refl)).
      discriminate.
Qed.

(** X4: the canonical text of an object is the empty string exactly when
    none of its three capabilities is truthy and no dependency is callable;
    in every other case the text is not empty. *)
Theorem generateFunctionsString_empty_iff (o d : props) :
  generateFunctionsString (VObject o) d = Ok []
  <-> (forall c, In c capabilityNames -> truthy (get o c) = false)
      /\ (forall k, In k (keys d) -> isFunction (get d k) = false).
Proof.
  rewrite generateFunctionsString_object, canonicalText_join.
  rewrite <- depStrings_nil.
  set (e := get o (js "encode")). set (dc := get o (js "decode")).
  set (p := get o (js "preencode")).
  split.
  - intros H. apply Ok_inj in H.
    apply join_nil in H; [|apply forallb_filter_id].
    rewrite filter_nonEmpty_nil in H.
    assert (He : truthy e = false).
    { apply (capability_entry_nil (js "encode")). apply H. simpl. auto. }
    assert (Hd : truthy dc = false).
    { apply (capability_entry_nil (js "decode")). apply H. simpl. auto. }
    assert (Hp : truthy p = false).
    { apply (capability_entry_nil (js "preencode")). apply H. simpl. auto. }
    split.
    + intros c [<-|[<-|[<-|[]]]]; assumption.
    + destruct (depStrings d) as [|s l] eqn:E; [reflexivity|].
      assert (Hs : s = []) by (apply H; simpl; auto).
      pose proof (depStrings_nonEmpty d) as N. rewrite E, Hs in N. discriminate.
  - intros [Hc Hd]. rewrite Hd.
    assert (He : truthy e = false) by (apply Hc; simpl; auto).
    assert (Hdc : truthy dc = false) by (apply Hc; simpl; auto).
    assert (Hp : truthy p = false) by (apply Hc; simpl; auto).
    now rewrite He, Hdc, Hp.
Qed.

Lemma sameCapabilities_entry (o o' : props) (c : jsstring) :
  sameCapabilities o o' = true -> In c capabilityNames ->
  (if truthy (get o c) then handleFunction c (get o c) else [])
  = (if truthy (get o' c) then handleFunction c (get o' c) else []).
Proof.
  unfold sameCapabilities. rewrite forallb_forall. intros H Hc.
  specialize (H c Hc). apply andb_true_iff in H as [Ht Hs].
  apply eqb_prop in Ht. rewrite <- Ht.
  destruct (truthy (get o c)); [|reflexivity].
  simpl in Hs. apply jseqb_eq in Hs. now apply handleFunction_ext.
Qed.

Lemma sameCapabilities_text (o o' d : props) :
  sameCapabilities o o' = true ->
  generateFunctionsString (VObject o) d = generateFunctionsString (VObject o') d.
Proof.
  intros H. rewrite !generateFunctionsString_object. f_equal.
  unfold canonicalText.
  rewrite (sameCapabilities_entry o o' (js "encode") H) by (simpl; auto).
  rewrite (sameCapabilities_entry o o' (js "decode") H) by (simpl; auto).
  rewrite (sameCapabilities_entry o o' (js "preencode") H) by (simpl; auto).
  reflexivity.
Qed.



(** ** Errors of [load] *)

(** X6: [load] hands on, unchanged, the error of the first step that fails
    and stops there: a [null] third argument is a TypeError before anything is
    imported; an error of [import] is raised before the factory is called; a
    module without a callable default export is a TypeError after the import;
    an error thrown by the factory is raised before any hash is taken; an
    error of the hash computation (of the hasher, or the TypeError for a
    factory that returned [undefined] or [null]) is raised after the factory
    call.  In none of these cases does [load] return a value. *)
Theorem load_propagates_errors (P : Platform) (dataUri expectedHash : jsstring)
        (x : hasherOrDepsArg) (deps4 : option props) :
  (exists msg,
      load P dataUri expectedHash ANull deps4 = ([], Throw (TypeError msg)))
  /\ (forall h deps,
         resolveArgs x deps4 = (h, Some deps) ->
         (forall e, import_ P dataUri = Throw e ->
                    load P dataUri expectedHash x deps4 = ([], Throw e))
         /\ (import_ P dataUri = Ok None ->
             exists msg,
               load P dataUri expectedHash x deps4
               = ([EvImport dataUri], Throw (TypeError msg)))
         /\ (forall f,
                import_ P dataUri = Ok (Some f) ->
                let args := cenc P :: b4a P :: sortedValues deps in
                (forall e, f args = Throw e ->
                           load P dataUri expectedHash x deps4
                           = ([EvImport dataUri; EvInvoke args], Throw e))
                /\ (forall enc e,
                       f args = Ok enc ->
                       generateHash enc deps (Some h) = Throw e ->
                       load P dataUri expectedHash x deps4
                       = ([EvImport dataUri; EvInvoke args;
                           EvGenerateHash enc deps], Throw e))
                /\ (forall enc,
                       f args = Ok enc -> enc = VUndefined \/ enc = VNull ->
                       exists msg,
                         load P dataUri expectedHash x deps4
                         = ([EvImport dataUri; EvInvoke args;
                             EvGenerateHash enc deps], Throw (TypeError msg))))).
Proof.
  split.
  - eexists. reflexivity.
  - intros h deps Hr. split; [|split].
    + intros e Hi. unfold load. now rewrite Hr, Hi.
    + intros Hi. eexists. unfold load. rewrite Hr, Hi. reflexivity.
    + intros f Hi args. split; [|split].
      * intros e Hf. unfold load. rewrite Hr, Hi. simpl. fold args.
        now rewrite Hf.
      * intros enc e Hf Hh. unfold load. rewrite Hr, Hi. simpl. fold args.
        rewrite Hf. simpl. now rewrite Hh.
      * intros enc Hf Hn. eexists. unfold load. rewrite Hr, Hi. simpl.
        fold args. rewrite Hf. simpl.
        destruct Hn as [-> | ->]; reflexivity.
Qed.

(** The test of the invalid data URI: the SyntaxError of [import] is what
    [load] throws, and nothing else has happened. *)
Lemma load_propagates_errors_witness :
  exists msg,
    load RefEngine.platform (js "data:text/javascript;base64,invalidUri")
         (js "invalidHash") Omitted None
    = ([], Throw (SyntaxError msg)).
Proof.
  eexists.
  apply (proj1 (proj2 (load_propagates_errors RefEngine.platform
                         (js "data:text/javascript;base64,invalidUri")
                         (js "invalidHash") Omitted None)
                  defaultHasher [] eq_refl)).
  vm_compute. reflexivity.
Defined.

(** ** [generateEncodingUri] *)

(** [create] in two steps: the hasher on the UTF-8 bytes of the canonical
    text, then [toDataUri] on the module text. *)
Lemma create_eq (encoderName : jsstring) (encoder dependencies : props)
      (h : option hasher) :
  create encoderName encoder dependencies h
  = (hs <- hasherOf h (utf8 (functionsString encoder dependencies)) ;;
     u <- toDataUri (moduleText encoderName encoder dependencies hs) ;;
     Ok {| uri := u; hash := hs |}).
Proof. destruct h; reflexivity. Qed.

Lemma isLatin1_app (a b : jsstring) :
  isLatin1 (a ++ b) = isLatin1 a && isLatin1 b.
Proof. apply forallb_app. Qed.

Lemma isLatin1_join (sep : jsstring) (l : list jsstring) :
  isLatin1 sep = true -> isLatin1 (join sep l) = forallb isLatin1 l.
Proof.
  intros Hs. induction l as [|p [|q l] IH]; [reflexivity| |].
  - simpl. now rewrite andb_true_r.
  - change (join sep (p :: q :: l)) with (p ++ sep ++ join sep (q :: l)).
    rewrite !isLatin1_app, Hs, IH. reflexivity.
Qed.

Lemma forallb_Permutation (A : Type) (f : A -> bool) (l l' : list A) :
  Permutation l l' -> forallb f l = forallb f l'.
Proof.
  induction 1 as [|x l l' _ IH|x y l|l l' l'' _ IH1 _ IH2]; simpl.
  - reflexivity.
  - now rewrite IH.
  - now rewrite !andb_assoc, (andb_comm (f y)).
  - now rewrite IH1.
Qed.

Lemma isLatin1_dependencyString (d : props) :
  isLatin1 (dependencyString d) = forallb isLatin1 (keys d).
Proof.
  unfold dependencyString.
  rewrite <- (forallb_Permutation _ isLatin1 _ _ (sortKeys_Permutation (keys d))).
  destruct (sortKeys (keys d)) as [|k l]; [reflexivity|].
  cbn [List.length Nat.ltb Nat.leb]. rewrite isLatin1_app.
  now rewrite isLatin1_join.
Qed.

Lemma forallb_filter_nonEmpty (l : list jsstring) :
  forallb isLatin1 (filter nonEmpty l) = forallb isLatin1 l.
Proof.
  induction l as [|p l IH]; [reflexivity|].
  destruct p as [|c p]; simpl; [exact IH|]. now rewrite IH.
Qed.

Lemma falsy_latin1 (v : value) : truthy v = false -> isLatin1 (toStringV v) = true.
Proof.
  destruct v as [| |[|c s]|[|]|t| |]; simpl; try discriminate; try reflexivity.
  intros H. apply negb_false_iff, orb_true_iff in H.
  destruct H as [H|H]; apply jseqb_eq in H; subst t; reflexivity.
Qed.

Lemma isLatin1_nameEntry (encoderName : jsstring) (encoder : props) :
  isLatin1 (nameEntry encoderName encoder)
  = isLatin1 (toStringV (nameOf encoderName encoder)).
Proof.
  unfold nameEntry. destruct (truthy (nameOf encoderName encoder)) eqn:E.
  - rewrite !isLatin1_app.
    change (isLatin1 (js "name: ")) with true.
    change (isLatin1 dquote) with true.
    now rewrite andb_true_r.
  - now rewrite (falsy_latin1 _ E).
Qed.

Lemma isLatin1_hashEntry (hs : jsstring) : isLatin1 (hashEntry hs) = isLatin1 hs.
Proof.
  unfold hashEntry. rewrite !isLatin1_app.
  change (isLatin1 (js "hash: ")) with true.
  change (isLatin1 dquote) with true.
  now rewrite andb_true_r.
Qed.

Lemma isLatin1_moduleCode (ds ps : jsstring) :
  isLatin1 (moduleCode ds ps) = isLatin1 ds && isLatin1 ps.
Proof.
  unfold moduleCode. rewrite !isLatin1_app.
  change (isLatin1 nl) with true.
  change (isLatin1 (js "export default function (cenc, b4a")) with true.
  change (isLatin1 (js ") {")) with true.
  change (isLatin1 (js "    return {")) with true.
  change (isLatin1 (js "        ")) with true.
  change (isLatin1 (js "    };")) with true.
  change (isLatin1 (js "}")) with true.
  cbn [andb]. now rewrite !andb_true_r.
Qed.

Lemma isLatin1_moduleText (encoderName : jsstring) (encoder dependencies : props)
      (hs : jsstring) :
  isLatin1 (moduleText encoderName encoder dependencies hs)
  = packable encoderName encoder dependencies hs.
Proof.
  unfold moduleText, packable.
  rewrite isLatin1_moduleCode, isLatin1_dependencyString.
  rewrite isLatin1_join by reflexivity. rewrite forallb_filter_nonEmpty.
  cbn [forallb]. rewrite isLatin1_nameEntry, isLatin1_hashEntry.
  now rewrite andb_true_r, !andb_assoc.
Qed.

Lemma defaultHasher_latin1 (data : list N) :
  exists hs, defaultHasher data = Ok hs /\ isLatin1 hs = true.
Proof.
  eexists. split; [reflexivity|].
  apply isHexDigit_latin1, hexBytes_hex, SHA256Facts.digest_bytes.
Qed.

(** X7: [create] fails in exactly two ways.  An error thrown by the hasher
    is handed on.  When the hasher returns, [create] returns an artifact with
    that hash if the dependency keys, the canonical text of the functions, the
    name and the hash all consist of code units up to 0xFF, and otherwise
    raises the InvalidCharacterError of [btoa].  With the default hasher the
    hash is never the cause: [create] returns exactly when keys, function text
    and name are Latin-1. *)
Theorem create_outcome (encoderName : jsstring) (encoder dependencies : props)
        (h : option hasher) :
  (forall e,
      hasherOf h (utf8 (functionsString encoder dependencies)) = Throw e ->
      create encoderName encoder dependencies h = Throw e)
  /\ (forall hs,
         hasherOf h (utf8 (functionsString encoder dependencies)) = Ok hs ->
         (packable encoderName encoder dependencies hs = true ->
          exists c, create encoderName encoder dependencies h = Ok c
                    /\ hash c = hs)
         /\ (packable encoderName encoder dependencies hs = false ->
             create encoderName encoder dependencies h
             = Throw InvalidCharacterError))
  /\ ((exists c, create encoderName encoder dependencies None = Ok c)
      <-> packable encoderName encoder dependencies [] = true).
Proof.
  split; [|split].
  - intros e He. rewrite create_eq, He. reflexivity.
  - intros hs Hh. rewrite create_eq, Hh. cbn [bind].
    unfold toDataUri, btoa. rewrite isLatin1_moduleText. split; intros Hp;
      rewrite Hp; cbn [bind]; [eexists; split; reflexivity|reflexivity].
  - rewrite create_eq.
    destruct (defaultHasher_latin1 (utf8 (functionsString encoder dependencies)))
      as [hs [Hh Hl]].
    cbn [hasherOf]. rewrite Hh. cbn [bind].
    unfold toDataUri, btoa. rewrite isLatin1_moduleText.
    assert (E : packable encoderName encoder dependencies hs
                = packable encoderName encoder dependencies []).
    { unfold packable. rewrite Hl. reflexivity. }
    rewrite E.
    destruct (packable encoderName encoder dependencies []); cbn [bind].
    + split; [reflexivity|]. intros _. eexists. reflexivity.
    + split; [intros [c Hc]; discriminate Hc|discriminate].
Qed.

Lemma create_outcome_witness :
  exists c, create (js "jsonEncoder") jsonEncoder helloDeps (Some customHasher) = Ok c
            /\ hash c = js "fake-hash".
Proof.
  apply (proj1 (proj1 (proj2 (create_outcome (js "jsonEncoder") jsonEncoder
                                 helloDeps (Some customHasher)))
                  (js "fake-hash") eq_refl)).
  vm_compute. reflexivity.
Defined.

Lemma create_Ok (encoderName : jsstring) (encoder dependencies : props)
      (h : option hasher) (c : created) :
  create encoderName encoder dependencies h = Ok c ->
  hasherOf h (utf8 (functionsString encoder dependencies)) = Ok (hash c)
  /\ toDataUri (moduleText encoderName encoder dependencies (hash c)) = Ok (uri c).
Proof.
  rewrite create_eq.
  destruct (hasherOf h _) as [hs|e] eqn:Hh; cbn [bind]; [|discriminate].
  destruct (toDataUri _) as [u|e] eqn:Hu; cbn [bind]; [|discriminate].
  intros [= <-]. cbn [hash uri]. auto.
Qed.

Lemma moduleCode_inv (ds ps ps' : jsstring) :
  moduleCode ds ps = moduleCode ds ps' -> ps = ps'.
Proof.
  unfold moduleCode. intros H.
  repeat apply app_inv_head in H.
  now apply app_inv_tail in H.
Qed.

Lemma join3_inv (sep f a b z : jsstring) :
  a <> [] -> b <> [] -> z <> [] ->
  join sep (filter nonEmpty [f; a; z]) = join sep (filter nonEmpty [f; b; z]) ->
  a = b.
Proof.
  intros Ha Hb Hz.
  destruct a as [|x a]; [congruence|]. destruct b as [|y b]; [congruence|].
  destruct z as [|w z]; [congruence|].
  destruct f as [|c f]; cbn [filter nonEmpty join]; intros H.
  - now apply app_inv_tail in H.
  - apply app_inv_head in H. apply app_inv_head in H.
    now apply app_inv_tail in H.
Qed.

(** X8: the name is not part of what is hashed.  Two calls of [create] that
    differ only in the name return the same hash, and, when both names are
    non-empty and different, different data URIs: the hash identifies the
    functions, not the artifact. *)
Theorem create_name_not_hashed (name1 name2 : jsstring)
        (encoder dependencies : props) (h : option hasher) (c1 c2 : created) :
  create name1 encoder dependencies h = Ok c1 ->
  create name2 encoder dependencies h = Ok c2 ->
  hash c1 = hash c2
  /\ (name1 <> [] -> name2 <> [] -> name1 <> name2 -> uri c1 <> uri c2).
Proof.
  intros H1 H2.
  apply create_Ok in H1 as [Hh1 Hu1]. apply create_Ok in H2 as [Hh2 Hu2].
  assert (E : hash c1 = hash c2) by congruence.
  split; [exact E|]. intros N1 N2 Hne Hu.
  rewrite <- E, <- Hu in Hu2.
  apply toDataUri_inv in Hu1 as [L1 U1]. apply toDataUri_inv in Hu2 as [L2 U2].
  rewrite U1 in U2. apply app_inv_head in U2.
  apply encode_injective in U2; [|assumption|assumption].
  unfold moduleText in U2. apply moduleCode_inv in U2.
  apply join3_inv in U2.
  - unfold nameEntry, nameOf in U2.
    destruct name1 as [|a n1]; [congruence|].
    destruct name2 as [|b n2]; [congruence|].
    cbn [nonEmpty truthy toStringV] in U2.
    apply app_inv_head in U2. apply app_inv_head in U2.
    apply app_inv_tail in U2. congruence.
  - unfold nameEntry, nameOf. destruct name1; [congruence|discriminate].
  - unfold nameEntry, nameOf. destruct name2; [congruence|discriminate].
  - discriminate.
Qed.

Lemma create_name_not_hashed_witness :
  hash (artifact (create (js "jsonEncoder") jsonEncoder helloDeps None))
  = hash (artifact (create (js "stringEncoder") jsonEncoder helloDeps None))
  /\ uri (artifact (create (js "jsonEncoder") jsonEncoder helloDeps None))
     <> uri (artifact (create (js "stringEncoder") jsonEncoder helloDeps None)).
Proof.
  assert (H :=
    create_name_not_hashed (js "jsonEncoder") (js "stringEncoder")
      jsonEncoder helloDeps None
      (artifact (create (js "jsonEncoder") jsonEncoder helloDeps None))
      (artifact (create (js "stringEncoder") jsonEncoder helloDeps None))).
  destruct H as [Hh Hu]; [vm_compute; reflexivity|vm_compute; reflexivity|].
  split; [exact Hh|]. apply Hu; discriminate.
Defined.

(** X9: what [create] returns can be read back.  Its data URI is the prefix
    [data:text/javascript;base64,] followed by a payload that base64-decodes
    to the module text of the template: the sorted dependency keys as formal
    parameters after [cenc, b4a], and as the properties of the returned object
    the canonical text of the functions, the name entry when there is a name,
    and the entry of the very hash that [create] returns. *)
Theorem create_uri_decodes (encoderName : jsstring)
        (encoder dependencies : props) (h : option hasher) (c : created) :
  create encoderName encoder dependencies h = Ok c ->
  exists payload,
    uri c = dataUriPrefix ++ payload
    /\ atob payload
       = Ok (moduleCode
               (dependencyString dependencies)
               (join (js "," ++ nl)
                  (filter nonEmpty
                     [functionsString encoder dependencies;
                      nameEntry encoderName encoder;
                      hashEntry (hash c)])))
    /\ generateFunctionsString (VObject encoder) dependencies
       = Ok (functionsString encoder dependencies).
Proof.
  intros H. apply create_Ok in H as [_ Hu].
  apply toDataUri_inv in Hu as [L U].
  exists (Base64.encode (moduleText encoderName encoder dependencies (hash c))).
  split; [exact U|]. split.
  - unfold atob.
    now rewrite (Base64Facts.decode_encode _ (isLatin1_bytes _ L)).
  - reflexivity.
Qed.

Lemma create_uri_decodes_witness :
  exists payload,
    uri helloCreated = dataUriPrefix ++ payload
    /\ atob payload
       = Ok (moduleCode
               (dependencyString helloDeps)
               (join (js "," ++ nl)
                  (filter nonEmpty
                     [functionsString jsonEncoder helloDeps;
                      nameEntry (js "jsonEncoder") jsonEncoder;
                      hashEntry (hash helloCreated)])))
    /\ generateFunctionsString (VObject jsonEncoder) helloDeps
       = Ok (functionsString jsonEncoder helloDeps).
Proof.
  apply (create_uri_decodes (js "jsonEncoder") jsonEncoder helloDeps None
           helloCreated).
  vm_compute. reflexivity.
Defined.

Lemma weight_Permutation (sep : jsstring) (l l' : list jsstring) :
  Permutation l l' -> weight sep l = weight sep l'.
Proof.
  induction 1 as [|x l l' _ IH|x y l|l l' l'' _ IH1 _ IH2]; simpl; lia.
Qed.

Lemma dependencyString_length (d : props) :
  List.length (dependencyString d) = weight (js ",") (keys d).
Proof.
  unfold dependencyString.
  rewrite <- (weight_Permutation (js ",") _ _ (sortKeys_Permutation (keys d))).
  destruct (sortKeys (keys d)) as [|k l] eqn:E; [reflexivity|].
  cbn [List.length Nat.ltb Nat.leb]. rewrite length_app.
  pose proof (join_length (js ",") (k :: l)) as J.
  change (List.length (js ",")) with 1%nat in *.
  rewrite <- J by discriminate. lia.
Qed.

Lemma moduleCode_params_inv (ds ds' ps : jsstring) :
  moduleCode ds ps = moduleCode ds' ps -> ds = ds'.
Proof.
  unfold moduleCode. intros H.
  change (nl ++ js "export default function (cenc, b4a" ++ ?x)
    with ((nl ++ js "export default function (cenc, b4a") ++ x) in H.
  apply app_inv_head in H. now apply app_inv_tail in H.
Qed.

(** X10: a dependency that is not callable is part of the artifact but not
    of the hash.  Creating with one more non-callable dependency (the object
    [dep] of the test suite, say) returns the same hash and a different data
    URI, since the key is a further formal parameter of the module. *)
Theorem noncallable_dependency_not_hashed (encoderName : jsstring)
        (encoder a b : props) (k : jsstring) (v : value) (h : option hasher)
        (c1 c2 : created) :
  distinct (keys (a ++ (k, v) :: b)) = true ->
  isFunction v = false ->
  create encoderName encoder (a ++ b) h = Ok c1 ->
  create encoderName encoder (a ++ (k, v) :: b) h = Ok c2 ->
  hash c1 = hash c2 /\ uri c1 <> uri c2.
Proof.
  intros Hd Hv H1 H2.
  apply create_Ok in H1 as [Hh1 Hu1]. apply create_Ok in H2 as [Hh2 Hu2].
  assert (F : functionsString encoder (a ++ (k, v) :: b)
              = functionsString encoder (a ++ b)).
  { apply Ok_inj.
    change (generateFunctionsString (VObject encoder) (a ++ (k, v) :: b)
            = generateFunctionsString (VObject encoder) (a ++ b)).
    now apply (generateFunctionsString_insert (VObject encoder) a b k v Hd). }
  rewrite F in Hh2.
  assert (E : hash c1 = hash c2) by congruence.
  split; [exact E|]. intros Hu.
  rewrite <- E, <- Hu in Hu2.
  apply toDataUri_inv in Hu1 as [L1 U1]. apply toDataUri_inv in Hu2 as [L2 U2].
  rewrite U1 in U2. apply app_inv_head in U2.
  apply encode_injective in U2; [|assumption|assumption].
  unfold moduleText in U2. rewrite F in U2.
  apply moduleCode_params_inv in U2.
  apply (f_equal (@List.length N)) in U2.
  rewrite !dependencyString_length in U2.
  unfold keys in U2. rewrite !map_app in U2. cbn [map fst] in U2.
  rewrite !weight_app in U2. cbn [weight] in U2.
  change (List.length (js ",")) with 1%nat in U2. lia.
Qed.

Lemma noncallable_dependency_not_hashed_witness :
  hash (artifact (create (js "customEncoder") depEncoder [] None))
  = hash slowCreated
  /\ uri (artifact (create (js "customEncoder") depEncoder [] None))
     <> uri slowCreated.
Proof.
  apply (noncallable_dependency_not_hashed (js "customEncoder") depEncoder
           [] [] (js "dep")
           (VObject [(js "process",
                      VFunction (js "process(value) { return `slow:${value}`; }") [])])
           None);
    vm_compute; reflexivity.
Defined.

(** ** [create] followed by [load] *)



(** ** What of its arguments [create] reads *)

Lemma sameSignature_dependencyString (d d' : props) :
  sameSignature d d' = true -> dependencyString d = dependencyString d'.
Proof.
  intros H. unfold dependencyString.
  now rewrite (proj1 (sameSignature_get d d' H)).
Qed.

Lemma sameCapabilities_functionsString (o o' d d' : props) :
  sameCapabilities o o' = true -> sameSignature d d' = true ->
  functionsString o d = functionsString o' d'.
Proof.
  intros Ho Hd. apply Ok_inj.
  change (generateFunctionsString (VObject o) d
          = generateFunctionsString (VObject o') d').
  rewrite (sameCapabilities_text o o' d Ho).
  apply generateFunctionsString_depStrings.
  now apply depStrings_sameSignature.
Qed.

Lemma sameCapabilities_get (o o' : props) :
  (forall k, In k capabilityNames -> get o k = get o' k) ->
  sameCapabilities o o' = true.
Proof.
  intros H. unfold sameCapabilities. apply forallb_forall. intros c Hc.
  rewrite <- (H c Hc). rewrite eqb_reflx, jseqb_refl.
  now destruct (truthy (get o c)).
Qed.

(** X14: of its arguments [create] reads the text of the truthy
    capabilities, the name, the dependency keys and the text of the callable
    dependencies, and nothing else.  Two calls whose encoder definitions agree
    on the capabilities and give the same name, and whose dependency maps have
    the same signature, return the same artifact and hash (or throw the same
    error): further properties of the definition, the values of non-callable
    dependencies and the variables a function closes over leave no trace.  In
    particular the order of the properties of the definition is immaterial. *)
Theorem create_reads_text_only (encoderName : jsstring)
        (encoder encoder' dependencies dependencies' : props)
        (h : option hasher) :
  (sameCapabilities encoder encoder' = true ->
   truthy (nameOf encoderName encoder) = truthy (nameOf encoderName encoder') ->
   toStringV (nameOf encoderName encoder)
   = toStringV (nameOf encoderName encoder') ->
   sameSignature dependencies dependencies' = true ->
   create encoderName encoder dependencies h
   = create encoderName encoder' dependencies' h)
  /\ (distinct (keys encoder) = true -> Permutation encoder encoder' ->
      create encoderName encoder dependencies h
      = create encoderName encoder' dependencies h).
Proof.
  assert (G : sameCapabilities encoder encoder' = true ->
              truthy (nameOf encoderName encoder)
              = truthy (nameOf encoderName encoder') ->
              toStringV (nameOf encoderName encoder)
              = toStringV (nameOf encoderName encoder') ->
              sameSignature dependencies dependencies' = true ->
              create encoderName encoder dependencies h
              = create encoderName encoder' dependencies' h).
  { intros Ho Ht Hn Hd. rewrite !create_eq.
    rewrite (sameCapabilities_functionsString _ _ _ _ Ho Hd).
    destruct (hasherOf h _) as [hs|e]; cbn [bind]; [|reflexivity].
    unfold moduleText, nameEntry.
    rewrite (sameCapabilities_functionsString _ _ _ _ Ho Hd).
    rewrite (sameSignature_dependencyString _ _ Hd).
    now rewrite Ht, Hn. }
  split; [exact G|]. intros Hd Hp.
  assert (E : forall k, get encoder k = get encoder' k)
    by (intros k; now apply get_Permutation).
  rewrite !create_eq. unfold moduleText, nameEntry, functionsString, nameOf.
  now rewrite !E.
Qed.

(** The JSON encoder of the tests, and the same definition with a further
    property and with functions that close over a variable. *)
Lemma create_reads_text_only_witness :
  create (js "jsonEncoder") jsonEncoder slowDeps None
  = create (js "jsonEncoder")
      ((js "version", VString (js "1"))
         :: map (fun kv => (fst kv,
                            VFunction (toStringV (snd kv))
                                      [(js "JSON", VString (js "shadowed"))]))
                jsonEncoder)
      fastDeps None.
Proof.
  apply (proj1 (create_reads_text_only (js "jsonEncoder") jsonEncoder
                  ((js "version", VString (js "1"))
                     :: map (fun kv => (fst kv,
                                        VFunction (toStringV (snd kv))
                                          [(js "JSON", VString (js "shadowed"))]))
                            jsonEncoder)
                  slowDeps fastDeps None));
    reflexivity.
Defined.
